(** * Formula tree engine (formula_manager.py): shallow embedding and properties

    The engine of [src/formula_manager.py] is the class [FormulaManager]: a
    list of node dictionaries, an optional "last addition date", a dictionary
    from root ids to traversal levels, and an optional persistence callback
    that [_save_data] invokes.  Every method is embedded below as a function on
    an explicit manager state.

    Conventions of the embedding:
    - Python [int] is [Z]; identifiers and levels are unbounded integers.
    - Python [str] is a [string] holding the UTF-8 bytes of the text.
    - A [datetime.date] is its proleptic ordinal ([date.toordinal()]), a [Z];
      [date.isoformat] and [date.fromisoformat] are mutually inverse on dates,
      so an ISO date string stored in a node is represented by the date it
      denotes.  [date.today()] is an explicit argument [today].
    - The dictionary [active_tree_progress] is a [gmap Z Z].
    - A node dictionary with the six keys the engine writes is the record
      [Formula.t]; [import_formulas] and [clear_all_formulas] never look
      inside a node, so the manager is parametric in the node type and import
      is stated on raw JSON values.
    - [callback_calls] is a ghost counter of the invocations of the injected
      callback; [data_callback] records whether a callback was injected. *)

From Stdlib Require Import ZArith List Ascii String Lia PrimFloat.
From stdpp Require Import gmap list strings pretty sorting.

Local Open Scope string_scope.
Local Open Scope list_scope.
Local Open Scope stdpp_scope.
Local Open Scope Z_scope.

(** ** Data model *)

(** [datetime.date], by ordinal. *)
Definition date : Type := Z.

(** [timedelta(days=7)] subtracted from a date. *)
Definition minus_days (d : date) (n : Z) : date := d - n.

Module Formula.
(** One node dictionary: keys "id", "name", "parent", "children", "status",
    "last_active_time". *)
Record t : Type := mk {
  id : Z;
  name : string;
  parent : option Z;
  children : list Z;
  status : string;
  last_active_time : option date
}.

Definition set_name (v : string) (f : t) : t :=
  mk (id f) v (parent f) (children f) (status f) (last_active_time f).
Definition set_children (v : list Z) (f : t) : t :=
  mk (id f) (name f) (parent f) v (status f) (last_active_time f).
Definition set_status (v : string) (f : t) : t :=
  mk (id f) (name f) (parent f) (children f) v (last_active_time f).
Definition set_last_active_time (v : option date) (f : t) : t :=
  mk (id f) (name f) (parent f) (children f) (status f) v.
End Formula.

Abbreviation Formula := Formula.t.

(** The two status labels of the source. *)
Definition ACTIVE : string := "活跃".
Definition INACTIVE : string := "未执行".

(** The attributes of a [FormulaManager] instance. *)
Record Manager (node : Type) : Type := mkManager {
  data_callback : bool;
  callback_calls : nat;
  _formulas : list node;
  last_addition_date : option date;
  active_tree_progress : gmap Z Z
}.

Arguments mkManager {node} _ _ _ _ _.
Arguments data_callback {node} _.
Arguments callback_calls {node} _.
Arguments _formulas {node} _.
Arguments last_addition_date {node} _.
Arguments active_tree_progress {node} _.

Definition set_formulas {A B : Type} (fs : list B) (m : Manager A) : Manager B :=
  mkManager (data_callback m) (callback_calls m) fs
            (last_addition_date m) (active_tree_progress m).

Definition set_last_addition_date {A : Type} (d : option date) (m : Manager A)
  : Manager A :=
  mkManager (data_callback m) (callback_calls m) (_formulas m)
            d (active_tree_progress m).

Definition set_active_tree_progress {A : Type} (p : gmap Z Z) (m : Manager A)
  : Manager A :=
  mkManager (data_callback m) (callback_calls m) (_formulas m)
            (last_addition_date m) p.

(** [_save_data]: call the callback when one was injected. *)
Definition _save_data {A : Type} (m : Manager A) : Manager A :=
  if data_callback m
  then mkManager (data_callback m) (S (callback_calls m)) (_formulas m)
                 (last_addition_date m) (active_tree_progress m)
  else m.

(** The part of the state the engine owns: node list, progress map and
    last-addition date (everything but the callback and its call counter). *)
Definition engine_state {A : Type} (m : Manager A)
  : list A * option date * gmap Z Z :=
  (_formulas m, last_addition_date m, active_tree_progress m).

(** [_load_default_formulas]: the seeded forest A -> B -> D, A -> C. *)
Definition default_formulas (today : date) : list Formula :=
  [ Formula.mk 1 "A定式" None [2; 3] ACTIVE (Some today);
    Formula.mk 2 "B定式" (Some 1) [4] ACTIVE (Some today);
    Formula.mk 3 "C定式" (Some 1) [] INACTIVE None;
    Formula.mk 4 "D定式" (Some 2) [] INACTIVE None ].

(** [FormulaManager.__init__]. *)
Definition init (today : date) (callback : bool) : Manager Formula :=
  mkManager callback 0%nat (default_formulas today) None ∅.

(** ** [str.strip]

    Python strips the characters for which [str.isspace] holds: U+0009..000D,
    U+001C..0020, U+0085, U+00A0, U+1680, U+2000..200A, U+2028, U+2029,
    U+202F, U+205F and U+3000.  On the UTF-8 bytes these are one, two or three
    byte sequences. *)

Definition byte_of (c : ascii) : N := N_of_ascii c.

Definition is_space1 (c : ascii) : bool :=
  let n := byte_of c in
  ((9 <=? n) && (n <=? 13) || (28 <=? n) && (n <=? 32))%N.

Definition is_space2 (c1 c2 : ascii) : bool :=
  let a := byte_of c1 in let b := byte_of c2 in
  ((a =? 194) && ((b =? 133) || (b =? 160)))%N.

Definition is_space3 (c1 c2 c3 : ascii) : bool :=
  let a := byte_of c1 in let b := byte_of c2 in let c := byte_of c3 in
  ((a =? 225) && (b =? 154) && (c =? 128)
   || (a =? 226) && (b =? 128)
      && ((128 <=? c) && (c <=? 138) || (c =? 168) || (c =? 169) || (c =? 175))
   || (a =? 226) && (b =? 129) && (c =? 159)
   || (a =? 227) && (b =? 128) && (c =? 128))%N.

Fixpoint lstrip (s : string) : string :=
  match s with
  | EmptyString => EmptyString
  | String c1 s1 =>
      if is_space1 c1 then lstrip s1
      else match s1 with
           | EmptyString => s
           | String c2 s2 =>
               if is_space2 c1 c2 then lstrip s2
               else match s2 with
                    | EmptyString => s
                    | String c3 s3 =>
                        if is_space3 c1 c2 c3 then lstrip s3 else s
                    end
           end
  end.

(** Trailing white space, on the reversed byte list (UTF-8 is
    self-synchronising, so a suffix of bytes that spells a white-space
    character is that character). *)
Fixpoint rstrip_rev (l : list ascii) : list ascii :=
  match l with
  | [] => []
  | c1 :: l1 =>
      if is_space1 c1 then rstrip_rev l1
      else match l1 with
           | [] => l
           | c2 :: l2 =>
               if is_space2 c2 c1 then rstrip_rev l2
               else match l2 with
                    | [] => l
                    | c3 :: l3 =>
                        if is_space3 c3 c2 c1 then rstrip_rev l3 else l
                    end
           end
  end.

Definition rstrip (s : string) : string :=
  string_of_list_ascii (rev (rstrip_rev (rev (list_ascii_of_string s)))).

Definition strip (s : string) : string := rstrip (lstrip s).

(** ** Queries *)

(** [get_formula_by_id]: the first node with that id. *)
Definition get_formula_by_id (fs : list Formula) (formula_id : Z)
  : option Formula :=
  List.find (fun f => bool_decide (Formula.id f = formula_id)) fs.

(** [get_formula_by_name]. *)
Definition get_formula_by_name (fs : list Formula) (name : string)
  : option Formula :=
  List.find (fun f => bool_decide (Formula.name f = name)) fs.

(** [get_root_formulas]. *)
Definition get_root_formulas (fs : list Formula) : list Formula :=
  filter (fun f => Formula.parent f = None) fs.

(** [get_children_formulas]. *)
Definition get_children_formulas (fs : list Formula) (parent_id : Z)
  : list Formula :=
  filter (fun f => Formula.parent f = Some parent_id) fs.

(** [get_formula_count]. *)
Definition get_formula_count {A : Type} (m : Manager A) : nat :=
  length (_formulas m).

(** In-place update of the first dictionary whose id matches: the effect of
    [for formula in self._formulas: if formula["id"] == i: ...; break] and of
    mutating the dictionary that [get_formula_by_id] returned. *)
Fixpoint update_first (i : Z) (g : Formula -> Formula) (fs : list Formula)
  : list Formula :=
  match fs with
  | [] => []
  | f :: fs' =>
      if bool_decide (Formula.id f = i) then g f :: fs'
      else f :: update_first i g fs'
  end.

(** ** [add_formula] *)

Definition MSG_ALREADY_ADDED : string :=
  "今天已经添加过一个定式了，请明天再试。".
Definition MSG_EMPTY_NAME : string := "定式名称不能为空。".
Definition MSG_NO_PARENT : string := "父定式不存在。".
Definition MSG_ADDED (name : string) : string :=
  String.append "定式 '" (String.append name "' 已成功添加。").

(** Truth value of an [Optional[int]]: [None] and [0] are false. *)
Definition truthy (parent_id : option Z) : bool :=
  match parent_id with
  | Some p => negb (bool_decide (p = 0))
  | None => false
  end.

(** [max(l, default=d)]. *)
Definition max_default (l : list Z) (d : Z) : Z :=
  match l with
  | [] => d
  | x :: l' => fold_left Z.max l' x
  end.

Definition new_id_of (fs : list Formula) : Z :=
  max_default (Formula.id <$> fs) 0 + 1.

Definition add_formula (today : date) (name : string) (parent_id : option Z)
    (m : Manager Formula) : (bool * string) * Manager Formula :=
  let fs := _formulas m in
  if bool_decide (last_addition_date m = Some today) then
    ((false, MSG_ALREADY_ADDED), m)
  else if bool_decide (strip name = EmptyString) then
    ((false, MSG_EMPTY_NAME), m)
  else if truthy parent_id
          && negb (existsb (fun f => bool_decide (Some (Formula.id f) = parent_id)) fs)
  then ((false, MSG_NO_PARENT), m)
  else
    let new_id := new_id_of fs in
    let new_formula := Formula.mk new_id (strip name) parent_id [] INACTIVE None in
    let fs1 :=
      match parent_id with
      | Some p =>
          if truthy parent_id
          then update_first p
                 (fun f => Formula.set_children (Formula.children f ++ [new_id]) f) fs
          else fs
      | None => fs
      end in
    ((true, MSG_ADDED (strip name)),
     _save_data (set_last_addition_date (Some today)
                   (set_formulas (fs1 ++ [new_formula]) m))).

(** ** [remove_formula] *)

(** The nested function [get_descendants]: the node id followed by the
    descendants of every node naming it as parent, in list order.  [fuel]
    bounds the recursion depth; [None] is the interpreter giving up
    ([RecursionError]), which is what happens on a cycle of parent
    references. *)
Fixpoint get_descendants (fuel : nat) (fs : list Formula) (node_id : Z)
  : option (list Z) :=
  match fuel with
  | O => None
  | S fuel' =>
      subs ← mapM (fun f => get_descendants fuel' fs (Formula.id f))
                  (get_children_formulas fs node_id);
      Some (node_id :: concat subs)
  end.

(** [formula["children"] = [c for c in formula["children"] if c not in
    to_delete]]. *)
Definition strip_children (to_delete : list Z) (f : Formula) : Formula :=
  Formula.set_children
    (filter (fun c => c ∉ to_delete) (Formula.children f)) f.

(** The result is [None] when [get_descendants] does not return; nothing has
    been mutated at that point. *)
Definition remove_formula (fuel : nat) (formula_id : Z) (confirm : bool)
    (m : Manager Formula) : option (bool * list string) * Manager Formula :=
  let fs := _formulas m in
  match get_descendants fuel fs formula_id with
  | None => (None, m)
  | Some to_delete =>
      let deleted_names :=
        Formula.name <$> filter (fun f => Formula.id f ∈ to_delete) fs in
      match deleted_names with
      | [] => (Some (false, []), m)
      | _ :: _ =>
          if negb confirm then (Some (true, deleted_names), m)
          else
            let fs1 := filter (fun f => Formula.id f ∉ to_delete) fs in
            let fs2 := strip_children to_delete <$> fs1 in
            (Some (true, deleted_names), _save_data (set_formulas fs2 m))
      end
  end.

(** ** Levels *)

(** One round of the loop of [get_nodes_at_level]: the children of every
    node of the frontier ([None] entries contribute nothing). *)
Definition next_level_nodes (fs : list Formula) (cur : list (option Formula))
  : list (option Formula) :=
  cur ≫= (fun node =>
            match node with
            | Some f => Some <$> get_children_formulas fs (Formula.id f)
            | None => []
            end).

(** [for _ in range(level)], with the early [return []] on an empty
    frontier. *)
Fixpoint level_loop (fs : list Formula) (n : nat) (cur : list (option Formula))
  : list (option Formula) :=
  match n with
  | O => cur
  | S n' =>
      match cur with
      | [] => []
      | _ :: _ => level_loop fs n' (next_level_nodes fs cur)
      end
  end.

Definition get_nodes_at_level (fs : list Formula) (root_id : Z) (level : Z)
  : list Formula :=
  if bool_decide (level < 0) then []
  else omap (fun node => node)
            (level_loop fs (Z.to_nat level) [get_formula_by_id fs root_id]).

(** [execute_next_level]. *)
Definition execute_next_level (root_id : Z) (m : Manager Formula)
  : bool * Manager Formula :=
  match active_tree_progress m !! root_id with
  | None => (false, m)
  | Some current_level =>
      match get_nodes_at_level (_formulas m) root_id (current_level + 1) with
      | [] =>
          (true,
           _save_data (set_active_tree_progress
                         (<[root_id := 0]> (active_tree_progress m)) m))
      | _ :: _ =>
          (false,
           _save_data (set_active_tree_progress
                         (<[root_id := current_level + 1]> (active_tree_progress m)) m))
      end
  end.

(** ** Status, name, clear, staleness *)

(** [change_formula_status]. *)
Definition change_formula_status (today : date) (formula_id : Z)
    (m : Manager Formula) : bool * Manager Formula :=
  match get_formula_by_id (_formulas m) formula_id with
  | Some formula =>
      let is_root := bool_decide (Formula.parent formula = None) in
      if bool_decide (Formula.status formula = ACTIVE) then
        let fs' := update_first formula_id (Formula.set_status INACTIVE) (_formulas m) in
        let progress' :=
          if is_root && bool_decide (is_Some (active_tree_progress m !! formula_id))
          then delete formula_id (active_tree_progress m)
          else active_tree_progress m in
        (true, _save_data (set_active_tree_progress progress' (set_formulas fs' m)))
      else
        let fs' :=
          update_first formula_id
            (fun f => Formula.set_last_active_time (Some today)
                        (Formula.set_status ACTIVE f)) (_formulas m) in
        let progress' :=
          if is_root then <[formula_id := 0]> (active_tree_progress m)
          else active_tree_progress m in
        (true, _save_data (set_active_tree_progress progress' (set_formulas fs' m)))
  | None => (false, m)
  end.

(** [update_formula_name]. *)
Definition update_formula_name (formula_id : Z) (new_name : string)
    (m : Manager Formula) : bool * Manager Formula :=
  if bool_decide (strip new_name = EmptyString) then (false, m)
  else
    match get_formula_by_id (_formulas m) formula_id with
    | Some _ =>
        (true,
         _save_data (set_formulas
                       (update_first formula_id (Formula.set_name (strip new_name))
                          (_formulas m)) m))
    | None => (false, m)
    end.

(** [clear_all_formulas]. *)
Definition clear_all_formulas {A : Type} (m : Manager A) : bool * Manager A :=
  (true, _save_data (set_formulas [] m)).

(** The test of the loop of [check_inactive_formulas]: the status is the
    active label, [last_active_time] is set, and it is before the bound. *)
Definition is_stale (one_week_ago : date) (f : Formula) : bool :=
  bool_decide (Formula.status f = ACTIVE)
  && match Formula.last_active_time f with
     | Some last_active => bool_decide (last_active < one_week_ago)
     | None => false
     end.

(** [check_inactive_formulas]. *)
Definition check_inactive_formulas (today : date) (m : Manager Formula)
  : list string :=
  let one_week_ago := minus_days today 7 in
  Formula.name <$> filter (fun f => is_stale one_week_ago f) (_formulas m).

(** ** Import *)

(** The values [json.loads] produces. *)
#[local] Unset Elimination Schemes.
Inductive json : Type :=
| JNull
| JBool (b : bool)
| JInt (z : Z)
| JFloat (f : PrimFloat.float)
| JString (s : string)
| JList (l : list json)
| JDict (l : list (string * json)).
#[local] Set Elimination Schemes.

Section JsonImport.
(** [json.loads] of the standard library: [None] is [JSONDecodeError]. *)
Variable json_loads : string -> option json.

(** [import_formulas]: the parsed list becomes the node list as it is. *)
Definition import_formulas (json_data : string) (m : Manager json)
  : bool * Manager json :=
  match json_loads json_data with
  | Some (JList formulas) => (true, _save_data (set_formulas formulas m))
  | Some _ => (false, m)
  | None => (false, m)
  end.
End JsonImport.

(** The state after [n] successive calls of [execute_next_level root_id]. *)
Fixpoint advance_times (n : nat) (root_id : Z) (m : Manager Formula)
  : Manager Formula :=
  match n with
  | O => m
  | S n' => snd (execute_next_level root_id (advance_times n' root_id m))
  end.

(** ** Subtrees *)

(** [child_of fs c p]: some node of the list has id [c] and names [p] as
    its parent. *)
Definition child_of (fs : list Formula) (c p : Z) : Prop :=
  exists f, f ∈ fs /\ Formula.id f = c /\ Formula.parent f = Some p.

(** [in_subtree fs r x]: [x] is [r] itself or a transitive descendant of
    [r] along the parent references of the list. *)
Inductive in_subtree (fs : list Formula) : Z -> Z -> Prop :=
| in_subtree_self (r : Z) : in_subtree fs r r
| in_subtree_child (r : Z) (f : Formula) (x : Z) :
    f ∈ fs -> Formula.parent f = Some r ->
    in_subtree fs (Formula.id f) x -> in_subtree fs r x.

(** [at_depth fs r n x]: [x] is reached from [r] by [n] parent references
    of the list, read from child to parent: [r] itself at depth 0, and at
    depth [n + 1] the ids of the nodes that name an id of depth [n] as their
    parent. *)
Inductive at_depth (fs : list Formula) (r : Z) : nat -> Z -> Prop :=
| at_depth_root : at_depth fs r 0 r
| at_depth_child (n : nat) (p c : Z) :
    at_depth fs r n p -> child_of fs c p -> at_depth fs r (S n) c.

(** A list in which a node names itself as parent. *)
Definition cyclic_formulas : list Formula :=
  [ Formula.mk 1 "a" (Some 1) [1] INACTIVE None ].

(** Every parent id is smaller than the id of the node that names it: the
    shape of a forest whose nodes were all created by [add_formula]. *)
Definition parent_before_child (fs : list Formula) : bool :=
  forallb (fun f => match Formula.parent f with
                    | Some p => bool_decide (p < Formula.id f)
                    | None => true
                    end) fs.

(** ** Calls of the engine as data *)

(** One call of a method of the engine that reads node fields.  [Remove]
    carries the recursion budget of its call. *)
Inductive command : Type :=
| Add (name : string) (parent_id : option Z)
| Remove (fuel : nat) (formula_id : Z) (confirm : bool)
| Rename (formula_id : Z) (new_name : string)
| Toggle (formula_id : Z)
| Advance (root_id : Z)
| Clear.

(** What the call returned ([ORemove None]: the call did not return). *)
Inductive outcome : Type :=
| OAdd (ok : bool) (msg : string)
| ORemove (r : option (bool * list string))
| OBool (b : bool).

Definition run_command (today : date) (c : command) (m : Manager Formula)
  : outcome * Manager Formula :=
  match c with
  | Add name parent_id =>
      let r := add_formula today name parent_id m in
      (OAdd (fst (fst r)) (snd (fst r)), snd r)
  | Remove fuel formula_id confirm =>
      let r := remove_formula fuel formula_id confirm m in
      (ORemove (fst r), snd r)
  | Rename formula_id new_name =>
      let r := update_formula_name formula_id new_name m in
      (OBool (fst r), snd r)
  | Toggle formula_id =>
      let r := change_formula_status today formula_id m in
      (OBool (fst r), snd r)
  | Advance root_id =>
      let r := execute_next_level root_id m in
      (OBool (fst r), snd r)
  | Clear =>
      let r := clear_all_formulas m in
      (OBool (fst r), snd r)
  end.

(** A sequence of calls, each on its own day. *)
Definition run_commands (cs : list (date * command)) (m : Manager Formula)
  : Manager Formula :=
  fold_left (fun m dc => snd (run_command (fst dc) (snd dc) m)) cs m.

(** ** The children index *)

(** The redundant index: the children list of every node holds exactly the
    ids of the nodes that name it as parent. *)
Definition children_index (fs : list Formula) : Prop :=
  forall n, n ∈ fs ->
    forall x, x ∈ Formula.children n <->
              exists c, c ∈ fs /\ Formula.id c = x
                        /\ Formula.parent c = Some (Formula.id n).

(** Every parent reference names a node of the list. *)
Definition parents_resolve (fs : list Formula) : Prop :=
  forall f p, f ∈ fs -> Formula.parent f = Some p ->
              exists q, q ∈ fs /\ Formula.id q = p.

(** A forest: unique ids, parent references that resolve, and the index. *)
Definition well_formed (fs : list Formula) : Prop :=
  NoDup (Formula.id <$> fs) /\ parents_resolve fs /\ children_index fs.

(** The calls that edit the tree: [remove_formula], and [add_formula] with a
    parent that is absent or not 0. *)
Definition is_tree_edit (c : command) : bool :=
  match c with
  | Add _ None => true
  | Add _ (Some p) => negb (bool_decide (p = 0))
  | Remove _ _ _ => true
  | _ => false
  end.

(** [add_formula] and [remove_formula], with any arguments. *)
Definition is_add_or_remove (c : command) : bool :=
  match c with
  | Add _ _ => true
  | Remove _ _ _ => true
  | _ => false
  end.

(** Whether a call went through to its mutation, read off what it
    returned: [add_formula] answered ok, a confirmed [remove_formula] found
    something, rename, toggle and clear answered true, and
    [execute_next_level] was called on a key of the progress map (its boolean
    tells "cycle complete", not success). *)
Definition committed (c : command) (o : outcome) (m : Manager Formula) : bool :=
  match c, o with
  | Add _ _, OAdd ok _ => ok
  | Remove _ _ confirm, ORemove (Some (found, _)) => found && confirm
  | Rename _ _, OBool b => b
  | Toggle _, OBool b => b
  | Advance root_id, OBool _ =>
      bool_decide (is_Some (active_tree_progress m !! root_id))
  | Clear, OBool b => b
  | _, _ => false
  end.

(** The persistence rule as the specification words it: the callback runs
    once when the call changed the node list, the progress map or the date,
    and not at all when it changed none of them. *)
Definition persists_iff_changed (today : date) (c : command)
    (m : Manager Formula) : Prop :=
  let m' := snd (run_command today c m) in
  (engine_state m' <> engine_state m ->
   callback_calls m' = S (callback_calls m))
  /\ (engine_state m' = engine_state m ->
      callback_calls m' = callback_calls m).

(** ** Forests built by the engine *)

(** Every parent id is smaller than the id of the node that names it (the
    proposition that [parent_before_child] decides). *)
Definition parents_before (fs : list Formula) : Prop :=
  forall f p, f ∈ fs -> Formula.parent f = Some p -> p < Formula.id f.

(** What the seeded forest satisfies and every call of the engine keeps:
    unique ids, all at least 1, parents created before their children, and
    the children index. *)
Definition engine_built (fs : list Formula) : Prop :=
  NoDup (Formula.id <$> fs)
  /\ (forall f, f ∈ fs -> 1 <= Formula.id f)
  /\ parents_before fs
  /\ children_index fs.

(** A node as the engine writes it: a name that is not empty, and a status
    that is the inactive label, or the active label with an activation
    date. *)
Definition node_sane (f : Formula) : Prop :=
  Formula.name f <> EmptyString
  /\ (Formula.status f = INACTIVE
      \/ (Formula.status f = ACTIVE /\ is_Some (Formula.last_active_time f))).

(** The progress map as the data model has it: every key finds a root node,
    and every level is at least 0. *)
Definition tracked_roots (m : Manager Formula) : Prop :=
  forall k lvl, active_tree_progress m !! k = Some lvl ->
    0 <= lvl
    /\ exists f, get_formula_by_id (_formulas m) k = Some f
                 /\ Formula.parent f = None.

(** The children list of a node read as a sequence: the ids of the nodes
    that [get_children_formulas] returns for it, in the same order. *)
Definition children_ordered (fs : list Formula) : Prop :=
  forall n, n ∈ fs ->
    Formula.children n
    = Formula.id <$> get_children_formulas fs (Formula.id n).

(** The calls that delete no node: all but [clear_all_formulas] and a
    confirmed [remove_formula]. *)
Definition keeps_nodes (c : command) : bool :=
  match c with
  | Remove _ _ confirm => negb confirm
  | Clear => false
  | _ => true
  end.

(** ** Snapshots: [get_formulas_data] and [set_formulas_data] *)

(** A key of the dictionary under "active_tree_progress": an [int] in a
    snapshot taken in memory, a [str] once the snapshot went through JSON. *)
Inductive progress_key : Type :=
| KInt (z : Z)
| KStr (s : string).

(** The dictionary handed to [set_formulas_data].  A field is [None] when
    its key is missing; for "last_addition_date" also when the value is
    [None] or the empty string (the cases [if last_date_str:] rejects).  The
    progress dictionary is its list of items in insertion order. *)
Record snapshot : Type := mkSnapshot {
  snap_formulas : option (list Formula);
  snap_last_addition_date : option date;
  snap_active_tree_progress : option (list (progress_key * Z))
}.

(** [{int(k): v for k, v in items}] on items whose keys are already
    integers: a later item overwrites an earlier one with the same key. *)
Definition dict_of_items (items : list (Z * Z)) : gmap Z Z :=
  list_to_map (reverse items).

(** [get_formulas_data]. *)
Definition get_formulas_data (m : Manager Formula) : snapshot :=
  mkSnapshot (Some (_formulas m)) (last_addition_date m)
    (Some ((fun kv => (KInt (fst kv), snd kv))
             <$> map_to_list (active_tree_progress m))).

(** What [json.dump] followed by [json.load] does to the keys of the
    progress dictionary: an integer key comes back as its decimal string. *)
Definition json_key (kv : progress_key * Z) : progress_key * Z :=
  (match fst kv with
   | KInt z => KStr (pretty z)
   | KStr s => KStr s
   end, snd kv).

Definition through_json (data : snapshot) : snapshot :=
  mkSnapshot (snap_formulas data) (snap_last_addition_date data)
    (match snap_active_tree_progress data with
     | Some items => Some (json_key <$> items)
     | None => None
     end).

Section Snapshots.
(** The builtin [int] on a string: [None] is [ValueError]. *)
Variable int_of_str : string -> option Z.

(** [int(k)]. *)
Definition py_int (k : progress_key) : option Z :=
  match k with
  | KInt z => Some z
  | KStr s => int_of_str s
  end.

(** [set_formulas_data].  The boolean is false when [int(k)] raises; the
    node list has been assigned by then, the progress map and the date have
    not. *)
Definition set_formulas_data (data : snapshot) (m : Manager Formula)
  : bool * Manager Formula :=
  let m1 := set_formulas (default [] (snap_formulas data)) m in
  let raw_progress := default [] (snap_active_tree_progress data) in
  match mapM (fun kv => z ← py_int (fst kv); Some (z, snd kv)) raw_progress with
  | None => (false, m1)
  | Some items =>
      (true,
       set_last_addition_date (snap_last_addition_date data)
         (set_active_tree_progress (dict_of_items items) m1))
  end.
End Snapshots.

(** ** Text output *)

(** [sep.join(l)]. *)
Fixpoint join (sep : string) (l : list string) : string :=
  match l with
  | [] => EmptyString
  | x :: l' =>
      match l' with
      | [] => x
      | _ :: _ => String.append x (String.append sep (join sep l'))
      end
  end.

(** The line feed. *)
Definition LF : string := String (ascii_of_nat 10) EmptyString.

(** The order of [sorted] on the items of the progress dictionary: pairs
    of integers, compared by key and then by level. *)
Definition items_le (a b : Z * Z) : Prop :=
  fst a < fst b \/ (fst a = fst b /\ snd a <= snd b).

#[global] Instance items_le_dec (a b : Z * Z) : Decision (items_le a b).
Proof. unfold items_le. apply _. Defined.

Definition MSG_NO_ACTIVE_TREE : string := "当前没有活跃的定式树。".
Definition MSG_NO_TASK_AT_LEVEL : string := "  - (当前层级无任务)".
Definition MSG_STATUS_BAR_EMPTY : string := "当前无活跃定式。".

(** The lines one tracked tree contributes to
    [get_active_formulas_display]: nothing when the root is not found, else
    a header, one line per node of the current level (or the placeholder),
    and an empty line. *)
Definition display_parts (fs : list Formula) (item : Z * Z) : list string :=
  let root_id := fst item in
  let current_level := snd item in
  match get_formula_by_id fs root_id with
  | None => []
  | Some root_node =>
      String.append "🌳 "
        (String.append (Formula.name root_node)
           (String.append " (当前层级: "
              (String.append (pretty current_level) "):")))
      :: match get_nodes_at_level fs root_id current_level with
         | [] => [MSG_NO_TASK_AT_LEVEL]
         | nodes_at_level =>
             (fun node => String.append "  - " (Formula.name node))
               <$> nodes_at_level
         end
      ++ [EmptyString]
  end.

(** [get_active_formulas_display]. *)
Definition get_active_formulas_display (m : Manager Formula) : string :=
  if bool_decide (active_tree_progress m = ∅) then MSG_NO_ACTIVE_TREE
  else
    let sorted_active_trees :=
      merge_sort items_le (map_to_list (active_tree_progress m)) in
    join LF (sorted_active_trees ≫= display_parts (_formulas m)).

(** The text [update_formula_status_bar] (ui_main.py) puts on the status
    bar. *)
Definition update_formula_status_bar (m : Manager Formula) : string :=
  let display_text := get_active_formulas_display m in
  if bool_decide (display_text = EmptyString) then MSG_STATUS_BAR_EMPTY
  else display_text.

(** ** The delete button of the formula window (ui_main.py) *)

(** A message box shown to the user. *)
Inductive dialog : Type :=
| ShowWarning (message : string)
| ShowError (message : string)
| ShowInfo (message : string).

(** [FormulaManagerGUI.remove_formula_action]: [selected_item] is the id of
    the selected row of the tree view, if any; [answer] is what the user
    answers to the confirmation question, when it is asked.  The result is
    the message boxes shown ([None] when [remove_formula] does not return)
    and the manager afterwards. *)
Definition remove_formula_action (fuel : nat) (selected_item : option Z)
    (answer : bool) (m : Manager Formula)
  : option (list dialog) * Manager Formula :=
  match selected_item with
  | None => (Some [ShowWarning "请在树中选择要删除的定式"], m)
  | Some remove_id =>
      match get_formula_by_id (_formulas m) remove_id with
      | None =>
          (Some [ShowError
                   (String.append "未找到ID为 "
                      (String.append (pretty remove_id) " 的定式"))], m)
      | Some formula =>
          if answer then
            let r := remove_formula fuel remove_id false m in
            match fst r with
            | None => (None, snd r)
            | Some (success, deleted_names) =>
                if success then
                  (Some [ShowInfo
                           (String.append "定式 '"
                              (String.append (join ", " deleted_names)
                                 "' 已被删除"))], snd r)
                else (Some [ShowError "删除失败"], snd r)
            end
          else (Some [], m)
      end
  end.

(** ** The add button of the formula window (ui_main.py) *)

Definition MSG_ENTER_NAME : string := "请输入定式名称".

(** [FormulaManagerGUI.add_formula_action]: [entry] is the text of the name
    field, [selected_item] the id of the selected row of the tree view, if
    any (it becomes the parent).  The result is the message box shown and
    the manager afterwards. *)
Definition add_formula_action (today : date) (entry : string)
    (selected_item : option Z) (m : Manager Formula)
  : list dialog * Manager Formula :=
  let name := strip entry in
  if bool_decide (name = EmptyString) then ([ShowWarning MSG_ENTER_NAME], m)
  else
    let parent_id := selected_item in
    let r := add_formula today name parent_id m in
    if fst (fst r) then ([ShowInfo (snd (fst r))], snd r)
    else ([ShowError (snd (fst r))], snd r).

(** ** The singleton accessor (formula_singleton.py) *)

Section Singleton.
(** The callbacks a caller can pass. *)
Variable callback : Type.

(** The module-level state: the instance, once created, with the callback
    it holds. *)
Record instance : Type := mkInstance {
  instance_callback : option callback;
  instance_manager : Manager Formula
}.

(** [get_manager(data_callback)]: the instance it returns and the new
    value of the global [_instance]. *)
Definition get_manager (today : date) (data_callback : option callback)
    (_instance : option instance) : instance * option instance :=
  match _instance with
  | None =>
      let i := mkInstance data_callback
                 (init today (bool_decide (is_Some data_callback))) in
      (i, Some i)
  | Some i =>
      match data_callback, instance_callback i with
      | Some cb, None =>
          let m := instance_manager i in
          let i' := mkInstance (Some cb)
                      (mkManager true (callback_calls m) (_formulas m)
                         (last_addition_date m) (active_tree_progress m)) in
          (i', Some i')
      | _, _ => (i, Some i)
      end
  end.

(** The global after a sequence of calls, each on its own day. *)
Definition get_manager_calls (calls : list (date * option callback))
    (_instance : option instance) : option instance :=
  fold_left (fun g c => snd (get_manager (fst c) (snd c) g)) calls _instance.
End Singleton.

Arguments mkInstance {callback} _ _.
Arguments instance_callback {callback} _.
Arguments instance_manager {callback} _.
Arguments get_manager {callback} _ _ _.
Arguments get_manager_calls {callback} _ _.

(** ** The tree as text: [show_formula_tree] and [print_formula_tree] *)

(** [s * n] on strings. *)
Fixpoint string_times (s : string) (n : nat) : string :=
  match n with
  | O => EmptyString
  | S n' => String.append s (string_times s n')
  end.

(** The line of one node: indentation, folder sign, name and id. *)
Definition node_line (level : Z) (f : Formula) : string :=
  String.append (string_times "  " (Z.to_nat level))
    (String.append "📁 "
       (String.append (Formula.name f)
          (String.append " (ID: " (String.append (pretty (Formula.id f)) ")")))).

(** [show_formula_tree]: [None] when the recursion does not return. *)
Fixpoint show_formula_tree (fuel : nat) (fs : list Formula)
    (parent_id : option Z) (level : Z) : option string :=
  match fuel with
  | O => None
  | S fuel' =>
      result ← mapM
        (fun formula =>
           child_result ← show_formula_tree fuel' fs
                            (Some (Formula.id formula)) (level + 1);
           Some (node_line level formula
                 :: if bool_decide (child_result = EmptyString) then []
                    else [child_result]))
        (filter (fun f => Formula.parent f = parent_id) fs);
      Some (join LF (concat result))
  end.

(** [print_formula_tree]: the lines printed, and whether the call returned
    (a call that does not return has still printed the lines before). *)
Fixpoint print_formula_tree (fuel : nat) (fs : list Formula)
    (parent_id : option Z) (level : Z) : list string * bool :=
  match fuel with
  | O => ([], false)
  | S fuel' =>
      (fix loop (formulas : list Formula) : list string * bool :=
         match formulas with
         | [] => ([], true)
         | formula :: formulas' =>
             let sub := print_formula_tree fuel' fs
                          (Some (Formula.id formula)) (level + 1) in
             if snd sub then
               let rest := loop formulas' in
               (node_line level formula :: fst sub ++ fst rest, snd rest)
             else (node_line level formula :: fst sub, false)
         end)
        (filter (fun f => Formula.parent f = parent_id) fs)
  end.

(** ** The task chain (main.py, class [ChainDelayProtocol])

    The methods are embedded as atomic steps on the attributes they read and
    write; what they print is left out.  [datetime.now()] is an argument (an
    instant, in microseconds since [datetime.min]), and so is the text
    [strftime] makes of it.  The two timer threads are represented by the
    step each takes when its loop ends; interleavings inside a method are not
    modelled.  [save_count] counts the calls of [save_data], which is taken
    to return.  The data is typed as [load_data] leaves it for a file written
    by [save_data]; the two entries of "settings" are integers when they are
    present, and [None] here when the key is missing. *)

Record task_node : Type := mkTaskNode {
  task_id : Z;
  task_name : string;
  task_timestamp : string
}.

Record violation : Type := mkViolation {
  violation_id : Z;
  violation_description : string;
  violation_timestamp : string;
  violation_permanent : bool
}.

Record Protocol : Type := mkProtocol {
  task_chain : list task_node;
  allowed_violations : list violation;
  reservation_minutes : option Z;
  task_minutes : option Z;
  longest_chain : Z;
  task_history : list string;
  reservation_active : bool;
  reservation_end_time : option Z;
  task_active : bool;
  task_end_time : option Z;
  save_count : nat
}.

(** The exceptions the methods can raise. *)
Inductive exception : Type :=
| KeyError
| OverflowError
| TypeError
| IndexError.

(** What a method did: returned a value ([None] is Python's [None]) or
    raised. *)
Inductive returned : Type :=
| Returned (value : option bool)
| Raised (e : exception).

Definition DEFAULT_TASK_NAME : string := "未命名任务".

(** [datetime.max], 9999-12-31 23:59:59.999999: day 3652059 of the calendar
    ends. *)
Definition DATETIME_MAX : Z := 3652059 * 86400 * 1000000 - 1.

(** [now + timedelta(minutes=m)] for an integer [m]: [None] is the
    [OverflowError] Python raises when the sum is not a [datetime] (beyond
    [datetime.min] or [datetime.max]; a [timedelta] that cannot be built is
    out of that range too). *)
Definition minutes_after (now m : Z) : option Z :=
  let t := now + 60 * 1000000 * m in
  if bool_decide (0 <= t <= DATETIME_MAX) then Some t else None.

(** [start_reservation]: the look-up in "settings" raises [KeyError] before
    anything is written; the addition raises [OverflowError] after
    [reservation_active] has been set. *)
Definition start_reservation (now : Z) (minutes : option Z) (p : Protocol)
  : returned * Protocol :=
  if reservation_active p || task_active p then (Returned (Some false), p)
  else
    match (match minutes with
           | Some m => Some m
           | None => reservation_minutes p
           end) with
    | None => (Raised KeyError, p)
    | Some reservation_minutes' =>
        match minutes_after now reservation_minutes' with
        | None =>
            (Raised OverflowError,
             mkProtocol (task_chain p) (allowed_violations p)
               (reservation_minutes p) (task_minutes p) (longest_chain p)
               (task_history p)
               true (reservation_end_time p)
               (task_active p) (task_end_time p) (save_count p))
        | Some end_time =>
            (Returned (Some true),
             mkProtocol (task_chain p) (allowed_violations p)
               (reservation_minutes p) (task_minutes p) (longest_chain p)
               (task_history p)
               true (Some end_time)
               (task_active p) (task_end_time p) (save_count p))
        end
    end.

(** The end of [_reservation_timer]: the reservation lapses. *)
Definition reservation_timer_fires (p : Protocol) : returned * Protocol :=
  if reservation_active p then
    (Returned None,
     mkProtocol (task_chain p) (allowed_violations p) (reservation_minutes p)
       (task_minutes p) (longest_chain p) (task_history p)
       false (reservation_end_time p)
       (task_active p) (task_end_time p) (save_count p))
  else (Returned None, p).

(** [start_task]: the reservation is closed first; the look-up in
    "settings" raises [KeyError] before [task_active] is set; the addition
    raises [OverflowError] after [task_active] has been set and before the
    end time is stored and the node appended. *)
Definition start_task (now : Z) (stamp : string) (minutes : option Z)
    (name : option string) (p : Protocol) : returned * Protocol :=
  if task_active p then (Returned None, p)
  else
    match (match minutes with
           | Some m => Some m
           | None => task_minutes p
           end) with
    | None =>
        (Raised KeyError,
         mkProtocol (task_chain p) (allowed_violations p)
           (reservation_minutes p) (task_minutes p) (longest_chain p)
           (task_history p)
           false (reservation_end_time p)
           (task_active p) (task_end_time p) (save_count p))
    | Some task_minutes' =>
        let name' :=
          match name with
          | Some n =>
              if bool_decide (n = EmptyString) then DEFAULT_TASK_NAME else n
          | None => DEFAULT_TASK_NAME
          end in
        match minutes_after now task_minutes' with
        | None =>
            (Raised OverflowError,
             mkProtocol (task_chain p) (allowed_violations p)
               (reservation_minutes p) (task_minutes p) (longest_chain p)
               (task_history p)
               false (reservation_end_time p)
               true (task_end_time p) (save_count p))
        | Some end_time =>
            let new_node_id := Z.of_nat (length (task_chain p)) + 1 in
            (Returned (Some true),
             mkProtocol (task_chain p ++ [mkTaskNode new_node_id name' stamp])
               (allowed_violations p) (reservation_minutes p) (task_minutes p)
               (longest_chain p) (task_history p)
               false (reservation_end_time p)
               true (Some end_time)
               (S (save_count p)))
        end
    end.

(** [complete_task]: the subtraction [self.task_end_time - datetime.now()]
    raises [TypeError] when no end time is set; [self.data['task_chain'][-1]]
    raises [IndexError] on an empty chain, after [task_active] has been
    cleared and before anything is saved. *)
Definition complete_task (now : Z) (p : Protocol) : returned * Protocol :=
  if negb (task_active p) then (Returned None, p)
  else if bool_decide (task_end_time p = None) then (Raised TypeError, p)
  else
    let current_chain_length := Z.of_nat (length (task_chain p)) in
    match last (task_chain p) with
    | None =>
        (Raised IndexError,
         mkProtocol (task_chain p) (allowed_violations p)
           (reservation_minutes p) (task_minutes p) (longest_chain p)
           (task_history p) (reservation_active p) (reservation_end_time p)
           false (task_end_time p) (save_count p))
    | Some last_task =>
        (Returned (Some true),
         mkProtocol (task_chain p) (allowed_violations p)
           (reservation_minutes p) (task_minutes p)
           (if bool_decide (longest_chain p < current_chain_length)
            then current_chain_length else longest_chain p)
           (task_history p) (reservation_active p) (reservation_end_time p)
           false (task_end_time p) (S (save_count p)))
    end.

(** The end of [_task_timer]. *)
Definition task_timer_fires (now : Z) (p : Protocol) : returned * Protocol :=
  if task_active p then complete_task now p else (Returned None, p).

(** [stop_task]. *)
Definition stop_task (p : Protocol) : returned * Protocol :=
  if negb (task_active p) then (Returned None, p)
  else
    (Returned None,
     mkProtocol (task_chain p) (allowed_violations p) (reservation_minutes p)
       (task_minutes p) (longest_chain p) (task_history p)
       (reservation_active p) (reservation_end_time p)
       false (task_end_time p) (save_count p)).

(** [f"#{n['id']} [{n['name']}]"]. *)
Definition chain_link (n : task_node) : string :=
  String.append "#"
    (String.append (pretty (task_id n))
       (String.append " [" (String.append (task_name n) "]"))).

(** [l[-20:]]. *)
Definition last_twenty {A : Type} (l : list A) : list A :=
  drop (length l - 20) l.

(** [reset_chain]. *)
Definition reset_chain (description : string) (p : Protocol)
  : returned * Protocol :=
  let task_history' :=
    match task_chain p with
    | [] => task_history p
    | _ :: _ =>
        last_twenty
          (task_history p ++ [join " -> " (chain_link <$> task_chain p)])
    end in
  (Returned None,
   mkProtocol [] (allowed_violations p) (reservation_minutes p)
     (task_minutes p) (longest_chain p) task_history'
     false (reservation_end_time p) false (task_end_time p)
     (S (save_count p))).

(** [allow_violation]. *)
Definition allow_violation (stamp : string) (description : string)
    (p : Protocol) : returned * Protocol :=
  let new_id :=
    max_default (violation_id <$> allowed_violations p) 0 + 1 in
  (Returned None,
   mkProtocol (task_chain p)
     (allowed_violations p ++ [mkViolation new_id description stamp true])
     (reservation_minutes p) (task_minutes p) (longest_chain p)
     (task_history p) (reservation_active p) (reservation_end_time p)
     (task_active p) (task_end_time p) (S (save_count p))).

(** One step of the protocol. *)
Inductive protocol_step : Type :=
| StartReservation (now : Z) (minutes : option Z)
| ReservationTimerFires
| StartTask (now : Z) (stamp : string) (minutes : option Z) (name : option string)
| CompleteTask (now : Z)
| TaskTimerFires (now : Z)
| StopTask
| ResetChain (description : string)
| AllowViolation (stamp : string) (description : string).

Definition run_step (e : protocol_step) (p : Protocol) : returned * Protocol :=
  match e with
  | StartReservation now minutes => start_reservation now minutes p
  | ReservationTimerFires => reservation_timer_fires p
  | StartTask now stamp minutes name => start_task now stamp minutes name p
  | CompleteTask now => complete_task now p
  | TaskTimerFires now => task_timer_fires now p
  | StopTask => stop_task p
  | ResetChain description => reset_chain description p
  | AllowViolation stamp description => allow_violation stamp description p
  end.

Definition run_steps (es : list protocol_step) (p : Protocol) : Protocol :=
  fold_left (fun p e => snd (run_step e p)) es p.

(** The call returned. *)
Definition has_returned (r : returned) : bool :=
  match r with
  | Returned _ => true
  | Raised _ => false
  end.

(** Every step of the sequence returned. *)
Fixpoint all_returned (es : list protocol_step) (p : Protocol) : bool :=
  match es with
  | [] => true
  | e :: es' =>
      has_returned (fst (run_step e p)) && all_returned es' (snd (run_step e p))
  end.

(** The two methods that start a timer. *)
Definition is_start (e : protocol_step) : bool :=
  match e with
  | StartReservation _ _ => true
  | StartTask _ _ _ _ => true
  | _ => false
  end.

(** The protocol right after [__init__]: whatever the data file held, and
    no reservation or task running. *)
Definition protocol_loaded (p : Protocol) : Prop :=
  reservation_active p = false /\ task_active p = false.

(** What holds of the protocol whenever a task is running. *)
Definition task_running_ok (p : Protocol) : Prop :=
  task_active p = true ->
  task_chain p <> [] /\ is_Some (task_end_time p) /\ reservation_active p = false.

(** The nodes of the chain are numbered 1, 2, 3, ... in order. *)
Definition chain_numbered (chain : list task_node) : Prop :=
  forall k n, chain !! k = Some n -> task_id n = Z.of_nat k + 1.

(** ** What is on disk (main.py, [ChainDelayProtocol.save_data])

    The protocol injects [save_data] as the callback of the engine;
    [save_data] stores [get_formulas_data()] under "formulas" and writes the
    data file as JSON.  [persisted_formulas] is the "formulas" entry of the
    file after one call of the engine: rewritten when the callback ran during
    the call, left alone otherwise. *)
Definition persisted_formulas (today : date) (c : command)
    (m : Manager Formula) (on_disk : snapshot) : snapshot :=
  let m' := snd (run_command today c m) in
  if bool_decide (callback_calls m' = callback_calls m) then on_disk
  else through_json (get_formulas_data m').

(** Loading [on_disk] (as [__init__] does at the next start) gives the
    engine state of [m]. *)
Definition restores (int_of_str : string -> option Z) (on_disk : snapshot)
    (m : Manager Formula) : Prop :=
  forall m0,
    fst (set_formulas_data int_of_str on_disk m0) = true
    /\ engine_state (snd (set_formulas_data int_of_str on_disk m0))
       = engine_state m.

(** ** The data file (main.py, [ChainDelayProtocol.load_data])

    [load_data] reads the file when it exists and completes what it read
    with the keys of [default_data].  The file is an argument: [None] when
    [os.path.exists] is false, [Some None] when [open] or [json.load] raises,
    [Some (Some data)] with the value [json.load] returned.  A dictionary is
    a list of items in insertion order. *)

Definition DEFAULT_DATA : list (string * json) :=
  [("task_chain", JList []);
   ("allowed_violations", JList []);
   ("formulas", JDict [("formulas", JList []); ("last_addition_date", JNull)]);
   ("settings", JDict [("reservation_minutes", JInt 15); ("task_minutes", JInt 30)]);
   ("longest_chain", JInt 0);
   ("task_history", JList [])].

(** [d.get(k)]. *)
Definition dict_get (d : list (string * json)) (k : string) : option json :=
  snd <$> List.find (fun kv => bool_decide (fst kv = k)) d.

(** [d[k] = v]: the value of an existing key is replaced in place, a new
    key goes to the end. *)
Fixpoint dict_set (d : list (string * json)) (k : string) (v : json)
  : list (string * json) :=
  match d with
  | [] => [(k, v)]
  | kv :: d' =>
      if bool_decide (fst kv = k) then (fst kv, v) :: d'
      else kv :: dict_set d' k v
  end.

(** [key in s] for two strings. *)
Fixpoint is_substring (key s : string) : bool :=
  String.prefix key s
  || match s with
     | EmptyString => false
     | String _ s' => is_substring key s'
     end.

(** [key in data] for a string [key]: a key of a dictionary, an element of
    a list, a substring of a string; on [None], a boolean or a number the
    test raises [TypeError] ([None] here). *)
Definition py_contains (data : json) (key : string) : option bool :=
  match data with
  | JDict d => Some (bool_decide (is_Some (dict_get d key)))
  | JList l =>
      Some (existsb (fun x => match x with
                              | JString s => bool_decide (s = key)
                              | _ => false
                              end) l)
  | JString s => Some (is_substring key s)
  | _ => None
  end.

(** [data[key] = value] for a string [key]: only a dictionary accepts it. *)
Definition py_setitem (data : json) (key : string) (value : json)
  : option json :=
  match data with
  | JDict d => Some (JDict (dict_set d key value))
  | _ => None
  end.

(** One round of [for key, value in default_data.items(): if key not in
    data: data[key] = value]; [None] once a round has raised. *)
Definition merge_step (acc : option json) (kv : string * json) : option json :=
  data ← acc;
  present ← py_contains data (fst kv);
  if (present : bool) then Some data else py_setitem data (fst kv) (snd kv).

Definition merge_defaults (defs : list (string * json)) (data : json)
  : option json :=
  fold_left merge_step defs (Some data).

(** [load_data]: every exception inside the [try] gives [default_data]. *)
Definition load_data (file : option (option json)) : json :=
  match file with
  | Some (Some data) =>
      match merge_defaults DEFAULT_DATA data with
      | Some merged => merged
      | None => JDict DEFAULT_DATA
      end
  | Some None => JDict DEFAULT_DATA
  | None => JDict DEFAULT_DATA
  end.

(** [key in data] evaluates to true. *)
Definition has_key (data : json) (key : string) : bool :=
  match py_contains data key with
  | Some true => true
  | _ => false
  end.

(** * Properties *)

(** ** Staleness check *)

Lemma is_stale_spec (today : date) (f : Formula) :
  is_stale (minus_days today 7) f = true <->
  Formula.status f = ACTIVE /\
  exists d, Formula.last_active_time f = Some d /\ today - d > 7.
Proof.
  unfold is_stale, minus_days.
  rewrite andb_true_iff, bool_decide_eq_true.
  destruct (Formula.last_active_time f) as [d|].
  - rewrite bool_decide_eq_true. split.
    + intros [Hs Hd]. split; [exact Hs|]. exists d. split; [reflexivity|lia].
    + intros [Hs (d' & Heq & Hd)]. injection Heq as <-. split; [exact Hs|lia].
  - split.
    + intros [_ Hf]. discriminate Hf.
    + intros [_ (d & Hd & _)]. discriminate Hd.
Qed.

(** C9. [check_inactive_formulas] returns a name if and only if some node of
    that name has the active status, a [last_active_time] that is set, and
    today minus that date is strictly more than 7 days; a node whose
    [last_active_time] is [None] contributes nothing to the result, whatever
    its status. *)
Theorem check_inactive_formulas_reports (today : date) (m : Manager Formula) :
  (forall name : string,
      name ∈ check_inactive_formulas today m <->
      exists f, f ∈ _formulas m /\ Formula.name f = name /\
                Formula.status f = ACTIVE /\
                exists d, Formula.last_active_time f = Some d /\ today - d > 7)
  /\ (forall fs1 f fs2,
        _formulas m = fs1 ++ f :: fs2 ->
        Formula.last_active_time f = None ->
        check_inactive_formulas today m =
        check_inactive_formulas today (set_formulas (fs1 ++ fs2) m)).
Proof.
  split.
  - intros name. unfold check_inactive_formulas. rewrite list_elem_of_fmap.
    split.
    + intros (f & -> & Hf). apply list_elem_of_filter in Hf as [Hst Hin].
      apply Is_true_true, is_stale_spec in Hst.
      exists f. tauto.
    + intros (f & Hin & Hn & Hrest). exists f. split; [by symmetry|].
      apply list_elem_of_filter. split; [|exact Hin].
      apply Is_true_true, is_stale_spec. exact Hrest.
  - intros fs1 f fs2 Hfs Hnone. unfold check_inactive_formulas. simpl.
    assert (Hf : is_stale (minus_days today 7) f = false).
    { unfold is_stale. rewrite Hnone. apply andb_false_r. }
    rewrite Hfs, !filter_app, filter_cons, Hf. reflexivity.
Qed.

(** ** Levels *)

Lemma next_level_nodes_nil (fs : list Formula) : next_level_nodes fs [] = [].
Proof. reflexivity. Qed.

(** The early return of the loop changes nothing: one more round of the
    loop is one more expansion of the frontier. *)
Lemma level_loop_succ (fs : list Formula) (n : nat) (cur : list (option Formula)) :
  level_loop fs (S n) cur = next_level_nodes fs (level_loop fs n cur).
Proof.
  revert cur. induction n as [|n IH]; intros cur.
  - simpl. destruct cur; reflexivity.
  - change (level_loop fs (S (S n)) cur)
      with (match cur with
            | [] => []
            | _ :: _ => level_loop fs (S n) (next_level_nodes fs cur)
            end).
    destruct cur as [|c cur]; [reflexivity|].
    rewrite IH. reflexivity.
Qed.

Lemma omap_Some_fmap {A : Type} (l : list A) :
  omap (fun node : option A => node) (Some <$> l) = l.
Proof. induction l as [|x l IH]; csimpl; [reflexivity|]. by f_equal. Qed.

Lemma omap_next_level_nodes (fs : list Formula) (cur : list (option Formula)) :
  omap (fun node => node) (next_level_nodes fs cur) =
  omap (fun node => node) cur ≫=
    (fun f => get_children_formulas fs (Formula.id f)).
Proof.
  unfold next_level_nodes.
  induction cur as [|[f|] cur IH]; csimpl; [reflexivity| |exact IH].
  rewrite omap_app, omap_Some_fmap, IH. reflexivity.
Qed.

Lemma get_nodes_at_level_succ (fs : list Formula) (root_id k : Z) :
  0 <= k ->
  get_nodes_at_level fs root_id (k + 1) =
  get_nodes_at_level fs root_id k ≫=
    (fun f => get_children_formulas fs (Formula.id f)).
Proof.
  intros Hk. unfold get_nodes_at_level.
  rewrite !bool_decide_eq_false_2 by lia.
  replace (Z.to_nat (k + 1)) with (S (Z.to_nat k)) by lia.
  rewrite level_loop_succ. apply omap_next_level_nodes.
Qed.

Lemma get_nodes_at_level_empty_above (fs : list Formula) (root_id d k : Z) :
  0 <= d -> get_nodes_at_level fs root_id d = [] -> d <= k ->
  get_nodes_at_level fs root_id k = [].
Proof.
  intros Hd Hempty Hk.
  replace k with (d + Z.of_nat (Z.to_nat (k - d))) by lia.
  induction (Z.to_nat (k - d)) as [|n IH].
  - by rewrite Z.add_0_r.
  - replace (d + Z.of_nat (S n)) with (d + Z.of_nat n + 1) by lia.
    rewrite get_nodes_at_level_succ by lia. by rewrite IH.
Qed.

(** The ids of a tier are the ids reached from the root by that many parent
    references. *)
Lemma get_nodes_at_level_ids (fs : list Formula) (root_id : Z) (node : Formula) :
  get_formula_by_id fs root_id = Some node ->
  forall (n : nat) (x : Z),
    (exists f, f ∈ get_nodes_at_level fs root_id (Z.of_nat n)
               /\ Formula.id f = x)
    <-> at_depth fs root_id n x.
Proof.
  intros Hroot.
  assert (Hid : Formula.id node = root_id).
  { unfold get_formula_by_id in Hroot. apply find_some in Hroot as [_ Hid].
    by apply bool_decide_eq_true in Hid. }
  assert (H0 : get_nodes_at_level fs root_id 0 = [node]).
  { unfold get_nodes_at_level. simpl. by rewrite Hroot. }
  induction n as [|n IH]; intros x.
  - change (Z.of_nat 0) with 0. rewrite H0. split.
    + intros (f & Hf & <-). apply list_elem_of_singleton in Hf as ->.
      rewrite Hid. constructor.
    + intros Hx. assert (x = root_id) as -> by (by inversion Hx).
      exists node.
      split; [by apply list_elem_of_singleton|exact Hid].
  - replace (Z.of_nat (S n)) with (Z.of_nat n + 1) by lia.
    rewrite get_nodes_at_level_succ by lia. split.
    + intros (f & Hf & <-).
      apply list_elem_of_bind in Hf as (g & Hf & Hg).
      apply list_elem_of_filter in Hf as [Hp Hf].
      apply (at_depth_child fs root_id n (Formula.id g)).
      * apply IH. by exists g.
      * by exists f.
    + intros Hx. inversion Hx as [|n' p c Hp (f & Hf & Hfid & Hfp)]; subst.
      apply IH in Hp as (g & Hg & Hgid).
      exists f. split; [|reflexivity].
      apply list_elem_of_bind. exists g. split; [|exact Hg].
      apply list_elem_of_filter. split; [|exact Hf]. by rewrite Hgid.
Qed.

(** C6. When a node with id [root_id] exists: level 0 is exactly that node;
    every negative level is empty; every level is the concatenation, over
    the nodes of the level before and in their order, of the nodes of the
    list whose parent field is the id of that node; a node is in level
    [k + 1] exactly when it is in the list and its parent field is an id
    reached from the root by [k] parent references; level [k] is not empty
    exactly when some id is reached by [k] parent references; so when no id
    is reached by [d + 1] parent references (the subtree has depth at most
    [d]), every level beyond [d] is empty, and once a tier is empty all the
    levels after it are. *)
Theorem get_nodes_at_level_tiers (fs : list Formula) (root_id : Z) (node : Formula) :
  get_formula_by_id fs root_id = Some node ->
  get_nodes_at_level fs root_id 0 = [node]
  /\ (forall k, k < 0 -> get_nodes_at_level fs root_id k = [])
  /\ (forall k, 0 <= k ->
        get_nodes_at_level fs root_id (k + 1) =
        get_nodes_at_level fs root_id k ≫=
          (fun f => filter (fun c => Formula.parent c = Some (Formula.id f)) fs))
  /\ (forall k c, 0 <= k ->
        c ∈ get_nodes_at_level fs root_id (k + 1) <->
        c ∈ fs /\ exists p, Formula.parent c = Some p
                            /\ at_depth fs root_id (Z.to_nat k) p)
  /\ (forall k, 0 <= k ->
        get_nodes_at_level fs root_id k <> [] <->
        exists x, at_depth fs root_id (Z.to_nat k) x)
  /\ (forall d k, 0 <= d ->
        (forall x, ~ at_depth fs root_id (S (Z.to_nat d)) x) ->
        d < k -> get_nodes_at_level fs root_id k = [])
  /\ (forall d k, 0 <= d -> get_nodes_at_level fs root_id (d + 1) = [] ->
        d < k -> get_nodes_at_level fs root_id k = []).
Proof.
  intros Hroot.
  pose proof (get_nodes_at_level_ids fs root_id node Hroot) as Hids.
  assert (Hne : forall k, 0 <= k ->
            get_nodes_at_level fs root_id k <> [] <->
            exists x, at_depth fs root_id (Z.to_nat k) x).
  { intros k Hk. split.
    - intros Hnil.
      destruct (get_nodes_at_level fs root_id k) as [|f l] eqn:E; [done|].
      exists (Formula.id f). apply Hids. exists f. split; [|reflexivity].
      rewrite Z2Nat.id by lia. rewrite E. by left.
    - intros (x & Hx). apply Hids in Hx as (f & Hf & _).
      rewrite Z2Nat.id in Hf by lia. intros E. rewrite E in Hf.
      by apply elem_of_nil in Hf. }
  split; [|split; [|split; [|split; [|split; [|split]]]]].
  - unfold get_nodes_at_level. simpl. by rewrite Hroot.
  - intros k Hk. unfold get_nodes_at_level.
    by rewrite bool_decide_eq_true_2.
  - intros k Hk. by apply get_nodes_at_level_succ.
  - intros k c Hk. rewrite get_nodes_at_level_succ by lia.
    rewrite list_elem_of_bind. split.
    + intros (g & Hc & Hg). apply list_elem_of_filter in Hc as [Hp Hc].
      split; [exact Hc|]. exists (Formula.id g). split; [exact Hp|].
      apply Hids. exists g. split; [|reflexivity]. by rewrite Z2Nat.id by lia.
    + intros (Hc & p & Hp & Hd). apply Hids in Hd as (g & Hg & Hgid).
      rewrite Z2Nat.id in Hg by lia. exists g. split; [|exact Hg].
      apply list_elem_of_filter. split; [|exact Hc]. by rewrite Hgid.
  - exact Hne.
  - intros d k Hd Hdepth Hk.
    apply (get_nodes_at_level_empty_above fs root_id (d + 1) k); [lia| |lia].
    destruct (get_nodes_at_level fs root_id (d + 1)) as [|f l] eqn:E; [done|].
    exfalso. assert (Hn : get_nodes_at_level fs root_id (d + 1) <> [])
      by (by rewrite E).
    apply Hne in Hn as (x & Hx); [|lia].
    replace (Z.to_nat (d + 1)) with (S (Z.to_nat d)) in Hx by lia.
    exact (Hdepth x Hx).
  - intros d k Hd Hempty Hk.
    apply (get_nodes_at_level_empty_above fs root_id (d + 1) k); [lia|done|lia].
Qed.

(** The seeded forest: the tiers of tree 1 are A / B, C / D, and nothing
    below; D is reached by two parent references and nothing by three. *)
Lemma get_nodes_at_level_tiers_witness :
  let fs := default_formulas 0 in
  let a := Formula.mk 1 "A定式" None [2; 3] ACTIVE (Some 0) in
  let b := Formula.mk 2 "B定式" (Some 1) [4] ACTIVE (Some 0) in
  let c := Formula.mk 3 "C定式" (Some 1) [] INACTIVE None in
  let d := Formula.mk 4 "D定式" (Some 2) [] INACTIVE None in
  get_formula_by_id fs 1 = Some a
  /\ get_nodes_at_level fs 1 0 = [a]
  /\ get_nodes_at_level fs 1 1 = [b; c]
  /\ get_nodes_at_level fs 1 2 = [d]
  /\ get_nodes_at_level fs 1 3 = []
  /\ get_nodes_at_level fs 1 7 = []
  /\ get_nodes_at_level fs 1 (-1) = []
  /\ at_depth fs 1 2 4.
Proof.
  intros fs a b c d.
  destruct (get_nodes_at_level_tiers fs 1 a eq_refl)
    as (H0 & Hneg & Hstep & Hmem & Hne & Hdepth & _).
  assert (H1 : get_nodes_at_level fs 1 1 = [b; c]).
  { pose proof (Hstep 0 ltac:(lia)) as E. rewrite H0 in E. exact E. }
  assert (H2 : get_nodes_at_level fs 1 2 = [d]).
  { pose proof (Hstep 1 ltac:(lia)) as E. rewrite H1 in E. exact E. }
  assert (Hd : at_depth fs 1 2 4).
  { assert (Hin : d ∈ get_nodes_at_level fs 1 (1 + 1))
      by (change (1 + 1) with 2; rewrite H2; apply list_elem_of_singleton;
          reflexivity).
    apply (Hmem 1 d ltac:(lia)) in Hin as (Hdfs & p & [= <-] & Hp).
    apply (at_depth_child fs 1 1 2 4 Hp). by exists d. }
  assert (Hnone : forall x, ~ at_depth fs 1 (S (Z.to_nat 2)) x).
  { intros x Hx.
    assert (Hn : get_nodes_at_level fs 1 3 <> [])
      by (apply (Hne 3 ltac:(lia)); by exists x).
    apply Hn. pose proof (Hstep 2 ltac:(lia)) as E. rewrite H2 in E. exact E. }
  split; [reflexivity|]. split; [exact H0|]. split; [exact H1|].
  split; [exact H2|].
  split; [exact (Hdepth 2 3 ltac:(lia) Hnone ltac:(lia))|].
  split; [exact (Hdepth 2 7 ltac:(lia) Hnone ltac:(lia))|].
  split; [exact (Hneg (-1) ltac:(lia))|exact Hd].
Defined.

(** ** Level advance *)

Lemma _save_data_formulas {A : Type} (m : Manager A) :
  _formulas (_save_data m) = _formulas m.
Proof. unfold _save_data. by destruct (data_callback m). Qed.

Lemma _save_data_progress {A : Type} (m : Manager A) :
  active_tree_progress (_save_data m) = active_tree_progress m.
Proof. unfold _save_data. by destruct (data_callback m). Qed.

Lemma _save_data_date {A : Type} (m : Manager A) :
  last_addition_date (_save_data m) = last_addition_date m.
Proof. unfold _save_data. by destruct (data_callback m). Qed.

Lemma _save_data_engine_state {A : Type} (m : Manager A) :
  engine_state (_save_data m) = engine_state m.
Proof. unfold _save_data. by destruct (data_callback m). Qed.

Lemma execute_next_level_formulas (root_id : Z) (m : Manager Formula) :
  _formulas (snd (execute_next_level root_id m)) = _formulas m.
Proof.
  unfold execute_next_level.
  destruct (active_tree_progress m !! root_id) as [lvl|]; [|reflexivity].
  destruct (get_nodes_at_level _ _ _); simpl; by rewrite _save_data_formulas.
Qed.

(** A call on a tier that has a next tier: the level goes up by one. *)
Lemma execute_next_level_step (root_id lvl : Z) (m : Manager Formula) :
  active_tree_progress m !! root_id = Some lvl ->
  get_nodes_at_level (_formulas m) root_id (lvl + 1) <> [] ->
  fst (execute_next_level root_id m) = false
  /\ active_tree_progress (snd (execute_next_level root_id m)) !! root_id
     = Some (lvl + 1).
Proof.
  intros Hlvl Hnext. unfold execute_next_level. rewrite Hlvl.
  destruct (get_nodes_at_level _ _ _) as [|n ns]; [done|]. simpl.
  split; [reflexivity|].
  rewrite _save_data_progress. simpl. apply lookup_insert_eq.
Qed.

(** A call on the deepest tier: the cycle is complete, the level is 0. *)
Lemma execute_next_level_wrap (root_id lvl : Z) (m : Manager Formula) :
  active_tree_progress m !! root_id = Some lvl ->
  get_nodes_at_level (_formulas m) root_id (lvl + 1) = [] ->
  fst (execute_next_level root_id m) = true
  /\ active_tree_progress (snd (execute_next_level root_id m)) !! root_id
     = Some 0.
Proof.
  intros Hlvl Hnext. unfold execute_next_level. rewrite Hlvl, Hnext. simpl.
  split; [reflexivity|].
  rewrite _save_data_progress. simpl. apply lookup_insert_eq.
Qed.

Lemma advance_times_formulas (n : nat) (root_id : Z) (m : Manager Formula) :
  _formulas (advance_times n root_id m) = _formulas m.
Proof.
  induction n as [|n IH]; simpl; [reflexivity|].
  by rewrite execute_next_level_formulas.
Qed.

Section Cycle.
Variables (m : Manager Formula) (root_id : Z) (D : nat).
Hypothesis Hstart : active_tree_progress m !! root_id = Some 0.
Hypothesis Hlevels :
  forall k, 1 <= k <= Z.of_nat D ->
            get_nodes_at_level (_formulas m) root_id k <> [].

Lemma advance_times_level (i : nat) :
  (i <= D)%nat ->
  active_tree_progress (advance_times i root_id m) !! root_id
  = Some (Z.of_nat i).
Proof.
  induction i as [|i IH]; intros Hi; [exact Hstart|].
  simpl advance_times.
  destruct (execute_next_level_step root_id (Z.of_nat i)
              (advance_times i root_id m)) as [_ Hl].
  - apply IH. lia.
  - rewrite advance_times_formulas. apply Hlevels. lia.
  - rewrite Hl. f_equal. lia.
Qed.

End Cycle.

(** C1. For a tracked root at stored level 0 whose tiers 1..D are not empty
    and whose tier D+1 is empty, each of the first D calls of
    [execute_next_level] returns false and stores levels 1, 2, .., D in
    order; call D+1 returns true and stores level 0.  A call for an id that
    is not a key of the progress map returns false and changes nothing. *)
Theorem execute_next_level_cycle :
  (forall (m : Manager Formula) (root_id : Z) (D : nat),
      active_tree_progress m !! root_id = Some 0 ->
      (forall k, 1 <= k <= Z.of_nat D ->
                 get_nodes_at_level (_formulas m) root_id k <> []) ->
      get_nodes_at_level (_formulas m) root_id (Z.of_nat D + 1) = [] ->
      (forall i : nat, (i < D)%nat ->
          fst (execute_next_level root_id (advance_times i root_id m)) = false
          /\ active_tree_progress (advance_times (S i) root_id m) !! root_id
             = Some (Z.of_nat i + 1))
      /\ fst (execute_next_level root_id (advance_times D root_id m)) = true
      /\ active_tree_progress (advance_times (S D) root_id m) !! root_id
         = Some 0)
  /\ (forall (m : Manager Formula) (root_id : Z),
        active_tree_progress m !! root_id = None ->
        execute_next_level root_id m = (false, m)).
Proof.
  split.
  - intros m root_id D Hstart Hlevels Hdeep. split.
    + intros i Hi. simpl advance_times.
      apply (execute_next_level_step root_id (Z.of_nat i)).
      * apply (advance_times_level m root_id D Hstart Hlevels). lia.
      * rewrite advance_times_formulas. apply Hlevels. lia.
    + simpl advance_times. apply (execute_next_level_wrap root_id (Z.of_nat D)).
      * apply (advance_times_level m root_id D Hstart Hlevels). lia.
      * by rewrite advance_times_formulas.
  - intros m root_id Hnone. unfold execute_next_level. by rewrite Hnone.
Qed.

(** The seeded forest with root 1 tracked at level 0: depth 2, so two calls
    advance and the third wraps. *)
Lemma execute_next_level_cycle_witness :
  let m := mkManager true 0%nat (default_formulas 0) None {[1 := 0]} in
  active_tree_progress m !! 1 = Some 0
  /\ get_nodes_at_level (_formulas m) 1 3 = []
  /\ (forall i : nat, (i < 2)%nat ->
        fst (execute_next_level 1 (advance_times i 1 m)) = false
        /\ active_tree_progress (advance_times (S i) 1 m) !! 1
           = Some (Z.of_nat i + 1))
  /\ fst (execute_next_level 1 (advance_times 2 1 m)) = true
  /\ active_tree_progress (advance_times 3 1 m) !! 1 = Some 0.
Proof.
  intros m. split; [reflexivity|]. split; [reflexivity|].
  apply (proj1 execute_next_level_cycle m 1 2%nat).
  - reflexivity.
  - intros k Hk. assert (k = 1 \/ k = 2) as [-> | ->] by lia;
      vm_compute; discriminate.
  - reflexivity.
Defined.

(** The scenario of the seeded forest, run: levels 1, 2, then back to 0. *)
Example execute_next_level_seed :
  let m := mkManager true 0%nat (default_formulas 0) None {[1 := 0]} in
  (fst (execute_next_level 1 m),
   active_tree_progress (advance_times 1 1 m) !! 1,
   fst (execute_next_level 1 (advance_times 1 1 m)),
   active_tree_progress (advance_times 2 1 m) !! 1,
   fst (execute_next_level 1 (advance_times 2 1 m)),
   active_tree_progress (advance_times 3 1 m) !! 1,
   callback_calls (advance_times 3 1 m))
  = (false, Some 1, false, Some 2, true, Some 0, 3%nat).
Proof. vm_compute. reflexivity. Qed.

(** ** Lookup and in-place update *)

Lemma get_formula_by_id_Some (fs : list Formula) (i : Z) (f : Formula) :
  get_formula_by_id fs i = Some f -> f ∈ fs /\ Formula.id f = i.
Proof.
  unfold get_formula_by_id. intros H. apply find_some in H as [Hin Hid].
  split; [by apply list_elem_of_In|]. by apply bool_decide_eq_true in Hid.
Qed.

Lemma get_formula_by_id_None (fs : list Formula) (i : Z) :
  get_formula_by_id fs i = None <-> forall f, f ∈ fs -> Formula.id f <> i.
Proof.
  unfold get_formula_by_id. split.
  - intros H f Hin Hid. apply list_elem_of_In in Hin.
    pose proof (find_none _ _ H f Hin) as Hf. simpl in Hf.
    by apply bool_decide_eq_false in Hf.
  - intros H. induction fs as [|f fs IH]; [reflexivity|]. simpl.
    rewrite bool_decide_eq_false_2 by (apply H; left).
    apply IH. intros g Hg. apply H. by right.
Qed.

Lemma update_first_absent (i : Z) (g : Formula -> Formula) (fs : list Formula) :
  get_formula_by_id fs i = None -> update_first i g fs = fs.
Proof.
  unfold get_formula_by_id. induction fs as [|f fs IH]; simpl; [done|].
  destruct (bool_decide (Formula.id f = i)); [done|].
  intros H. by rewrite IH.
Qed.

(** The dictionary found by id is the one that was updated. *)
Lemma get_formula_by_id_update_first (i : Z) (g : Formula -> Formula)
    (fs : list Formula) (f : Formula) :
  (forall f, Formula.id (g f) = Formula.id f) ->
  get_formula_by_id fs i = Some f ->
  get_formula_by_id (update_first i g fs) i = Some (g f).
Proof.
  intros Hg. unfold get_formula_by_id.
  induction fs as [|f0 fs IH]; simpl; [done|].
  destruct (bool_decide (Formula.id f0 = i)) eqn:E.
  - intros [= ->]. simpl. by rewrite Hg, E.
  - intros H. simpl. rewrite E. by apply IH.
Qed.

(** Every other id still finds the dictionary it found before. *)
Lemma get_formula_by_id_update_first_ne (i j : Z) (g : Formula -> Formula)
    (fs : list Formula) :
  (forall f, Formula.id (g f) = Formula.id f) -> i <> j ->
  get_formula_by_id (update_first i g fs) j = get_formula_by_id fs j.
Proof.
  intros Hg Hij. unfold get_formula_by_id.
  induction fs as [|f0 fs IH]; simpl; [done|].
  destruct (bool_decide (Formula.id f0 = i)) eqn:E; simpl.
  - apply bool_decide_eq_true in E. rewrite Hg.
    by rewrite !bool_decide_eq_false_2 by congruence.
  - by rewrite IH.
Qed.

Lemma update_first_length (i : Z) (g : Formula -> Formula) (fs : list Formula) :
  length (update_first i g fs) = length fs.
Proof.
  induction fs as [|f fs IH]; simpl; [done|].
  destruct (bool_decide (Formula.id f = i)); simpl; by rewrite ?IH.
Qed.

(** ** Status toggle *)

Lemma ACTIVE_neq_INACTIVE : INACTIVE <> ACTIVE.
Proof. discriminate. Qed.

(** C8. Toggling a node whose status is the active label makes it inactive
    and keeps its [last_active_time]; if it is a root its key leaves the
    progress map, otherwise the map is unchanged.  Toggling a node whose
    status is not the active label (in particular an inactive one) makes it
    active with [last_active_time] today; if it is a root its progress entry
    becomes 0, otherwise the map is unchanged.  In both cases every other id
    finds the node it found before.  An unknown id returns false and changes
    nothing. *)
Theorem change_formula_status_toggles (today : date) (i : Z) (m : Manager Formula) :
  (forall f, get_formula_by_id (_formulas m) i = Some f ->
             Formula.status f = ACTIVE ->
      let r := change_formula_status today i m in
      fst r = true
      /\ get_formula_by_id (_formulas (snd r)) i
         = Some (Formula.mk (Formula.id f) (Formula.name f) (Formula.parent f)
                   (Formula.children f) INACTIVE (Formula.last_active_time f))
      /\ (forall j, j <> i ->
            get_formula_by_id (_formulas (snd r)) j
            = get_formula_by_id (_formulas m) j)
      /\ active_tree_progress (snd r)
         = match Formula.parent f with
           | None => delete i (active_tree_progress m)
           | Some _ => active_tree_progress m
           end
      /\ last_addition_date (snd r) = last_addition_date m)
  /\ (forall f, get_formula_by_id (_formulas m) i = Some f ->
                Formula.status f <> ACTIVE ->
      let r := change_formula_status today i m in
      fst r = true
      /\ get_formula_by_id (_formulas (snd r)) i
         = Some (Formula.mk (Formula.id f) (Formula.name f) (Formula.parent f)
                   (Formula.children f) ACTIVE (Some today))
      /\ (forall j, j <> i ->
            get_formula_by_id (_formulas (snd r)) j
            = get_formula_by_id (_formulas m) j)
      /\ active_tree_progress (snd r)
         = match Formula.parent f with
           | None => <[i := 0]> (active_tree_progress m)
           | Some _ => active_tree_progress m
           end
      /\ last_addition_date (snd r) = last_addition_date m)
  /\ (get_formula_by_id (_formulas m) i = None ->
      change_formula_status today i m = (false, m)).
Proof.
  split; [|split].
  - intros f Hf Hst r. subst r. unfold change_formula_status.
    rewrite Hf, (bool_decide_eq_true_2 _ Hst). simpl.
    rewrite _save_data_formulas, _save_data_progress, _save_data_date. simpl.
    split; [reflexivity|]. split.
    { by apply (get_formula_by_id_update_first i (Formula.set_status INACTIVE)). }
    split.
    { intros j Hj. by apply get_formula_by_id_update_first_ne. }
    split; [|reflexivity].
    destruct (Formula.parent f) as [p|]; simpl; [reflexivity|].
    destruct (active_tree_progress m !! i) as [lvl|] eqn:E.
    + rewrite bool_decide_eq_true_2 by (by eexists). reflexivity.
    + rewrite bool_decide_eq_false_2 by (intros [? ?]; congruence).
      symmetry. by apply delete_id.
  - intros f Hf Hst r. subst r. unfold change_formula_status.
    rewrite Hf, (bool_decide_eq_false_2 _ Hst). simpl.
    rewrite _save_data_formulas, _save_data_progress, _save_data_date. simpl.
    split; [reflexivity|]. split.
    { by apply (get_formula_by_id_update_first i
                  (fun f => Formula.set_last_active_time (Some today)
                              (Formula.set_status ACTIVE f))). }
    split.
    { intros j Hj. by apply get_formula_by_id_update_first_ne. }
    split; [|reflexivity].
    by destruct (Formula.parent f).
  - intros Hnone. unfold change_formula_status. by rewrite Hnone.
Qed.

(** On the seeded forest: root 1 is active and tracked, root-less node 3 is
    inactive, id 9 is unknown. *)
Lemma change_formula_status_toggles_witness :
  let m := mkManager true 0%nat (default_formulas 5) None {[1 := 2]} in
  (let r := change_formula_status 8 1 m in
   fst r = true
   /\ get_formula_by_id (_formulas (snd r)) 1
      = Some (Formula.mk 1 "A定式" None [2; 3] INACTIVE (Some 5))
   /\ active_tree_progress (snd r) = delete 1 (active_tree_progress m))
  /\ (let r := change_formula_status 8 3 m in
      fst r = true
      /\ get_formula_by_id (_formulas (snd r)) 3
         = Some (Formula.mk 3 "C定式" (Some 1) [] ACTIVE (Some 8))
      /\ active_tree_progress (snd r) = active_tree_progress m)
  /\ change_formula_status 8 9 m = (false, m).
Proof.
  intros m.
  destruct (change_formula_status_toggles 8 1 m) as [Hoff _].
  destruct (change_formula_status_toggles 8 3 m) as [_ [Hon _]].
  destruct (change_formula_status_toggles 8 9 m) as [_ [_ Hunknown]].
  split; [|split].
  - destruct (Hoff (Formula.mk 1 "A定式" None [2; 3] ACTIVE (Some 5)))
      as (H1 & H2 & _ & H3 & _); [reflexivity|reflexivity|].
    split; [exact H1|]. split; [exact H2|exact H3].
  - destruct (Hon (Formula.mk 3 "C定式" (Some 1) [] INACTIVE None))
      as (H1 & H2 & _ & H3 & _); [reflexivity|discriminate|].
    split; [exact H1|]. split; [exact H2|exact H3].
  - apply Hunknown. reflexivity.
Defined.

(** ** The daily gate of [add_formula] *)

Lemma add_formula_gate (today : date) (name : string) (parent_id : option Z)
    (m : Manager Formula) :
  last_addition_date m = Some today ->
  add_formula today name parent_id m = ((false, MSG_ALREADY_ADDED), m).
Proof.
  intros H. unfold add_formula. by rewrite (bool_decide_eq_true_2 _ H).
Qed.

Lemma add_formula_success_date (today : date) (name : string)
    (parent_id : option Z) (m m' : Manager Formula) (msg : string) :
  add_formula today name parent_id m = ((true, msg), m') ->
  last_addition_date m' = Some today.
Proof.
  unfold add_formula.
  destruct (bool_decide (last_addition_date m = Some today)); [done|].
  destruct (bool_decide (strip name = EmptyString)); [done|].
  destruct (truthy parent_id && _); [done|].
  intros [= _ <-]. by rewrite _save_data_date.
Qed.

Lemma remove_formula_date (fuel : nat) (i : Z) (confirm : bool)
    (m : Manager Formula) :
  last_addition_date (snd (remove_formula fuel i confirm m))
  = last_addition_date m.
Proof.
  unfold remove_formula.
  destruct (get_descendants fuel (_formulas m) i) as [to_delete|]; [|done].
  destruct (Formula.name <$> _); [done|].
  destruct confirm; simpl; [|done]. by rewrite _save_data_date.
Qed.

Lemma update_formula_name_date (i : Z) (new_name : string) (m : Manager Formula) :
  last_addition_date (snd (update_formula_name i new_name m))
  = last_addition_date m.
Proof.
  unfold update_formula_name.
  destruct (bool_decide (strip new_name = EmptyString)); [done|].
  destruct (get_formula_by_id (_formulas m) i); [|done].
  simpl. by rewrite _save_data_date.
Qed.

Lemma change_formula_status_date (today : date) (i : Z) (m : Manager Formula) :
  last_addition_date (snd (change_formula_status today i m))
  = last_addition_date m.
Proof.
  unfold change_formula_status.
  destruct (get_formula_by_id (_formulas m) i); [|done].
  destruct (bool_decide (Formula.status _ = ACTIVE)); simpl;
    by rewrite _save_data_date.
Qed.

Lemma execute_next_level_date (root_id : Z) (m : Manager Formula) :
  last_addition_date (snd (execute_next_level root_id m))
  = last_addition_date m.
Proof.
  unfold execute_next_level.
  destruct (active_tree_progress m !! root_id); [|done].
  destruct (get_nodes_at_level _ _ _); simpl; by rewrite _save_data_date.
Qed.

(** On a day on which the gate is closed, no call opens it again. *)
Lemma run_command_gate (today : date) (c : command) (m : Manager Formula) :
  last_addition_date m = Some today ->
  last_addition_date (snd (run_command today c m)) = Some today.
Proof.
  intros H. destruct c; simpl.
  - by rewrite add_formula_gate.
  - by rewrite remove_formula_date.
  - by rewrite update_formula_name_date.
  - by rewrite change_formula_status_date.
  - by rewrite execute_next_level_date.
  - by rewrite _save_data_date.
Qed.

Lemma run_commands_gate (today : date) (cs : list command) (m : Manager Formula) :
  last_addition_date m = Some today ->
  last_addition_date (run_commands ((fun c => (today, c)) <$> cs) m)
  = Some today.
Proof.
  revert m. induction cs as [|c cs IH]; intros m H; [exact H|].
  simpl. apply IH. by apply run_command_gate.
Qed.

Lemma MSG_ADDED_not_gate (name : string) : MSG_ADDED name <> MSG_ALREADY_ADDED.
Proof. unfold MSG_ADDED, MSG_ALREADY_ADDED. simpl. discriminate. Qed.

(** Outside the gate, a non-blank name and a parent that is absent or names
    an existing node are accepted. *)
Lemma add_formula_accepts (today : date) (name : string) (parent_id : option Z)
    (m : Manager Formula) :
  last_addition_date m <> Some today ->
  strip name <> EmptyString ->
  (parent_id = None \/
   exists f, f ∈ _formulas m /\ parent_id = Some (Formula.id f)) ->
  fst (add_formula today name parent_id m) = (true, MSG_ADDED (strip name)).
Proof.
  intros Hd Hn Hp. unfold add_formula.
  rewrite (bool_decide_eq_false_2 _ Hd), (bool_decide_eq_false_2 _ Hn).
  destruct (truthy parent_id
            && negb (existsb (fun f => bool_decide (Some (Formula.id f) = parent_id))
                       (_formulas m))) eqn:E; [|reflexivity].
  exfalso. apply andb_true_iff in E as [Ht Hex].
  destruct Hp as [-> | (f & Hin & ->)]; [discriminate Ht|].
  apply negb_true_iff in Hex.
  assert (existsb (fun f0 => bool_decide (Some (Formula.id f0) = Some (Formula.id f)))
            (_formulas m) = true) as Hyes; [|congruence].
  apply existsb_exists. exists f. split; [by apply list_elem_of_In|].
  by apply bool_decide_eq_true_2.
Qed.

(** C7. Once an add has succeeded on a day, then after any further calls of
    the engine on that day every add of that day fails with the
    duplicate-addition message and leaves the state as it is, whatever its
    arguments; on a strictly later day the add does not answer with that
    message any more, and it succeeds when its name is not blank and its
    parent is absent or names an existing node. *)
Theorem add_formula_daily_gate (today : date) (name : string)
    (parent_id : option Z) (m m1 : Manager Formula) (msg : string) :
  add_formula today name parent_id m = ((true, msg), m1) ->
  forall cs : list command,
    let m2 := run_commands ((fun c => (today, c)) <$> cs) m1 in
    (forall name' parent_id',
        add_formula today name' parent_id' m2 = ((false, MSG_ALREADY_ADDED), m2))
    /\ (forall later name' parent_id', today < later ->
          snd (fst (add_formula later name' parent_id' m2)) <> MSG_ALREADY_ADDED
          /\ (strip name' <> EmptyString ->
              (parent_id' = None \/
               exists f, f ∈ _formulas m2 /\ parent_id' = Some (Formula.id f)) ->
              fst (fst (add_formula later name' parent_id' m2)) = true)).
Proof.
  intros Hadd cs m2.
  assert (Hgate : last_addition_date m2 = Some today).
  { apply run_commands_gate. by apply add_formula_success_date in Hadd. }
  split.
  - intros name' parent_id'. by apply add_formula_gate.
  - intros later name' parent_id' Hlater.
    assert (Hopen : last_addition_date m2 <> Some later).
    { rewrite Hgate. intros [= ?]. lia. }
    split.
    + unfold add_formula. rewrite (bool_decide_eq_false_2 _ Hopen).
      destruct (bool_decide (strip name' = EmptyString)); [simpl; discriminate|].
      destruct (truthy parent_id' && _); [simpl; discriminate|].
      simpl. apply MSG_ADDED_not_gate.
    + intros Hn Hp. by rewrite add_formula_accepts.
Qed.

(** The seeded forest, day 10: the first add succeeds, a second add and an
    add after a delete are refused that day, and day 11 accepts again. *)
Lemma add_formula_daily_gate_witness :
  let m := init 10 true in
  let m1 := snd (add_formula 10 "E" (Some 3) m) in
  let m2 := run_commands [(10, Remove 5 2 true); (10, Toggle 3)] m1 in
  fst (add_formula 10 "E" (Some 3) m) = (true, MSG_ADDED "E")
  /\ (forall name' parent_id',
        add_formula 10 name' parent_id' m2 = ((false, MSG_ALREADY_ADDED), m2))
  /\ fst (fst (add_formula 11 " F " None m2)) = true.
Proof.
  intros m m1 m2.
  destruct (add_formula_daily_gate 10 "E" (Some 3) m m1 (MSG_ADDED "E")
              eq_refl [Remove 5 2 true; Toggle 3]) as [Hsame Hlater].
  split; [reflexivity|]. split; [exact Hsame|].
  destruct (Hlater 11 " F " None) as [_ Hok]; [lia|].
  apply Hok; [discriminate|by left].
Defined.

(** ** Unknown parents *)

(** A parent id other than 0 that no node carries is refused, and nothing
    changes. *)
Lemma add_formula_unknown_parent (today : date) (name : string) (p : Z)
    (m : Manager Formula) :
  p <> 0 ->
  (forall f, f ∈ _formulas m -> Formula.id f <> p) ->
  exists msg, add_formula today name (Some p) m = ((false, msg), m).
Proof.
  intros Hp Hnone. unfold add_formula.
  destruct (bool_decide (last_addition_date m = Some today)); [by eexists|].
  destruct (bool_decide (strip name = EmptyString)); [by eexists|].
  assert (existsb (fun f => bool_decide (Some (Formula.id f) = Some p))
            (_formulas m) = false) as ->.
  { apply not_true_is_false. intros H.
    apply existsb_exists in H as (f & Hin & Hf).
    apply bool_decide_eq_true in Hf. injection Hf as Hf.
    by apply (Hnone f); [apply list_elem_of_In|]. }
  simpl. rewrite (bool_decide_eq_false_2 _ Hp). simpl. by eexists.
Qed.

(** C5, at parent id 0.  The seeded forest has ids 1 to 4 and the gate is
    open; [add_formula("x", 0)] names a parent that no node carries, and yet
    it returns success, appends node 5 with parent 0, and closes the gate.
    The test [if parent_id and ...] takes 0 for an absent parent, while the
    stored ["parent"] is 0, not [None]. *)
Theorem add_formula_zero_parent_accepted :
  let m := init 10 true in
  (forall f, f ∈ _formulas m -> Formula.id f <> 0)
  /\ add_formula 10 "x" (Some 0) m
     = ((true, MSG_ADDED "x"),
        mkManager true 1%nat
          (default_formulas 10 ++ [Formula.mk 5 "x" (Some 0) [] INACTIVE None])
          (Some 10) ∅)
  /\ get_root_formulas (_formulas (snd (add_formula 10 "x" (Some 0) m)))
     = get_root_formulas (_formulas m).
Proof.
  intros m. split; [|split; reflexivity].
  intros f Hin. apply (get_formula_by_id_None (_formulas m) 0); [reflexivity|exact Hin].
Qed.

(** ** Import *)

(** C10. When the text parses to a JSON array, [import_formulas] returns
    true and the node list becomes the elements of the array as they are,
    whatever they are; the progress map and the last-addition date are kept.
    When the text does not parse, or parses to a value that is not an array,
    it returns false and changes nothing. *)
Theorem import_formulas_replaces (json_loads : string -> option json)
    (json_data : string) (m : Manager json) :
  (forall l, json_loads json_data = Some (JList l) ->
     fst (import_formulas json_loads json_data m) = true
     /\ _formulas (snd (import_formulas json_loads json_data m)) = l
     /\ active_tree_progress (snd (import_formulas json_loads json_data m))
        = active_tree_progress m
     /\ last_addition_date (snd (import_formulas json_loads json_data m))
        = last_addition_date m)
  /\ (json_loads json_data = None ->
      import_formulas json_loads json_data m = (false, m))
  /\ (forall v, json_loads json_data = Some v ->
        (forall l, v <> JList l) ->
        import_formulas json_loads json_data m = (false, m)).
Proof.
  unfold import_formulas. split; [|split].
  - intros l ->. simpl.
    by rewrite _save_data_formulas, _save_data_progress, _save_data_date.
  - by intros ->.
  - intros v -> Hv. destruct v; try reflexivity. by destruct (Hv l).
Qed.

(** A parser that answers an array of a number, a boolean and [null] (none
    of them a node record), one that answers an object, and one that fails. *)
Lemma import_formulas_replaces_witness :
  let m := mkManager true 0%nat [JInt 7] (Some 3) {[1 := 2]} in
  let arr := [JInt 1; JBool true; JNull] in
  (_formulas (snd (import_formulas (fun _ => Some (JList arr)) "[1, true, null]" m)) = arr
   /\ active_tree_progress
        (snd (import_formulas (fun _ => Some (JList arr)) "[1, true, null]" m))
      = {[1 := 2]})
  /\ import_formulas (fun _ => None) "[1," m = (false, m)
  /\ import_formulas (fun _ => Some (JDict [])) "{}" m = (false, m).
Proof.
  intros m arr. split; [|split].
  - destruct (import_formulas_replaces (fun _ => Some (JList arr))
                "[1, true, null]" m) as [H _].
    destruct (H arr eq_refl) as (_ & H1 & H2 & _). split; [exact H1|exact H2].
  - destruct (import_formulas_replaces (fun _ => None) "[1," m) as [_ [H _]].
    apply H. reflexivity.
  - destruct (import_formulas_replaces (fun _ => Some (JDict [])) "{}" m)
      as [_ [_ H]].
    apply (H (JDict [])); [reflexivity|discriminate].
Defined.

(** ** [get_descendants] *)

Lemma get_children_formulas_spec (fs : list Formula) (p : Z) (f : Formula) :
  f ∈ get_children_formulas fs p <-> f ∈ fs /\ Formula.parent f = Some p.
Proof. unfold get_children_formulas. rewrite list_elem_of_filter. tauto. Qed.

Lemma get_descendants_unfold (fuel : nat) (fs : list Formula) (r : Z) :
  get_descendants (S fuel) fs r =
  subs ← mapM (fun f => get_descendants fuel fs (Formula.id f))
              (get_children_formulas fs r);
  Some (r :: concat subs).
Proof. reflexivity. Qed.

Lemma get_descendants_Some_inv (fuel : nat) (fs : list Formula) (r : Z)
    (D : list Z) :
  get_descendants fuel fs r = Some D ->
  exists fuel' subs,
    fuel = S fuel' /\ D = r :: concat subs /\
    Forall2 (fun f sub => get_descendants fuel' fs (Formula.id f) = Some sub)
            (get_children_formulas fs r) subs.
Proof.
  destruct fuel as [|fuel']; [discriminate|].
  rewrite get_descendants_unfold. intros H.
  destruct (mapM _ _) as [subs|] eqn:E; [|discriminate].
  injection H as <-. exists fuel', subs.
  split; [reflexivity|]. split; [reflexivity|]. by apply mapM_Some_1.
Qed.

Lemma in_subtree_trans (fs : list Formula) (r y x : Z) :
  in_subtree fs r y -> in_subtree fs y x -> in_subtree fs r x.
Proof.
  induction 1 as [r|r f y Hin Hp _ IH]; [done|].
  intros Hx. eapply in_subtree_child; eauto.
Qed.

(** The subtree is closed under children. *)
Lemma in_subtree_extend (fs : list Formula) (r : Z) (f : Formula) (p : Z) :
  in_subtree fs r p -> f ∈ fs -> Formula.parent f = Some p ->
  in_subtree fs r (Formula.id f).
Proof.
  intros Hp Hin Hpar. apply (in_subtree_trans fs r p); [exact Hp|].
  eapply in_subtree_child; [exact Hin|exact Hpar|constructor].
Qed.

(** What [get_descendants] returns, when it returns: exactly the ids of
    the subtree. *)
Lemma get_descendants_sound (fuel : nat) (fs : list Formula) :
  forall (r : Z) (D : list Z),
    get_descendants fuel fs r = Some D ->
    forall x, x ∈ D -> in_subtree fs r x.
Proof.
  induction fuel as [|fuel IH]; intros r D HD; [discriminate|].
  apply get_descendants_Some_inv in HD as (fuel' & subs & [= <-] & -> & Hsubs).
  intros x Hx. apply elem_of_cons in Hx as [-> | Hx]; [constructor|].
  apply list_elem_of_In, in_concat in Hx as (sub & Hsub & Hx).
  apply list_elem_of_In, list_elem_of_lookup in Hsub as [k Hk].
  destruct (Forall2_lookup_r _ _ _ k sub Hsubs Hk) as (f & Hf & Hrec).
  apply list_elem_of_lookup_2, get_children_formulas_spec in Hf as [Hin Hp].
  eapply in_subtree_child; [exact Hin|exact Hp|].
  eapply IH; [exact Hrec|]. by apply list_elem_of_In.
Qed.

Lemma get_descendants_complete (fs : list Formula) (r x : Z) :
  in_subtree fs r x ->
  forall (fuel : nat) (D : list Z),
    get_descendants fuel fs r = Some D -> x ∈ D.
Proof.
  induction 1 as [r|r f x Hin Hp _ IH]; intros fuel D HD;
    apply get_descendants_Some_inv in HD as (fuel' & subs & -> & -> & Hsubs).
  - left.
  - right.
    assert (Hf : f ∈ get_children_formulas fs r)
      by (by apply get_children_formulas_spec).
    apply list_elem_of_lookup in Hf as [k Hk].
    destruct (Forall2_lookup_l _ _ _ k f Hsubs Hk) as (sub & Hsub & Hrec).
    apply list_elem_of_In, in_concat. exists sub. split.
    + apply list_elem_of_In. by eapply list_elem_of_lookup_2.
    + apply list_elem_of_In. by eapply IH.
Qed.

Lemma get_descendants_spec (fuel : nat) (fs : list Formula) (r : Z) (D : list Z) :
  get_descendants fuel fs r = Some D ->
  forall x, x ∈ D <-> in_subtree fs r x.
Proof.
  intros HD x. split.
  - by apply (get_descendants_sound fuel fs r D).
  - intros Hx. by apply (get_descendants_complete fs r x Hx fuel D).
Qed.

(** A larger recursion budget returns the same list. *)
Lemma get_descendants_mono (fs : list Formula) (fuel : nat) :
  forall (fuel' : nat) (r : Z) (D : list Z),
    (fuel <= fuel')%nat ->
    get_descendants fuel fs r = Some D ->
    get_descendants fuel' fs r = Some D.
Proof.
  induction fuel as [|fuel IH]; intros fuel' r D Hle HD; [discriminate|].
  destruct fuel' as [|fuel']; [lia|].
  apply get_descendants_Some_inv in HD as (n & subs & [= <-] & -> & Hsubs).
  rewrite get_descendants_unfold.
  rewrite (mapM_Some_2 _ _ subs); [reflexivity|].
  eapply Forall2_impl; [exact Hsubs|].
  intros f sub Hrec. simpl in Hrec. apply IH; [lia|exact Hrec].
Qed.

(** A common budget for a list of calls that each return from some budget
    on. *)
Lemma common_fuel {A : Type} (P : nat -> A -> Prop) (l : list A) :
  (forall x, x ∈ l -> exists n0, forall n, (n0 <= n)%nat -> P n x) ->
  exists n0, forall n, (n0 <= n)%nat -> Forall (P n) l.
Proof.
  induction l as [|x l IH]; intros H.
  - exists 0%nat. intros n _. constructor.
  - destruct (H x) as [n1 H1]; [left|].
    destruct IH as [n2 H2]; [intros y Hy; apply H; by right|].
    exists (n1 `max` n2)%nat. intros n Hn. constructor.
    + apply H1. lia.
    + apply H2. lia.
Qed.

(** Below a node without an infinite chain of children, [get_descendants]
    returns from some recursion budget on. *)
Lemma get_descendants_terminates (fs : list Formula) (r : Z) :
  Acc (child_of fs) r ->
  exists fuel0, forall fuel, (fuel0 <= fuel)%nat ->
                             is_Some (get_descendants fuel fs r).
Proof.
  induction 1 as [r _ IH].
  destruct (common_fuel
              (fun n f => is_Some (get_descendants n fs (Formula.id f)))
              (get_children_formulas fs r)) as [n0 Hn0].
  { intros f Hf. apply get_children_formulas_spec in Hf as [Hin Hp].
    apply IH. exists f. done. }
  exists (S n0). intros fuel Hfuel.
  destruct fuel as [|fuel]; [lia|].
  rewrite get_descendants_unfold.
  destruct (mapM_is_Some_2 (fun f => get_descendants fuel fs (Formula.id f))
              (get_children_formulas fs r)) as [subs ->].
  - apply Hn0. lia.
  - by eexists.
Qed.

Lemma get_descendants_total (fs : list Formula) (r : Z) :
  Acc (child_of fs) r ->
  exists fuel0 D,
    (forall fuel, (fuel0 <= fuel)%nat -> get_descendants fuel fs r = Some D)
    /\ (forall x, x ∈ D <-> in_subtree fs r x).
Proof.
  intros Hacc. destruct (get_descendants_terminates fs r Hacc) as [fuel0 H].
  destruct (H fuel0) as [D HD]; [lia|].
  exists fuel0, D. split.
  - intros fuel Hfuel. by apply (get_descendants_mono fs fuel0).
  - by apply (get_descendants_spec fuel0).
Qed.

(** ** Fresh ids *)

Lemma fold_left_max_ge (l : list Z) :
  forall a, a <= fold_left Z.max l a
            /\ forall x, x ∈ l -> x <= fold_left Z.max l a.
Proof.
  induction l as [|y l IH]; intros a; simpl.
  - split; [lia|]. intros x Hx. by apply elem_of_nil in Hx.
  - destruct (IH (Z.max a y)) as [H1 H2]. split; [lia|].
    intros x Hx. apply elem_of_cons in Hx as [-> | Hx]; [lia|]. by apply H2.
Qed.

Lemma max_default_ge (l : list Z) (d x : Z) : x ∈ l -> x <= max_default l d.
Proof.
  destruct l as [|y l]; intros Hx; [by apply elem_of_nil in Hx|].
  simpl. destruct (fold_left_max_ge l y) as [H1 H2].
  apply elem_of_cons in Hx as [-> | Hx]; [exact H1|]. by apply H2.
Qed.

(** The id of a new node is above every id of the list. *)
Lemma new_id_of_fresh (fs : list Formula) (f : Formula) :
  f ∈ fs -> Formula.id f < new_id_of fs.
Proof.
  intros Hin. unfold new_id_of.
  assert (Formula.id f <= max_default (Formula.id <$> fs) 0); [|lia].
  apply max_default_ge, list_elem_of_fmap. by exists f.
Qed.

(** ** Termination on forests built by the engine *)

Lemma parent_before_child_spec (fs : list Formula) :
  parent_before_child fs = true ->
  forall f p, f ∈ fs -> Formula.parent f = Some p -> p < Formula.id f.
Proof.
  unfold parent_before_child. rewrite forallb_forall.
  intros H f p Hin Hp. apply list_elem_of_In in Hin.
  specialize (H f Hin). rewrite Hp in H. by apply bool_decide_eq_true in H.
Qed.

Lemma parent_before_child_Acc (fs : list Formula) :
  parent_before_child fs = true -> forall r, Acc (child_of fs) r.
Proof.
  intros Hord r.
  pose proof (parent_before_child_spec fs Hord) as Hlt.
  assert (H : forall (n : nat) (x : Z),
             new_id_of fs - x < Z.of_nat n -> Acc (child_of fs) x).
  { induction n as [|n IH]; intros x Hx; constructor;
      intros c (f & Hin & <- & Hp);
      pose proof (Hlt f x Hin Hp); pose proof (new_id_of_fresh fs f Hin).
    - lia.
    - apply IH. lia. }
  apply (H (Z.to_nat (new_id_of fs - r + 1))). lia.
Qed.

(** ** Remove *)

Lemma get_descendants_cyclic (fuel : nat) :
  get_descendants fuel cyclic_formulas 1 = None.
Proof.
  induction fuel as [|fuel IH]; [reflexivity|].
  rewrite get_descendants_unfold.
  destruct (mapM _ _) as [subs|] eqn:E; [|reflexivity].
  apply mapM_Some_1 in E.
  change (get_children_formulas cyclic_formulas 1)
    with [Formula.mk 1 "a" (Some 1) [1] INACTIVE None] in E.
  inversion E as [|f sub fs' subs' Hrec _]; subst.
  simpl in Hrec. congruence.
Qed.

(** C4 as stated, refuted: in a list where node 1 names itself as parent,
    id 1 is present, and the preview [remove_formula(1)] returns with no
    recursion budget at all. *)
Lemma remove_formula_cycle_never_returns :
  let m := mkManager true 0%nat cyclic_formulas None ∅ in
  (exists f, f ∈ _formulas m /\ Formula.id f = 1)
  /\ ~ (exists fuel names,
          remove_formula fuel 1 false m = (Some (true, names), m)).
Proof.
  intros m. split.
  - eexists. split; [left|reflexivity].
  - intros (fuel & names & H). unfold remove_formula in H.
    simpl in H. by rewrite get_descendants_cyclic in H.
Qed.

Lemma remove_formula_unfold (fuel : nat) (i : Z) (confirm : bool)
    (m : Manager Formula) (D : list Z) :
  get_descendants fuel (_formulas m) i = Some D ->
  remove_formula fuel i confirm m =
  match Formula.name <$> filter (fun f => Formula.id f ∈ D) (_formulas m) with
  | [] => (Some (false, []), m)
  | _ :: _ =>
      if negb confirm
      then (Some (true, Formula.name <$>
                          filter (fun f => Formula.id f ∈ D) (_formulas m)), m)
      else (Some (true, Formula.name <$>
                          filter (fun f => Formula.id f ∈ D) (_formulas m)),
            _save_data
              (set_formulas
                 (strip_children D <$>
                    filter (fun f => Formula.id f ∉ D) (_formulas m)) m))
  end.
Proof. intros H. unfold remove_formula. by rewrite H. Qed.

(** C4, amended.  When no infinite chain of children hangs below [i], there
    are a recursion budget and a list [to_delete] holding exactly the ids of
    the subtree of [i] such that, from that budget on: if a node has id [i],
    the preview returns true with the names of the nodes of the subtree (in
    list order) and leaves the whole state as it is, and the confirmed call
    returns the same, keeps exactly the nodes outside the subtree, strips the
    removed ids from their children lists (no surviving children list holds
    an id of the subtree), and keeps the progress map and the date; if no
    node has id [i] or names [i] as parent, the call returns (false, [])
    and changes nothing. *)
Theorem remove_formula_subtree (m : Manager Formula) (i : Z) :
  Acc (child_of (_formulas m)) i ->
  exists (fuel0 : nat) (to_delete : list Z),
    (forall x, x ∈ to_delete <-> in_subtree (_formulas m) i x)
    /\ forall fuel, (fuel0 <= fuel)%nat ->
       let fs := _formulas m in
       let names := Formula.name <$> filter (fun f => Formula.id f ∈ to_delete) fs in
       ((exists f, f ∈ fs /\ Formula.id f = i) ->
          remove_formula fuel i false m = (Some (true, names), m)
          /\ let r := remove_formula fuel i true m in
             fst r = Some (true, names)
             /\ _formulas (snd r)
                = strip_children to_delete <$>
                    filter (fun f => Formula.id f ∉ to_delete) fs
             /\ (forall f', f' ∈ _formulas (snd r) ->
                   forall c, c ∈ Formula.children f' -> ~ in_subtree fs i c)
             /\ active_tree_progress (snd r) = active_tree_progress m
             /\ last_addition_date (snd r) = last_addition_date m)
       /\ ((forall f, f ∈ fs ->
              Formula.id f <> i /\ Formula.parent f <> Some i) ->
           forall confirm,
             remove_formula fuel i confirm m = (Some (false, []), m)).
Proof.
  intros Hacc.
  destruct (get_descendants_total (_formulas m) i Hacc) as (fuel0 & D & Hget & HD).
  exists fuel0, D. split; [exact HD|].
  intros fuel Hfuel fs names. subst fs. split.
  - intros (f & Hin & Hid).
    assert (Hname : Formula.name f ∈ names).
    { apply list_elem_of_fmap. exists f. split; [reflexivity|].
      apply list_elem_of_filter. split; [|exact Hin].
      apply HD. rewrite Hid. constructor. }
    rewrite !(remove_formula_unfold fuel i _ m D (Hget fuel Hfuel)).
    fold names. destruct names as [|n ns] eqn:En;
      [by apply elem_of_nil in Hname|].
    simpl. split; [reflexivity|].
    rewrite _save_data_formulas, _save_data_progress, _save_data_date. simpl.
    split; [reflexivity|]. split; [reflexivity|]. split; [|done].
    intros f' Hf' c Hc Hsub.
    apply list_elem_of_fmap in Hf' as (f0 & -> & _).
    unfold strip_children in Hc. simpl in Hc.
    apply list_elem_of_filter in Hc as [Hc _]. apply Hc, HD, Hsub.
  - intros Hnone confirm.
    rewrite (remove_formula_unfold fuel i _ m D (Hget fuel Hfuel)).
    assert (Hempty : filter (fun f => Formula.id f ∈ D) (_formulas m) = []).
    { apply elem_of_nil_inv. intros f Hf.
      apply list_elem_of_filter in Hf as [Hf Hin].
      apply HD in Hf. destruct (Hnone f Hin) as [Hid _].
      inversion Hf as [r Hr|r c x Hc Hp _]; subst; [congruence|].
      by destruct (Hnone c Hc) as [_ []]. }
    by rewrite Hempty.
Qed.

(** The seeded forest: removing id 2 previews and deletes B and D, and id 9
    is unknown. *)
Lemma remove_formula_subtree_witness :
  let m := init 0 true in
  exists (fuel0 : nat) (to_delete : list Z),
    (forall x, x ∈ to_delete <-> in_subtree (_formulas m) 2 x)
    /\ forall fuel, (fuel0 <= fuel)%nat ->
       remove_formula fuel 2 false m
       = (Some (true, Formula.name <$>
                        filter (fun f => Formula.id f ∈ to_delete) (_formulas m)),
          m).
Proof.
  intros m.
  destruct (remove_formula_subtree m 2) as (fuel0 & D & HD & H).
  - apply parent_before_child_Acc. reflexivity.
  - exists fuel0, D. split; [exact HD|].
    intros fuel Hfuel. destruct (H fuel Hfuel) as [Hpresent _].
    apply Hpresent. eexists. split; [right; left|reflexivity].
Defined.

(** The same calls, run with a recursion budget of 3. *)
Example remove_formula_seed :
  let m := init 0 true in
  remove_formula 3 2 false m = (Some (true, ["B定式"; "D定式"]), m)
  /\ fst (remove_formula 3 2 true m) = Some (true, ["B定式"; "D定式"])
  /\ _formulas (snd (remove_formula 3 2 true m))
     = [ Formula.mk 1 "A定式" None [3] ACTIVE (Some 0);
         Formula.mk 3 "C定式" (Some 1) [] INACTIVE None ]
  /\ remove_formula 3 9 true m = (Some (false, []), m).
Proof. vm_compute. repeat split; reflexivity. Qed.

(** ** Persistence *)

Lemma _save_data_calls {A : Type} (m : Manager A) :
  data_callback m = true ->
  callback_calls (_save_data m) = S (callback_calls m).
Proof. intros H. unfold _save_data. by rewrite H. Qed.

(** C3 as stated, refuted: clearing an empty list changes neither the node
    list nor the progress map nor the date, and the callback runs. *)
Lemma persistence_without_change :
  ~ persists_iff_changed 0 Clear (mkManager true 0%nat [] None ∅).
Proof. intros [_ H]. specialize (H eq_refl). discriminate H. Qed.

(** Two more calls that persist a state they did not change: renaming a
    node to the name it has, and advancing a tracked root without children
    from level 0. *)
Example rename_and_advance_persist_unchanged :
  let m := mkManager true 0%nat
             [Formula.mk 1 "a" None [] ACTIVE (Some 0)] None {[1 := 0]} in
  ~ persists_iff_changed 0 (Rename 1 " a ") m
  /\ ~ persists_iff_changed 0 (Advance 1) m.
Proof.
  intros m. split; intros [_ H]; specialize (H eq_refl); discriminate H.
Qed.

Ltac commit_leaf Hcb :=
  simpl; rewrite ?_save_data_calls by exact Hcb; simpl;
  split; [lia | first [discriminate | reflexivity | done]].

Lemma run_command_commit (today : date) (c : command) (m : Manager Formula) :
  data_callback m = true ->
  callback_calls (snd (run_command today c m))
  = (callback_calls m
     + (if committed c (fst (run_command today c m)) m then 1 else 0))%nat
  /\ (committed c (fst (run_command today c m)) m = false ->
      snd (run_command today c m) = m).
Proof.
  intros Hcb. destruct c as [name p|fuel i confirm|i new_name|i|root_id|]; simpl.
  - unfold add_formula.
    destruct (bool_decide (last_addition_date m = Some today));
      [commit_leaf Hcb|].
    destruct (bool_decide (strip name = EmptyString)); [commit_leaf Hcb|].
    destruct (truthy p && _); commit_leaf Hcb.
  - unfold remove_formula.
    destruct (get_descendants fuel (_formulas m) i) as [D|]; [|commit_leaf Hcb].
    destruct (Formula.name <$> _) as [|n ns]; [commit_leaf Hcb|].
    destruct confirm; commit_leaf Hcb.
  - unfold update_formula_name.
    destruct (bool_decide (strip new_name = EmptyString)); [commit_leaf Hcb|].
    destruct (get_formula_by_id (_formulas m) i); commit_leaf Hcb.
  - unfold change_formula_status.
    destruct (get_formula_by_id (_formulas m) i) as [f|]; [|commit_leaf Hcb].
    destruct (bool_decide (Formula.status f = ACTIVE)); commit_leaf Hcb.
  - unfold execute_next_level.
    destruct (active_tree_progress m !! root_id) as [lvl|] eqn:E.
    + rewrite bool_decide_eq_true_2 by (by eexists).
      destruct (get_nodes_at_level _ _ _); commit_leaf Hcb.
    + rewrite bool_decide_eq_false_2 by (intros [? ?]; congruence).
      commit_leaf Hcb.
  - commit_leaf Hcb.
Qed.

(** C3, amended.  With a callback injected, every call invokes it exactly
    once when the call goes through to its mutation (add answers ok; a
    confirmed remove finds something; rename, toggle and import answer true;
    advance is called on a tracked root; clear always) and not at all
    otherwise, and in that case the whole state is what it was.  So a call
    that changes the node list, the progress map or the date has invoked the
    callback exactly once. *)
Theorem persistence_on_commit :
  (forall (today : date) (c : command) (m : Manager Formula),
      data_callback m = true ->
      let r := run_command today c m in
      callback_calls (snd r)
      = (callback_calls m + (if committed c (fst r) m then 1 else 0))%nat
      /\ (committed c (fst r) m = false -> snd r = m)
      /\ (engine_state (snd r) <> engine_state m ->
          callback_calls (snd r) = S (callback_calls m)))
  /\ (forall (json_loads : string -> option json) (json_data : string)
             (m : Manager json),
        data_callback m = true ->
        let r := import_formulas json_loads json_data m in
        callback_calls (snd r)
        = (callback_calls m + (if fst r then 1 else 0))%nat
        /\ (fst r = false -> snd r = m)
        /\ (engine_state (snd r) <> engine_state m ->
            callback_calls (snd r) = S (callback_calls m))).
Proof.
  split.
  - intros today c m Hcb r. subst r.
    destruct (run_command_commit today c m Hcb) as [Hcalls Hsame].
    split; [exact Hcalls|]. split; [exact Hsame|].
    intros Hchanged.
    destruct (committed c (fst (run_command today c m)) m).
    + rewrite Hcalls. lia.
    + destruct Hchanged. by rewrite Hsame.
  - intros json_loads json_data m Hcb r. subst r.
    assert (H : callback_calls (snd (import_formulas json_loads json_data m))
                = (callback_calls m
                   + (if fst (import_formulas json_loads json_data m)
                      then 1 else 0))%nat
                /\ (fst (import_formulas json_loads json_data m) = false ->
                    snd (import_formulas json_loads json_data m) = m)).
    { unfold import_formulas.
      destruct (json_loads json_data) as [[]|]; commit_leaf Hcb. }
    destruct H as [Hcalls Hsame].
    split; [exact Hcalls|]. split; [exact Hsame|].
    intros Hchanged.
    destruct (fst (import_formulas json_loads json_data m)).
    + rewrite Hcalls. lia.
    + destruct Hchanged. by rewrite Hsame.
Qed.

(** On the seeded forest with a callback: a dry-run remove does not
    persist, a confirmed one persists once. *)
Lemma persistence_on_commit_witness :
  let m := init 0 true in
  callback_calls (snd (run_command 0 (Remove 3 2 false) m)) = 0%nat
  /\ callback_calls (snd (run_command 0 (Remove 3 2 true) m)) = 1%nat
  /\ callback_calls
       (snd (import_formulas (fun _ => Some (JList [])) "[]" (set_formulas [] m)))
     = 1%nat.
Proof.
  intros m.
  destruct persistence_on_commit as [Hcmd Himp].
  destruct (Hcmd 0 (Remove 3 2 false) m eq_refl) as [H1 _].
  destruct (Hcmd 0 (Remove 3 2 true) m eq_refl) as [H2 _].
  destruct (Himp (fun _ => Some (JList [])) "[]" (set_formulas [] m) eq_refl)
    as [H3 _].
  split; [exact H1|]. split; [exact H2|exact H3].
Defined.

(** ** The children index under add and remove *)

(** C2 as stated, refuted: the one-node list whose node names the absent id
    2 as parent satisfies the index; after [add_formula("b")] the new node
    has id 2 and an empty children list, while node 1 names it as parent. *)
Lemma children_index_broken_by_add :
  let m := mkManager true 0%nat
             [Formula.mk 1 "a" (Some 2) [] INACTIVE None] None ∅ in
  let cs := [(0, Add "b" None)] in
  children_index (_formulas m)
  /\ Forall (fun dc => is_add_or_remove (snd dc) = true) cs
  /\ ~ children_index (_formulas (run_commands cs m)).
Proof.
  intros m cs. split; [|split].
  - intros n Hn x. apply list_elem_of_singleton in Hn as ->. simpl. split.
    + intros Hx. by apply elem_of_nil in Hx.
    + intros (c & Hc & _ & Hp). apply list_elem_of_singleton in Hc as ->.
      discriminate Hp.
  - repeat constructor.
  - intros H.
    assert (Hin : Formula.mk 2 "b" None [] INACTIVE None
                  ∈ _formulas (run_commands cs m)) by (right; left).
    destruct (H _ Hin 1) as [_ Hback].
    assert (Hx : 1 ∈ Formula.children (Formula.mk 2 "b" None [] INACTIVE None)).
    { apply Hback. eexists. split; [left|]. split; reflexivity. }
    by apply elem_of_nil in Hx.
Qed.

(** With parent id 0 the index breaks even on a well-formed forest: node 0
    exists, [add_formula("x", 0)] stores parent 0 in the new node and does not
    touch the children list of node 0. *)
Example children_index_broken_by_zero_parent :
  let fs := [Formula.mk 0 "r" None [] INACTIVE None] in
  let m := mkManager true 0%nat fs None ∅ in
  well_formed fs
  /\ _formulas (snd (add_formula 0 "x" (Some 0) m))
     = [Formula.mk 0 "r" None [] INACTIVE None;
        Formula.mk 1 "x" (Some 0) [] INACTIVE None].
Proof.
  intros fs m. split; [|reflexivity]. split; [|split].
  - apply NoDup_singleton.
  - intros f p Hf Hp. apply list_elem_of_singleton in Hf as ->. discriminate Hp.
  - intros n Hn x. apply list_elem_of_singleton in Hn as ->. simpl. split.
    + intros Hx. by apply elem_of_nil in Hx.
    + intros (c & Hc & _ & Hp). apply list_elem_of_singleton in Hc as ->.
      discriminate Hp.
Qed.

(** With unique ids, updating the first match is updating every match. *)
Lemma update_first_fmap (i : Z) (g : Formula -> Formula) (fs : list Formula) :
  NoDup (Formula.id <$> fs) ->
  update_first i g fs
  = (fun f => if bool_decide (Formula.id f = i) then g f else f) <$> fs.
Proof.
  induction fs as [|f fs IH]; [reflexivity|].
  rewrite fmap_cons, NoDup_cons. intros [Hnotin Hnd]. simpl.
  destruct (bool_decide (Formula.id f = i)) eqn:E; [|by rewrite IH].
  apply bool_decide_eq_true in E. f_equal.
  clear IH. induction fs as [|f' fs IH]; [reflexivity|].
  rewrite fmap_cons in Hnotin, Hnd. apply not_elem_of_cons in Hnotin as [Hne Hnotin].
  apply NoDup_cons in Hnd as [_ Hnd]. simpl.
  rewrite bool_decide_eq_false_2 by congruence. f_equal. by apply IH.
Qed.

(** Appending a fresh leaf after an update that registers it with its
    parent keeps the forest well formed. *)
Lemma well_formed_add_node (fs : list Formula) (h : Formula -> Formula)
    (new : Formula) :
  well_formed fs ->
  (forall f, Formula.id (h f) = Formula.id f
             /\ Formula.parent (h f) = Formula.parent f) ->
  Formula.id new = new_id_of fs ->
  Formula.children new = [] ->
  (forall f x, f ∈ fs ->
     x ∈ Formula.children (h f) <->
     x ∈ Formula.children f
     \/ (x = Formula.id new /\ Formula.parent new = Some (Formula.id f))) ->
  (forall p, Formula.parent new = Some p ->
             exists f, f ∈ fs /\ Formula.id f = p) ->
  well_formed ((h <$> fs) ++ [new]).
Proof.
  intros (Hnd & Hres & Hidx) Hh Hid Hleaf Hch Hpar.
  assert (Hfresh : forall f, f ∈ fs -> Formula.id f <> Formula.id new).
  { intros f Hf. pose proof (new_id_of_fresh fs f Hf). lia. }
  assert (Hmem : forall f', f' ∈ (h <$> fs) ++ [new] <->
                            (exists f, f ∈ fs /\ f' = h f) \/ f' = new).
  { intros f'. rewrite elem_of_app, list_elem_of_fmap, list_elem_of_singleton.
    split; (intros [(f & ? & ?) | ?]; [left; by exists f | by right]). }
  split; [|split].
  - rewrite fmap_app, <- list_fmap_compose.
    assert (Formula.id ∘ h <$> fs = Formula.id <$> fs) as ->.
    { apply list_fmap_ext. intros k f _. apply Hh. }
    apply NoDup_app. split; [exact Hnd|]. split; [|apply NoDup_singleton].
    intros x Hx Hx'. apply list_elem_of_singleton in Hx'. simpl in Hx'.
    apply list_elem_of_fmap in Hx as (f & -> & Hf). by apply (Hfresh f).
  - intros f' p Hf' Hp. apply Hmem in Hf' as [(f & Hf & ->) | ->].
    + destruct (Hh f) as [_ Hpf]. rewrite Hpf in Hp.
      destruct (Hres f p Hf Hp) as (q & Hq & Hqid).
      exists (h q). split; [apply Hmem; left; by exists q|].
      destruct (Hh q) as [Hidq _]. congruence.
    + destruct (Hpar p Hp) as (q & Hq & Hqid).
      exists (h q). split; [apply Hmem; left; by exists q|].
      destruct (Hh q) as [Hidq _]. congruence.
  - intros n Hn x. apply Hmem in Hn as [(f & Hf & ->) | ->].
    + destruct (Hh f) as [Hidf _]. rewrite Hidf, (Hch f x Hf). split.
      * intros [Hx | [-> Hp]].
        -- apply (Hidx f Hf) in Hx as (c & Hc & Hcid & Hcp).
           exists (h c). split; [apply Hmem; left; by exists c|].
           destruct (Hh c) as [? ?]. split; congruence.
        -- exists new. split; [apply Hmem; by right|]. by split.
      * intros (c' & Hc' & Hcid & Hcp).
        apply Hmem in Hc' as [(c & Hc & ->) | ->].
        -- left. apply (Hidx f Hf). exists c.
           destruct (Hh c) as [? ?]. split; [exact Hc|]. split; congruence.
        -- right. by split.
    + rewrite Hleaf. split; [intros Hx; by apply elem_of_nil in Hx|].
      intros (c' & Hc' & _ & Hcp). exfalso.
      apply Hmem in Hc' as [(c & Hc & ->) | ->].
      * destruct (Hh c) as [_ Hpc]. rewrite Hpc in Hcp.
        destruct (Hres c _ Hc Hcp) as (q & Hq & Hqid). by apply (Hfresh q).
      * destruct (Hpar _ Hcp) as (q & Hq & Hqid). by apply (Hfresh q).
Qed.

Lemma add_formula_well_formed (today : date) (name : string)
    (parent_id : option Z) (m : Manager Formula) :
  is_tree_edit (Add name parent_id) = true ->
  well_formed (_formulas m) ->
  well_formed (_formulas (snd (add_formula today name parent_id m))).
Proof.
  intros Hedit Hwf. unfold add_formula.
  destruct (bool_decide (last_addition_date m = Some today)); [exact Hwf|].
  destruct (bool_decide (strip name = EmptyString)); [exact Hwf|].
  destruct (truthy parent_id && _) eqn:Evalid; [exact Hwf|].
  simpl. rewrite _save_data_formulas. simpl.
  destruct parent_id as [p|].
  - simpl in Hedit. apply negb_true_iff in Hedit.
    simpl in Evalid. simpl. rewrite Hedit in Evalid |- *. simpl in Evalid |- *.
    apply negb_false_iff, existsb_exists in Evalid as (f0 & Hf0 & Hid0).
    apply list_elem_of_In in Hf0. apply bool_decide_eq_true in Hid0.
    injection Hid0 as Hid0.
    rewrite update_first_fmap by apply Hwf.
    apply well_formed_add_node; simpl; try reflexivity; try exact Hwf.
    + intros f. by destruct (bool_decide (Formula.id f = p)).
    + intros f x Hf. destruct (bool_decide (Formula.id f = p)) eqn:E; simpl.
      * apply bool_decide_eq_true in E.
        rewrite elem_of_app, list_elem_of_singleton. subst p.
        rewrite E. split; [intros [?|?]; [by left|by right]|].
        intros [?|[? _]]; [by left|by right].
      * apply bool_decide_eq_false in E. split; [tauto|].
        intros [Hx | [_ Hp]]; [exact Hx|congruence].
    + intros q [= <-]. by exists f0.
  - rewrite <- (list_fmap_id (_formulas m)) at 1.
    apply well_formed_add_node; simpl; try reflexivity; try exact Hwf.
    + done.
    + intros f x Hf. split; [tauto|]. by intros [Hx | [_ ?]].
    + done.
Qed.

Lemma in_subtree_child_closed (fs : list Formula) (i : Z) (D : list Z)
    (f : Formula) (p : Z) :
  (forall x, x ∈ D <-> in_subtree fs i x) ->
  f ∈ fs -> Formula.parent f = Some p -> p ∈ D -> Formula.id f ∈ D.
Proof.
  intros HD Hf Hp Hin. apply HD. apply (in_subtree_extend fs i f p); [|done..].
  by apply HD.
Qed.

Lemma filter_ids (P : Z -> Prop) `{!forall x, Decision (P x)}
    (fs : list Formula) :
  Formula.id <$> filter (fun f => P (Formula.id f)) fs
  = filter P (Formula.id <$> fs).
Proof.
  induction fs as [|f fs IH]; [reflexivity|].
  rewrite fmap_cons, !filter_cons.
  destruct (decide (P (Formula.id f))); by rewrite ?fmap_cons, IH.
Qed.

(** Deleting a subtree and stripping its ids from the surviving children
    lists keeps the forest well formed. *)
Lemma well_formed_remove (fs : list Formula) (i : Z) (D : list Z) :
  (forall x, x ∈ D <-> in_subtree fs i x) ->
  well_formed fs ->
  well_formed (strip_children D <$> filter (fun f => Formula.id f ∉ D) fs).
Proof.
  intros HD (Hnd & Hres & Hidx).
  assert (Hmem : forall f',
             f' ∈ strip_children D <$> filter (fun f => Formula.id f ∉ D) fs <->
             exists f, f ∈ fs /\ (Formula.id f ∉ D) /\ f' = strip_children D f).
  { intros f'. rewrite list_elem_of_fmap. split.
    - intros (f & -> & Hf). apply list_elem_of_filter in Hf as [? ?]. by exists f.
    - intros (f & Hf & Hd & ->). exists f. split; [done|].
      by apply list_elem_of_filter. }
  split; [|split].
  - rewrite <- list_fmap_compose.
    change (Formula.id ∘ strip_children D) with Formula.id.
    replace (Formula.id <$> filter (fun f => Formula.id f ∉ D) fs)
      with (filter (fun x => x ∉ D) (Formula.id <$> fs))
      by exact (eq_sym (filter_ids (fun x => x ∉ D) fs)).
    by apply NoDup_filter.
  - intros f' p Hf' Hp. apply Hmem in Hf' as (f & Hf & Hd & ->).
    simpl in Hp. destruct (Hres f p Hf Hp) as (q & Hq & Hqid).
    exists (strip_children D q). split; [|exact Hqid].
    apply Hmem. exists q. split; [exact Hq|]. split; [|reflexivity].
    intros Hqd. apply Hd.
    apply (in_subtree_child_closed fs i D f p HD Hf Hp). by rewrite <- Hqid.
  - intros n' Hn' x. apply Hmem in Hn' as (n & Hn & Hd & ->).
    simpl. rewrite list_elem_of_filter, (Hidx n Hn x). split.
    + intros (Hx & c & Hc & Hcid & Hcp).
      exists (strip_children D c). split; [|by split].
      apply Hmem. exists c. split; [exact Hc|]. split; [|reflexivity].
      by rewrite Hcid.
    + intros (c' & Hc' & Hcid & Hcp).
      apply Hmem in Hc' as (c & Hc & Hcd & ->). simpl in Hcid, Hcp.
      split; [by rewrite <- Hcid|]. by exists c.
Qed.

Lemma remove_formula_well_formed (fuel : nat) (i : Z) (confirm : bool)
    (m : Manager Formula) :
  well_formed (_formulas m) ->
  well_formed (_formulas (snd (remove_formula fuel i confirm m))).
Proof.
  intros Hwf. unfold remove_formula.
  destruct (get_descendants fuel (_formulas m) i) as [D|] eqn:E; [|exact Hwf].
  destruct (Formula.name <$> _) as [|n ns]; [exact Hwf|].
  destruct confirm; simpl; [|exact Hwf].
  rewrite _save_data_formulas. simpl.
  apply (well_formed_remove (_formulas m) i D); [|exact Hwf].
  by apply (get_descendants_spec fuel).
Qed.

Lemma run_command_well_formed (today : date) (c : command) (m : Manager Formula) :
  is_tree_edit c = true ->
  well_formed (_formulas m) ->
  well_formed (_formulas (snd (run_command today c m))).
Proof.
  intros Hedit Hwf. destruct c; try discriminate Hedit; simpl.
  - by apply add_formula_well_formed.
  - by apply remove_formula_well_formed.
Qed.

(** C2, amended.  From a list with unique ids whose parent references all
    name a node of the list and whose children lists are the index of the
    parent references, every sequence of [remove_formula] calls (dry-run or
    confirmed, returning or not) and of [add_formula] calls whose parent is
    absent or not 0, each on any day, leads to a list with the same three
    properties: in particular the children list of every node holds exactly
    the ids of the nodes that name it as parent. *)
Theorem children_index_preserved (cs : list (date * command))
    (m : Manager Formula) :
  well_formed (_formulas m) ->
  Forall (fun dc => is_tree_edit (snd dc) = true) cs ->
  well_formed (_formulas (run_commands cs m))
  /\ children_index (_formulas (run_commands cs m)).
Proof.
  intros Hwf Hcs.
  assert (H : well_formed (_formulas (run_commands cs m))); [|split; [exact H|apply H]].
  revert m Hwf. induction Hcs as [|[today c] cs Hc _ IH]; intros m Hwf; [exact Hwf|].
  simpl. apply IH. by apply run_command_well_formed.
Qed.

Lemma default_formulas_well_formed (today : date) :
  well_formed (default_formulas today).
Proof.
  split; [|split].
  - apply (bool_decide_unpack _). vm_compute. exact I.
  - intros f p Hf Hp. unfold default_formulas in Hf.
    repeat (apply elem_of_cons in Hf as [-> | Hf]);
      try (by apply elem_of_nil in Hf); simpl in Hp; try discriminate Hp;
      injection Hp as <-.
    + destruct (get_formula_by_id_Some (default_formulas today) 1 _ eq_refl).
      eexists; eauto.
    + destruct (get_formula_by_id_Some (default_formulas today) 1 _ eq_refl).
      eexists; eauto.
    + destruct (get_formula_by_id_Some (default_formulas today) 2 _ eq_refl).
      eexists; eauto.
  - intros n Hn x. split.
    + intros Hx. unfold default_formulas in Hn.
      repeat (apply elem_of_cons in Hn as [-> | Hn]);
        try (by apply elem_of_nil in Hn); simpl in Hx;
        repeat (apply elem_of_cons in Hx as [-> | Hx]);
        try (by apply elem_of_nil in Hx).
      * destruct (get_formula_by_id_Some (default_formulas today) 2 _ eq_refl).
        eexists. split; [eassumption|]. by split.
      * destruct (get_formula_by_id_Some (default_formulas today) 3 _ eq_refl).
        eexists. split; [eassumption|]. by split.
      * destruct (get_formula_by_id_Some (default_formulas today) 4 _ eq_refl).
        eexists. split; [eassumption|]. by split.
    + intros (c & Hc & <- & Hp). unfold default_formulas in Hn, Hc.
      repeat (apply elem_of_cons in Hc as [-> | Hc]);
        try (by apply elem_of_nil in Hc); simpl in Hp; try discriminate Hp;
        injection Hp as Hp;
        repeat (apply elem_of_cons in Hn as [-> | Hn]);
        try (by apply elem_of_nil in Hn); simpl in Hp; try discriminate Hp;
        simpl; set_solver.
Qed.

(** The seeded forest, after adding E under C on day 1, deleting the
    subtree of B on day 1 and adding a root F on day 2. *)
Lemma children_index_preserved_witness :
  let m := init 0 true in
  let cs := [(1, Add "E" (Some 3)); (1, Remove 4 2 true); (2, Add "F" None)] in
  _formulas (run_commands cs m)
  = [ Formula.mk 1 "A定式" None [3] ACTIVE (Some 0);
      Formula.mk 3 "C定式" (Some 1) [5] INACTIVE None;
      Formula.mk 5 "E" (Some 3) [] INACTIVE None;
      Formula.mk 6 "F" None [] INACTIVE None ]
  /\ children_index (_formulas (run_commands cs m)).
Proof.
  intros m cs. split; [reflexivity|].
  apply (children_index_preserved cs m).
  - apply default_formulas_well_formed.
  - repeat constructor.
Defined.

(** * Further properties of the engine *)

(** ** Ids and lookup after [add_formula] *)

Lemma update_first_elem (i : Z) (g : Formula -> Formula) (fs : list Formula)
    (f' : Formula) :
  f' ∈ update_first i g fs -> f' ∈ fs \/ exists f, f ∈ fs /\ f' = g f.
Proof.
  induction fs as [|f fs IH]; simpl; [intros H; by apply elem_of_nil in H|].
  destruct (bool_decide (Formula.id f = i)).
  - intros H. apply elem_of_cons in H as [-> | H].
    + right. exists f. split; [left|reflexivity].
    + left. by right.
  - intros H. apply elem_of_cons in H as [-> | H]; [left; left|].
    destruct (IH H) as [? | (f0 & ? & ?)]; [left; by right|].
    right. exists f0. split; [by right|done].
Qed.

Lemma update_first_ids (i : Z) (g : Formula -> Formula) (fs : list Formula) :
  (forall f, Formula.id (g f) = Formula.id f) ->
  Formula.id <$> update_first i g fs = Formula.id <$> fs.
Proof.
  intros Hg. induction fs as [|f fs IH]; [reflexivity|].
  cbn [update_first].
  destruct (bool_decide (Formula.id f = i)); by rewrite !fmap_cons, ?Hg, ?IH.
Qed.

Lemma get_formula_by_id_app_r (fs : list Formula) (new : Formula) (i : Z) :
  (forall f, f ∈ fs -> Formula.id f <> i) ->
  get_formula_by_id (fs ++ [new]) i
  = if bool_decide (Formula.id new = i) then Some new else None.
Proof.
  intros Hne. unfold get_formula_by_id.
  induction fs as [|f fs IH]; simpl; [by destruct (bool_decide _)|].
  rewrite bool_decide_eq_false_2 by (apply Hne; left).
  apply IH. intros g Hg. apply Hne. by right.
Qed.

Lemma get_formula_by_id_app (l1 l2 : list Formula) (i : Z) :
  get_formula_by_id (l1 ++ l2) i
  = match get_formula_by_id l1 i with
    | Some f => Some f
    | None => get_formula_by_id l2 i
    end.
Proof.
  unfold get_formula_by_id. induction l1 as [|f l1 IH]; simpl; [reflexivity|].
  by destruct (bool_decide (Formula.id f = i)).
Qed.

Lemma get_formula_by_id_update_first_id (p j : Z) (g : Formula -> Formula)
    (fs : list Formula) :
  (forall f, Formula.id (g f) = Formula.id f) ->
  Formula.id <$> get_formula_by_id (update_first p g fs) j
  = Formula.id <$> get_formula_by_id fs j.
Proof.
  intros Hg. destruct (decide (p = j)) as [<- | Hpj].
  - destruct (get_formula_by_id fs p) as [f|] eqn:E.
    + rewrite (get_formula_by_id_update_first p g fs f Hg E). simpl.
      by rewrite Hg.
    + by rewrite (update_first_absent p g fs E), E.
  - by rewrite get_formula_by_id_update_first_ne.
Qed.

(** The node list a successful [add_formula] leaves. *)
Lemma add_formula_success (today : date) (name : string) (parent_id : option Z)
    (m m' : Manager Formula) (msg : string) :
  add_formula today name parent_id m = ((true, msg), m') ->
  msg = MSG_ADDED (strip name)
  /\ strip name <> EmptyString
  /\ last_addition_date m <> Some today
  /\ (truthy parent_id = true ->
      exists f, f ∈ _formulas m /\ parent_id = Some (Formula.id f))
  /\ _formulas m'
     = (match parent_id with
        | Some p =>
            if truthy parent_id
            then update_first p
                   (fun f => Formula.set_children
                               (Formula.children f ++ [new_id_of (_formulas m)]) f)
                   (_formulas m)
            else _formulas m
        | None => _formulas m
        end)
       ++ [Formula.mk (new_id_of (_formulas m)) (strip name) parent_id []
             INACTIVE None]
  /\ last_addition_date m' = Some today
  /\ active_tree_progress m' = active_tree_progress m.
Proof.
  unfold add_formula.
  destruct (bool_decide (last_addition_date m = Some today)) eqn:Ed; [done|].
  destruct (bool_decide (strip name = EmptyString)) eqn:En; [done|].
  destruct (truthy parent_id && _) eqn:Ev; [done|].
  intros [= <- <-].
  rewrite _save_data_formulas, _save_data_date, _save_data_progress. simpl.
  apply bool_decide_eq_false in Ed, En.
  repeat split; try done.
  intros Ht. rewrite Ht in Ev. simpl in Ev.
  apply negb_false_iff, existsb_exists in Ev as (f & Hf & Hid).
  apply list_elem_of_In in Hf. apply bool_decide_eq_true in Hid.
  exists f. by split.
Qed.

(** After a successful [add_formula] the new node carries an id above every
    id the list had, [get_formula_by_id] of that id returns it (trimmed name,
    inactive, no date, no children), and the list is one node longer. *)
Theorem add_formula_then_lookup (today : date) (name : string)
    (parent_id : option Z) (m m' : Manager Formula) (msg : string) :
  add_formula today name parent_id m = ((true, msg), m') ->
  let new_id := new_id_of (_formulas m) in
  (forall f, f ∈ _formulas m -> Formula.id f < new_id)
  /\ get_formula_by_id (_formulas m') new_id
     = Some (Formula.mk new_id (strip name) parent_id [] INACTIVE None)
  /\ (forall j, j <> new_id ->
        Formula.id <$> get_formula_by_id (_formulas m') j
        = Formula.id <$> get_formula_by_id (_formulas m) j)
  /\ get_formula_count m' = S (get_formula_count m).
Proof.
  intros Hadd new_id. subst new_id.
  apply add_formula_success in Hadd as (_ & _ & _ & _ & Hfs & _ & _).
  set (new_id := new_id_of (_formulas m)) in *.
  assert (Hfresh : forall f, f ∈ _formulas m -> Formula.id f < new_id)
    by (intros f Hf; by apply new_id_of_fresh).
  set (g := fun f => Formula.set_children (Formula.children f ++ [new_id]) f)
    in *.
  assert (Hg : forall f, Formula.id (g f) = Formula.id f) by done.
  set (fs1 := match parent_id with
              | Some p => if truthy parent_id
                          then update_first p g (_formulas m) else _formulas m
              | None => _formulas m
              end) in *.
  assert (Hids : Formula.id <$> fs1 = Formula.id <$> _formulas m).
  { subst fs1. destruct parent_id as [p|]; [|done].
    destruct (truthy (Some p)); [|done]. by apply update_first_ids. }
  assert (Hfresh1 : forall f, f ∈ fs1 -> Formula.id f <> new_id).
  { intros f Hf Heq.
    assert (Hin : Formula.id f ∈ Formula.id <$> _formulas m).
    { rewrite <- Hids. apply list_elem_of_fmap. by exists f. }
    apply list_elem_of_fmap in Hin as (f0 & Hf0 & Hin).
    pose proof (Hfresh f0 Hin). lia. }
  split; [exact Hfresh|]. split; [|split].
  - rewrite Hfs, get_formula_by_id_app_r by exact Hfresh1.
    simpl. by rewrite bool_decide_eq_true_2.
  - intros j Hj. rewrite Hfs, get_formula_by_id_app.
    assert (Hsame : Formula.id <$> get_formula_by_id fs1 j
                    = Formula.id <$> get_formula_by_id (_formulas m) j).
    { subst fs1. destruct parent_id as [p|]; [|done].
      destruct (truthy (Some p)); [|done].
      by apply get_formula_by_id_update_first_id. }
    destruct (get_formula_by_id fs1 j) as [f1|] eqn:E1; [exact Hsame|].
    rewrite <- Hsame. unfold get_formula_by_id. simpl.
    by rewrite bool_decide_eq_false_2 by (simpl; congruence).
  - unfold get_formula_count. rewrite Hfs, length_app. simpl.
    rewrite <- (length_fmap Formula.id fs1), Hids, length_fmap. lia.
Qed.

(** On the seeded forest: a child of C gets id 5. *)
Lemma add_formula_then_lookup_witness :
  let m := init 10 true in
  let m' := snd (add_formula 10 " E " (Some 3) m) in
  get_formula_by_id (_formulas m') 5
  = Some (Formula.mk 5 "E" (Some 3) [] INACTIVE None)
  /\ get_formula_count m' = 5%nat.
Proof.
  intros m m'.
  destruct (add_formula_then_lookup 10 " E " (Some 3) m m' (MSG_ADDED "E") eq_refl)
    as (_ & H1 & _ & H2).
  split; [exact H1|exact H2].
Defined.

(** ** Counting after [remove_formula] *)

Lemma filter_complement_length {A : Type} (P : A -> Prop)
    `{!forall x, Decision (P x)} (l : list A) :
  (length (filter P l) + length (filter (fun x => ~ P x) l))%nat = length l.
Proof.
  induction l as [|x l IH]; [reflexivity|].
  rewrite !filter_cons. destruct (decide (P x)) as [Hx | Hx].
  - rewrite decide_False by tauto. simpl. lia.
  - rewrite decide_True by done. simpl. lia.
Qed.

(** Whenever [remove_formula] returns: it reports "found" exactly when it
    lists at least one name; a confirmed call shortens the node list by
    exactly the number of names it lists, a dry run leaves the state as it
    is. *)
Theorem remove_formula_count (fuel : nat) (i : Z) (confirm : bool)
    (m : Manager Formula) (found : bool) (names : list string) :
  fst (remove_formula fuel i confirm m) = Some (found, names) ->
  (found = true <-> names <> [])
  /\ (get_formula_count (snd (remove_formula fuel i confirm m)) + length names)%nat
     = (if confirm then get_formula_count m
        else get_formula_count m + length names)%nat
  /\ (confirm = false -> snd (remove_formula fuel i confirm m) = m).
Proof.
  unfold remove_formula.
  destruct (get_descendants fuel (_formulas m) i) as [D|]; [|discriminate].
  destruct (Formula.name <$> filter (fun f => Formula.id f ∈ D) (_formulas m))
    as [|n ns] eqn:En.
  - intros [= <- <-]. simpl. split; [split; [discriminate|done]|].
    split; [destruct confirm; lia|done].
  - destruct confirm; simpl; intros [= <- <-].
    + split; [split; [discriminate|done]|]. split; [|discriminate].
      unfold get_formula_count. rewrite _save_data_formulas. simpl.
      rewrite length_fmap.
      change (S (length ns)) with (length (n :: ns)). rewrite <- En, length_fmap.
      rewrite Nat.add_comm.
      apply (filter_complement_length (fun f => Formula.id f ∈ D)).
    + split; [split; [discriminate|done]|]. split; [lia|done].
Qed.

Lemma remove_formula_count_witness :
  let m := init 0 true in
  (get_formula_count (snd (remove_formula 3 2 true m)) + 2)%nat = 4%nat.
Proof.
  intros m.
  destruct (remove_formula_count 3 2 true m true ["B定式"; "D定式"] eq_refl)
    as (_ & H & _).
  exact H.
Defined.

(** ** Rename *)

(** [update_formula_name] refuses a blank name or an unknown id and changes
    nothing; otherwise the node found by the id carries the trimmed name and
    keeps every other field, every other id finds what it found before, and
    the progress map, the date and the number of nodes are kept. *)
Theorem update_formula_name_then_lookup (i : Z) (new_name : string)
    (m : Manager Formula) :
  (strip new_name = EmptyString \/ get_formula_by_id (_formulas m) i = None ->
   update_formula_name i new_name m = (false, m))
  /\ (forall f, strip new_name <> EmptyString ->
        get_formula_by_id (_formulas m) i = Some f ->
        let r := update_formula_name i new_name m in
        fst r = true
        /\ get_formula_by_id (_formulas (snd r)) i
           = Some (Formula.mk (Formula.id f) (strip new_name) (Formula.parent f)
                     (Formula.children f) (Formula.status f)
                     (Formula.last_active_time f))
        /\ (forall j, j <> i ->
              get_formula_by_id (_formulas (snd r)) j
              = get_formula_by_id (_formulas m) j)
        /\ get_formula_count (snd r) = get_formula_count m
        /\ active_tree_progress (snd r) = active_tree_progress m
        /\ last_addition_date (snd r) = last_addition_date m).
Proof.
  split.
  - unfold update_formula_name. intros [Hblank | Hnone].
    + by rewrite (bool_decide_eq_true_2 _ Hblank).
    + rewrite Hnone. by destruct (bool_decide _).
  - intros f Hname Hf r. subst r. unfold update_formula_name.
    rewrite (bool_decide_eq_false_2 _ Hname), Hf. simpl.
    rewrite _save_data_formulas, _save_data_progress, _save_data_date. simpl.
    split; [reflexivity|]. split.
    { by apply (get_formula_by_id_update_first i
                  (Formula.set_name (strip new_name))). }
    split.
    { intros j Hj. by apply get_formula_by_id_update_first_ne. }
    split; [|done].
    unfold get_formula_count. rewrite _save_data_formulas. simpl.
    apply update_first_length.
Qed.

Lemma update_formula_name_then_lookup_witness :
  let m := init 0 true in
  get_formula_by_id (_formulas (snd (update_formula_name 3 "  Z " m))) 3
  = Some (Formula.mk 3 "Z" (Some 1) [] INACTIVE None)
  /\ update_formula_name 3 "   " m = (false, m).
Proof.
  intros m.
  destruct (update_formula_name_then_lookup 3 "  Z " m) as [_ Hok].
  destruct (update_formula_name_then_lookup 3 "   " m) as [Hbad _].
  split.
  - destruct (Hok (Formula.mk 3 "C定式" (Some 1) [] INACTIVE None))
      as (_ & H & _); [discriminate|reflexivity|exact H].
  - apply Hbad. by left.
Defined.

(** ** Where [execute_next_level] lands *)

(** When the tracked root exists, the level stored after a call is not
    negative and names a tier that is not empty: the call never leaves the
    cursor on an empty tier. *)
Theorem execute_next_level_lands (root_id lvl : Z) (m : Manager Formula)
    (node : Formula) :
  active_tree_progress m !! root_id = Some lvl ->
  get_formula_by_id (_formulas m) root_id = Some node ->
  let m' := snd (execute_next_level root_id m) in
  exists lvl',
    active_tree_progress m' !! root_id = Some lvl'
    /\ 0 <= lvl'
    /\ get_nodes_at_level (_formulas m') root_id lvl' <> []
    /\ (forall k, k <> root_id ->
          active_tree_progress m' !! k = active_tree_progress m !! k).
Proof.
  intros Hlvl Hnode m'. subst m'.
  rewrite execute_next_level_formulas.
  unfold execute_next_level. rewrite Hlvl.
  destruct (get_nodes_at_level (_formulas m) root_id (lvl + 1)) as [|n ns] eqn:E;
    simpl; rewrite _save_data_progress; simpl.
  - exists 0. rewrite lookup_insert_eq. split; [done|]. split; [lia|].
    split.
    + unfold get_nodes_at_level. simpl. by rewrite Hnode.
    + intros k Hk. by rewrite lookup_insert_ne.
  - exists (lvl + 1). rewrite lookup_insert_eq. split; [done|].
    split.
    + destruct (decide (lvl + 1 < 0)) as [Hneg|]; [|lia].
      unfold get_nodes_at_level in E.
      by rewrite (bool_decide_eq_true_2 _ Hneg) in E.
    + split; [by rewrite E|].
      intros k Hk. by rewrite lookup_insert_ne.
Qed.

Lemma execute_next_level_lands_witness :
  let m := mkManager true 0%nat (default_formulas 0) None {[1 := 2]} in
  exists lvl',
    active_tree_progress (snd (execute_next_level 1 m)) !! 1 = Some lvl'
    /\ 0 <= lvl'
    /\ get_nodes_at_level (_formulas (snd (execute_next_level 1 m))) 1 lvl' <> [].
Proof.
  intros m.
  destruct (execute_next_level_lands 1 2 m
              (Formula.mk 1 "A定式" None [2; 3] ACTIVE (Some 0)) eq_refl eq_refl)
    as (lvl' & H1 & H2 & H3 & _).
  exists lvl'. split; [exact H1|]. split; [exact H2|exact H3].
Defined.

(** ** Add, then remove the new node *)

Lemma filter_all {A : Type} (P : A -> Prop) `{!forall x, Decision (P x)}
    (l : list A) :
  (forall x, x ∈ l -> P x) -> filter P l = l.
Proof.
  induction l as [|x l IH]; intros Hall; [reflexivity|].
  rewrite filter_cons_True by (apply Hall; left).
  f_equal. apply IH. intros y Hy. apply Hall. by right.
Qed.

Lemma filter_none {A : Type} (P : A -> Prop) `{!forall x, Decision (P x)}
    (l : list A) :
  (forall x, x ∈ l -> ~ P x) -> filter P l = [].
Proof.
  induction l as [|x l IH]; intros Hall; [reflexivity|].
  rewrite filter_cons_False by (apply Hall; left).
  apply IH. intros y Hy. apply Hall. by right.
Qed.

Lemma fmap_fixed {A : Type} (k : A -> A) (l : list A) :
  (forall x, x ∈ l -> k x = x) -> k <$> l = l.
Proof.
  induction l as [|x l IH]; intros H; [reflexivity|].
  rewrite fmap_cons, H by left. f_equal. apply IH. intros y Hy. apply H. by right.
Qed.

(** On a well-formed list, a successful [add_formula] (parent absent or not
    0) followed by the confirmed [remove_formula] of the new id, with any
    recursion budget of at least one call, reports the trimmed name alone
    and gives back the node list as it was before the add; the progress map
    is untouched and the gate of the day stays closed. *)
Theorem add_then_remove_restores (today : date) (name : string)
    (parent_id : option Z) (m m1 : Manager Formula) (msg : string) :
  well_formed (_formulas m) ->
  is_tree_edit (Add name parent_id) = true ->
  add_formula today name parent_id m = ((true, msg), m1) ->
  forall fuel, (1 <= fuel)%nat ->
    let r := remove_formula fuel (new_id_of (_formulas m)) true m1 in
    fst r = Some (true, [strip name])
    /\ _formulas (snd r) = _formulas m
    /\ active_tree_progress (snd r) = active_tree_progress m
    /\ last_addition_date (snd r) = Some today.
Proof.
  intros (Hnd & Hres & Hidx) Hedit Hadd fuel Hfuel r. subst r.
  apply add_formula_success in Hadd as (_ & _ & _ & Hpar & Hfs & Hdate & Hprog).
  set (new_id := new_id_of (_formulas m)) in *.
  set (new := Formula.mk new_id (strip name) parent_id [] INACTIVE None) in *.
  set (g := fun f => Formula.set_children (Formula.children f ++ [new_id]) f)
    in *.
  set (h := fun f => match parent_id with
                     | Some p => if bool_decide (Formula.id f = p) then g f else f
                     | None => f
                     end).
  assert (Hfresh : forall f, f ∈ _formulas m -> Formula.id f <> new_id).
  { intros f Hf. pose proof (new_id_of_fresh _ f Hf). unfold new_id. lia. }
  assert (Hh : forall f, Formula.id (h f) = Formula.id f
                         /\ Formula.parent (h f) = Formula.parent f).
  { intros f. unfold h. destruct parent_id as [p|]; [|done].
    by destruct (bool_decide (Formula.id f = p)). }
  assert (Hfs1 : _formulas m1 = (h <$> _formulas m) ++ [new]).
  { rewrite Hfs. f_equal. unfold h. destruct parent_id as [p|].
    - simpl in Hedit. apply negb_true_iff in Hedit. simpl. rewrite Hedit. simpl.
      by apply update_first_fmap.
    - symmetry. by apply fmap_fixed. }
  assert (Hnew_parent : Formula.parent new <> Some new_id).
  { simpl. intros ->. destruct Hpar as (f & Hf & [= Hid]).
    - simpl in Hedit |- *. by rewrite Hedit.
    - by apply (Hfresh f). }
  assert (Hold_parent : forall f, f ∈ _formulas m ->
                                  Formula.parent (h f) <> Some new_id).
  { intros f Hf Hp. destruct (Hh f) as [_ Hpf]. rewrite Hpf in Hp.
    destruct (Hres f new_id Hf Hp) as (q & Hq & Hqid). by apply (Hfresh q). }
  assert (Hchildren : get_children_formulas (_formulas m1) new_id = []).
  { unfold get_children_formulas. rewrite Hfs1. apply filter_none.
    intros f Hf. apply elem_of_app in Hf as [Hf | Hf].
    - apply list_elem_of_fmap in Hf as (f0 & -> & Hf0). by apply Hold_parent.
    - apply list_elem_of_singleton in Hf as ->. exact Hnew_parent. }
  assert (Hget : get_descendants fuel (_formulas m1) new_id = Some [new_id]).
  { destruct fuel as [|fuel]; [lia|].
    rewrite get_descendants_unfold, Hchildren. reflexivity. }
  assert (Hold_id : forall f, f ∈ h <$> _formulas m -> Formula.id f <> new_id).
  { intros f Hf. apply list_elem_of_fmap in Hf as (f0 & -> & Hf0).
    destruct (Hh f0) as [-> _]. by apply Hfresh. }
  assert (Hin : filter (fun f => Formula.id f ∈ [new_id]) (_formulas m1) = [new]).
  { rewrite Hfs1, filter_app, filter_none, filter_all; [done| |].
    - intros f Hf. apply list_elem_of_singleton in Hf as ->. by left.
    - intros f Hf Hid. apply list_elem_of_singleton in Hid. by apply (Hold_id f). }
  assert (Hout : filter (fun f => Formula.id f ∉ [new_id]) (_formulas m1)
                 = h <$> _formulas m).
  { rewrite Hfs1, filter_app, filter_all, filter_none; [by rewrite app_nil_r| |].
    - intros f Hf Hid. apply list_elem_of_singleton in Hf as ->. apply Hid. by left.
    - intros f Hf Hid. apply list_elem_of_singleton in Hid. by apply (Hold_id f). }
  assert (Hstrip : strip_children [new_id] <$> (h <$> _formulas m) = _formulas m).
  { rewrite <- list_fmap_compose. apply fmap_fixed. intros f Hf. simpl.
    assert (Hkeep : filter (fun c => c ∉ [new_id]) (Formula.children f)
                    = Formula.children f).
    { apply filter_all. intros c Hc Hcn. apply list_elem_of_singleton in Hcn as ->.
      apply (Hidx f Hf) in Hc as (q & Hq & Hqid & _). by apply (Hfresh q). }
    unfold strip_children, h. destruct f as [fi fn fp fc fst' fl]. simpl in *.
    destruct parent_id as [p|]; [|simpl; by rewrite Hkeep].
    destruct (bool_decide (fi = p)); simpl; [|by rewrite Hkeep].
    rewrite filter_app, Hkeep, filter_none, app_nil_r; [done|].
    intros c Hc Hcn. apply list_elem_of_singleton in Hc as ->. apply Hcn. by left. }
  rewrite (remove_formula_unfold fuel new_id true m1 [new_id] Hget), Hin, Hout.
  simpl. rewrite _save_data_formulas, _save_data_progress, _save_data_date. simpl.
  by rewrite Hstrip, Hprog, Hdate.
Qed.

(** On the seeded forest: add E under C, delete E, and the four seed nodes
    are back. *)
Lemma add_then_remove_restores_witness :
  let m := init 10 true in
  let m1 := snd (add_formula 10 " E " (Some 3) m) in
  fst (remove_formula 1 5 true m1) = Some (true, ["E"])
  /\ _formulas (snd (remove_formula 1 5 true m1)) = default_formulas 10.
Proof.
  intros m m1.
  destruct (add_then_remove_restores 10 " E " (Some 3) m m1 (MSG_ADDED "E")
              (default_formulas_well_formed 10) eq_refl eq_refl 1%nat)
    as (H1 & H2 & _); [lia|].
  split; [exact H1|exact H2].
Defined.

(** ** Toggling and the staleness check *)

Lemma get_formula_by_id_split (l1 l2 : list Formula) (f : Formula) (i : Z) :
  (forall g, g ∈ l1 -> Formula.id g <> i) -> Formula.id f = i ->
  get_formula_by_id (l1 ++ f :: l2) i = Some f.
Proof.
  intros Hl1 Hf. rewrite get_formula_by_id_app.
  rewrite (proj2 (get_formula_by_id_None l1 i) Hl1).
  unfold get_formula_by_id. simpl. by rewrite bool_decide_eq_true_2.
Qed.

Lemma update_first_split (l1 l2 : list Formula) (f : Formula) (i : Z)
    (g : Formula -> Formula) :
  (forall g, g ∈ l1 -> Formula.id g <> i) -> Formula.id f = i ->
  update_first i g (l1 ++ f :: l2) = l1 ++ g f :: l2.
Proof.
  intros Hl1 Hf. induction l1 as [|x l1 IH]; simpl.
  - by rewrite bool_decide_eq_true_2.
  - rewrite bool_decide_eq_false_2 by (apply Hl1; left).
    f_equal. apply IH. intros y Hy. apply Hl1. by right.
Qed.

(** Right after a toggle the toggled node is not reported stale, on that
    day and up to seven days later: the report is the report of the other
    nodes.  If the toggle switched the node on and nothing touches it, it is
    reported from the eighth day on, at its place in list order. *)
Theorem toggle_then_staleness (today : date) (i : Z) (m : Manager Formula)
    (l1 l2 : list Formula) (f : Formula) :
  _formulas m = l1 ++ f :: l2 ->
  (forall g, g ∈ l1 -> Formula.id g <> i) ->
  Formula.id f = i ->
  let m' := snd (change_formula_status today i m) in
  (forall d, d <= today + 7 ->
      check_inactive_formulas d m'
      = check_inactive_formulas d (set_formulas (l1 ++ l2) m))
  /\ (Formula.status f <> ACTIVE ->
      forall d, today + 7 < d ->
        check_inactive_formulas d m'
        = check_inactive_formulas d (set_formulas l1 m)
          ++ Formula.name f :: check_inactive_formulas d (set_formulas l2 m)).
Proof.
  intros Hfs Hl1 Hid m'. subst m'.
  pose proof (get_formula_by_id_split l1 l2 f i Hl1 Hid) as Hget.
  rewrite <- Hfs in Hget.
  unfold change_formula_status. rewrite Hget.
  destruct (bool_decide (Formula.status f = ACTIVE)) eqn:Est; simpl.
  - split; [|intros Hne; by apply bool_decide_eq_true in Est].
    intros d Hd. unfold check_inactive_formulas.
    rewrite _save_data_formulas. simpl.
    rewrite Hfs, update_first_split by done.
    rewrite !filter_app, filter_cons.
    assert (is_stale (minus_days d 7) (Formula.set_status INACTIVE f) = false)
      as -> by reflexivity.
    reflexivity.
  - split.
    + intros d Hd. unfold check_inactive_formulas.
      rewrite _save_data_formulas. simpl.
      rewrite Hfs, update_first_split by done.
      rewrite !filter_app, filter_cons.
      assert (is_stale (minus_days d 7)
                (Formula.set_last_active_time (Some today)
                   (Formula.set_status ACTIVE f)) = false) as ->.
      { unfold is_stale, minus_days. simpl.
        apply bool_decide_eq_false_2. lia. }
      reflexivity.
    + intros _ d Hd. unfold check_inactive_formulas.
      rewrite _save_data_formulas. simpl.
      rewrite Hfs, update_first_split by done.
      rewrite !filter_app, filter_cons.
      assert (is_stale (minus_days d 7)
                (Formula.set_last_active_time (Some today)
                   (Formula.set_status ACTIVE f)) = true) as ->.
      { unfold is_stale, minus_days. simpl.
        apply bool_decide_eq_true_2. lia. }
      simpl. by rewrite fmap_app, fmap_cons.
Qed.

(** The seeded forest on day 20: C is switched on; on day 27 nothing new is
    reported, on day 28 C is. *)
Lemma toggle_then_staleness_witness :
  let m := init 0 true in
  let m' := snd (change_formula_status 20 3 m) in
  check_inactive_formulas 27 m' = ["A定式"; "B定式"]
  /\ check_inactive_formulas 28 m' = ["A定式"; "B定式"; "C定式"].
Proof.
  intros m m'.
  destruct (toggle_then_staleness 20 3 m
              [Formula.mk 1 "A定式" None [2; 3] ACTIVE (Some 0);
               Formula.mk 2 "B定式" (Some 1) [4] ACTIVE (Some 0)]
              [Formula.mk 4 "D定式" (Some 2) [] INACTIVE None]
              (Formula.mk 3 "C定式" (Some 1) [] INACTIVE None) eq_refl)
    as [Hsoon Hlate].
  - intros g Hg. repeat (apply elem_of_cons in Hg as [-> | Hg]);
      try (by apply elem_of_nil in Hg); discriminate.
  - reflexivity.
  - subst m'. split.
    + rewrite (Hsoon 27) by lia. reflexivity.
    + rewrite (Hlate ltac:(discriminate) 28) by lia. reflexivity.
Defined.

(** ** Forests built by the engine *)

Lemma parent_before_child_iff (fs : list Formula) :
  parent_before_child fs = true <-> parents_before fs.
Proof.
  split; [intros H; exact (parent_before_child_spec fs H)|].
  intros H. unfold parent_before_child. apply forallb_forall.
  intros f Hf. apply list_elem_of_In in Hf.
  destruct (Formula.parent f) as [p|] eqn:E; [|done].
  apply bool_decide_eq_true_2. by apply (H f).
Qed.

Lemma new_id_of_positive (fs : list Formula) :
  (forall f, f ∈ fs -> 1 <= Formula.id f) -> 1 <= new_id_of fs.
Proof.
  intros H. destruct fs as [|f fs]; [done|].
  pose proof (new_id_of_fresh (f :: fs) f ltac:(left)).
  pose proof (H f ltac:(left)). lia.
Qed.

(** A change of names, statuses or dates keeps the forest. *)
Lemma engine_built_fmap (fs : list Formula) (h : Formula -> Formula) :
  (forall f, Formula.id (h f) = Formula.id f
             /\ Formula.parent (h f) = Formula.parent f
             /\ Formula.children (h f) = Formula.children f) ->
  engine_built fs -> engine_built (h <$> fs).
Proof.
  intros Hh (Hnd & Hpos & Hord & Hidx).
  assert (Hmem : forall f', f' ∈ h <$> fs <-> exists f, f ∈ fs /\ f' = h f).
  { intros f'. rewrite list_elem_of_fmap. split; intros (f & ? & ?); by exists f. }
  split; [|split; [|split]].
  - rewrite <- list_fmap_compose.
    assert (Formula.id ∘ h <$> fs = Formula.id <$> fs) as ->; [|done].
    apply list_fmap_ext. intros k f _. apply Hh.
  - intros f' Hf'. apply Hmem in Hf' as (f & Hf & ->).
    destruct (Hh f) as [-> _]. by apply Hpos.
  - intros f' p Hf' Hp. apply Hmem in Hf' as (f & Hf & ->).
    destruct (Hh f) as (Hi & Hpar & _). rewrite Hi. rewrite Hpar in Hp.
    by apply (Hord f).
  - intros n' Hn' x. apply Hmem in Hn' as (n & Hn & ->).
    destruct (Hh n) as (Hi & _ & Hc). rewrite Hi, Hc, (Hidx n Hn x). split.
    + intros (c & Hc' & Hcid & Hcp). exists (h c).
      destruct (Hh c) as (? & ? & _).
      split; [apply Hmem; by exists c|]. split; congruence.
    + intros (c' & Hc' & Hcid & Hcp). apply Hmem in Hc' as (c & Hc' & ->).
      destruct (Hh c) as (? & ? & _). exists c. split; [done|]. split; congruence.
Qed.

Lemma engine_built_update_first (fs : list Formula) (i : Z)
    (g : Formula -> Formula) :
  (forall f, Formula.id (g f) = Formula.id f
             /\ Formula.parent (g f) = Formula.parent f
             /\ Formula.children (g f) = Formula.children f) ->
  engine_built fs -> engine_built (update_first i g fs).
Proof.
  intros Hg Hfs. rewrite update_first_fmap by apply Hfs.
  apply engine_built_fmap; [|exact Hfs].
  intros f. by destruct (bool_decide (Formula.id f = i)).
Qed.

(** Appending the new node of [add_formula]. *)
Lemma engine_built_add_node (fs : list Formula) (h : Formula -> Formula)
    (new : Formula) :
  engine_built fs ->
  (forall f, Formula.id (h f) = Formula.id f
             /\ Formula.parent (h f) = Formula.parent f) ->
  Formula.id new = new_id_of fs ->
  Formula.children new = [] ->
  (forall f x, f ∈ fs ->
     x ∈ Formula.children (h f) <->
     x ∈ Formula.children f
     \/ (x = Formula.id new /\ Formula.parent new = Some (Formula.id f))) ->
  (forall p, Formula.parent new = Some p -> p < Formula.id new) ->
  engine_built ((h <$> fs) ++ [new]).
Proof.
  intros (Hnd & Hpos & Hord & Hidx) Hh Hid Hleaf Hch Hpar.
  assert (Hfresh : forall f, f ∈ fs -> Formula.id f < Formula.id new).
  { intros f Hf. rewrite Hid. by apply new_id_of_fresh. }
  assert (Hmem : forall f', f' ∈ (h <$> fs) ++ [new] <->
                            (exists f, f ∈ fs /\ f' = h f) \/ f' = new).
  { intros f'. rewrite elem_of_app, list_elem_of_fmap, list_elem_of_singleton.
    split; (intros [(f & ? & ?) | ?]; [left; by exists f | by right]). }
  split; [|split; [|split]].
  - rewrite fmap_app, <- list_fmap_compose.
    assert (Formula.id ∘ h <$> fs = Formula.id <$> fs) as ->.
    { apply list_fmap_ext. intros k f _. apply Hh. }
    apply NoDup_app. split; [exact Hnd|]. split; [|apply NoDup_singleton].
    intros x Hx Hx'. apply list_elem_of_singleton in Hx'. simpl in Hx'.
    apply list_elem_of_fmap in Hx as (f & -> & Hf).
    pose proof (Hfresh f Hf). lia.
  - intros f' Hf'. apply Hmem in Hf' as [(f & Hf & ->) | ->].
    + destruct (Hh f) as [-> _]. by apply Hpos.
    + rewrite Hid. by apply new_id_of_positive.
  - intros f' p Hf' Hp. apply Hmem in Hf' as [(f & Hf & ->) | ->].
    + destruct (Hh f) as [Hi Hpf]. rewrite Hi. rewrite Hpf in Hp.
      by apply (Hord f).
    + by apply Hpar.
  - intros n Hn x. apply Hmem in Hn as [(f & Hf & ->) | ->].
    + destruct (Hh f) as [Hidf _]. rewrite Hidf, (Hch f x Hf). split.
      * intros [Hx | [-> Hp]].
        -- apply (Hidx f Hf) in Hx as (c & Hc & Hcid & Hcp).
           exists (h c). split; [apply Hmem; left; by exists c|].
           destruct (Hh c) as [? ?]. split; congruence.
        -- exists new. split; [apply Hmem; by right|]. by split.
      * intros (c' & Hc' & Hcid & Hcp).
        apply Hmem in Hc' as [(c & Hc & ->) | ->].
        -- left. apply (Hidx f Hf). exists c.
           destruct (Hh c) as [? ?]. split; [exact Hc|]. split; congruence.
        -- right. by split.
    + rewrite Hleaf. split; [intros Hx; by apply elem_of_nil in Hx|].
      intros (c' & Hc' & _ & Hcp). exfalso.
      apply Hmem in Hc' as [(c & Hc & ->) | ->].
      * destruct (Hh c) as [_ Hpc]. rewrite Hpc in Hcp.
        pose proof (Hord c _ Hc Hcp). pose proof (Hfresh c Hc). lia.
      * pose proof (Hpar _ Hcp). lia.
Qed.

Lemma add_formula_engine_built (today : date) (name : string)
    (parent_id : option Z) (m : Manager Formula) :
  engine_built (_formulas m) ->
  engine_built (_formulas (snd (add_formula today name parent_id m))).
Proof.
  intros Hb.
  destruct (add_formula today name parent_id m) as [[ok msg] m'] eqn:E.
  destruct ok.
  2:{ unfold add_formula in E.
      destruct (bool_decide (last_addition_date m = Some today));
        [inversion E; by subst|].
      destruct (bool_decide (strip name = EmptyString));
        [inversion E; by subst|].
      destruct (truthy parent_id && _); [inversion E; by subst|].
      discriminate E. }
  apply add_formula_success in E as (_ & _ & _ & Hpar & Hfs & _ & _).
  simpl. rewrite Hfs. clear Hfs.
  destruct Hb as (Hnd & Hpos & Hord & Hidx).
  pose proof (new_id_of_positive _ Hpos) as Hnew.
  assert (Hb : engine_built (_formulas m)) by done.
  destruct parent_id as [p|]; [destruct (truthy (Some p)) eqn:Et|].
  - destruct (Hpar eq_refl) as (f0 & Hf0 & [= ->]).
    rewrite update_first_fmap by exact Hnd.
    apply engine_built_add_node; simpl; try done.
    + intros f. by destruct (bool_decide (Formula.id f = Formula.id f0)).
    + intros f x Hf.
      destruct (bool_decide (Formula.id f = Formula.id f0)) eqn:E; simpl.
      * apply bool_decide_eq_true in E.
        rewrite elem_of_app, list_elem_of_singleton, E.
        split; [intros [?|?]; [by left|by right]|].
        intros [?|[? _]]; [by left|by right].
      * apply bool_decide_eq_false in E. split; [tauto|].
        intros [Hx | [_ Hp]]; [exact Hx|congruence].
    + intros q [= <-]. by apply new_id_of_fresh.
  - simpl in Et. apply negb_false_iff, bool_decide_eq_true in Et as ->.
    rewrite <- (fmap_fixed (fun f => f) (_formulas m)) at 1 by done.
    apply engine_built_add_node; simpl; try done.
    + intros f x Hf. split; [tauto|].
      intros [Hx | [_ [= Hz]]]; [exact Hx|].
      pose proof (Hpos f Hf). lia.
    + intros q [= <-]. lia.
  - rewrite <- (fmap_fixed (fun f => f) (_formulas m)) at 1 by done.
    apply engine_built_add_node; simpl; try done.
    intros f x Hf. split; [tauto|]. by intros [Hx | [_ ?]].
Qed.

(** Deleting the nodes whose id is in any list [D] and stripping [D] from
    the surviving children lists keeps the forest. *)
Lemma engine_built_remove (fs : list Formula) (D : list Z) :
  engine_built fs ->
  engine_built (strip_children D <$> filter (fun f => Formula.id f ∉ D) fs).
Proof.
  intros (Hnd & Hpos & Hord & Hidx).
  assert (Hmem : forall f',
             f' ∈ strip_children D <$> filter (fun f => Formula.id f ∉ D) fs <->
             exists f, f ∈ fs /\ (Formula.id f ∉ D) /\ f' = strip_children D f).
  { intros f'. rewrite list_elem_of_fmap. split.
    - intros (f & -> & Hf). apply list_elem_of_filter in Hf as [? ?]. by exists f.
    - intros (f & Hf & Hd & ->). exists f. split; [done|].
      by apply list_elem_of_filter. }
  split; [|split; [|split]].
  - rewrite <- list_fmap_compose.
    change (Formula.id ∘ strip_children D) with Formula.id.
    replace (Formula.id <$> filter (fun f => Formula.id f ∉ D) fs)
      with (filter (fun x => x ∉ D) (Formula.id <$> fs))
      by exact (eq_sym (filter_ids (fun x => x ∉ D) fs)).
    by apply NoDup_filter.
  - intros f' Hf'. apply Hmem in Hf' as (f & Hf & _ & ->). exact (Hpos f Hf).
  - intros f' p Hf' Hp. apply Hmem in Hf' as (f & Hf & _ & ->).
    exact (Hord f p Hf Hp).
  - intros n' Hn' x. apply Hmem in Hn' as (n & Hn & Hd & ->).
    simpl. rewrite list_elem_of_filter, (Hidx n Hn x). split.
    + intros (Hx & c & Hc & Hcid & Hcp).
      exists (strip_children D c). split; [|by split].
      apply Hmem. exists c. split; [exact Hc|]. split; [|reflexivity].
      by rewrite Hcid.
    + intros (c' & Hc' & Hcid & Hcp).
      apply Hmem in Hc' as (c & Hc & Hcd & ->). simpl in Hcid, Hcp.
      split; [by rewrite <- Hcid|]. by exists c.
Qed.

Lemma run_command_engine_built (today : date) (c : command)
    (m : Manager Formula) :
  engine_built (_formulas m) ->
  engine_built (_formulas (snd (run_command today c m))).
Proof.
  intros Hb. destruct c as [name p|fuel i confirm|i new_name|i|root_id|]; simpl.
  - by apply add_formula_engine_built.
  - unfold remove_formula.
    destruct (get_descendants fuel (_formulas m) i) as [D|]; [|exact Hb].
    destruct (Formula.name <$> _); [exact Hb|].
    destruct confirm; simpl; [|exact Hb].
    rewrite _save_data_formulas. simpl. by apply engine_built_remove.
  - unfold update_formula_name.
    destruct (bool_decide (strip new_name = EmptyString)); [exact Hb|].
    destruct (get_formula_by_id (_formulas m) i); [|exact Hb].
    simpl. rewrite _save_data_formulas. simpl.
    by apply engine_built_update_first.
  - unfold change_formula_status.
    destruct (get_formula_by_id (_formulas m) i) as [f|]; [|exact Hb].
    destruct (bool_decide (Formula.status f = ACTIVE)); simpl;
      rewrite _save_data_formulas; simpl; by apply engine_built_update_first.
  - by rewrite execute_next_level_formulas.
  - rewrite _save_data_formulas. simpl.
    split; [apply NoDup_nil_2|].
    split; [intros f Hf; by apply elem_of_nil in Hf|].
    split; [intros f p Hf; by apply elem_of_nil in Hf|].
    intros n Hn. by apply elem_of_nil in Hn.
Qed.

Lemma run_commands_engine_built (cs : list (date * command))
    (m : Manager Formula) :
  engine_built (_formulas m) -> engine_built (_formulas (run_commands cs m)).
Proof.
  revert m. induction cs as [|[today c] cs IH]; intros m Hb; [exact Hb|].
  simpl. apply IH. by apply run_command_engine_built.
Qed.

Lemma default_formulas_engine_built (today : date) :
  engine_built (default_formulas today).
Proof.
  destruct (default_formulas_well_formed today) as (Hnd & _ & Hidx).
  split; [exact Hnd|]. split; [|split; [|exact Hidx]].
  - intros f Hf. unfold default_formulas in Hf.
    repeat (apply elem_of_cons in Hf as [-> | Hf]);
      try (by apply elem_of_nil in Hf); simpl; lia.
  - by apply parent_before_child_iff.
Qed.

(** Every state that calls of the engine reach from the seeded forest (any
    calls, any arguments, any days, parent id 0 included) has unique ids that
    are at least 1, parents with smaller ids than their children, and
    children lists that hold exactly the ids of the nodes naming the node as
    parent. *)
Theorem reachable_engine_built (today : date) (callback : bool)
    (cs : list (date * command)) :
  let fs := _formulas (run_commands cs (init today callback)) in
  NoDup (Formula.id <$> fs)
  /\ (forall f, f ∈ fs -> 1 <= Formula.id f)
  /\ (forall f p, f ∈ fs -> Formula.parent f = Some p -> p < Formula.id f)
  /\ children_index fs.
Proof.
  apply (run_commands_engine_built cs (init today callback)).
  apply default_formulas_engine_built.
Qed.

(** On every state reached from the seeded forest, [remove_formula] returns
    for every id, dry-run or confirmed, from some recursion budget on. *)
Theorem reachable_remove_returns (today : date) (callback : bool)
    (cs : list (date * command)) (i : Z) (confirm : bool) :
  exists fuel0, forall fuel, (fuel0 <= fuel)%nat ->
    is_Some (fst (remove_formula fuel i confirm
                    (run_commands cs (init today callback)))).
Proof.
  set (m := run_commands cs (init today callback)).
  assert (Hb : engine_built (_formulas m)).
  { apply run_commands_engine_built, default_formulas_engine_built. }
  destruct Hb as (_ & _ & Hord & _).
  apply parent_before_child_iff in Hord.
  destruct (get_descendants_total (_formulas m) i
              (parent_before_child_Acc _ Hord i)) as (fuel0 & D & Hget & _).
  exists fuel0. intros fuel Hfuel.
  rewrite (remove_formula_unfold fuel i confirm m D (Hget fuel Hfuel)).
  destruct (Formula.name <$> _); [by eexists|].
  destruct (negb confirm); by eexists.
Qed.

(** ** Names, statuses and activation dates *)

Lemma Forall_update_first (P : Formula -> Prop) (i : Z) (g : Formula -> Formula)
    (fs : list Formula) :
  (forall f, P f -> P (g f)) -> Forall P fs -> Forall P (update_first i g fs).
Proof.
  intros Hg. induction 1 as [|f fs Hf Hfs IH]; simpl; [constructor|].
  destruct (bool_decide (Formula.id f = i)); constructor; auto.
Qed.

Lemma run_command_node_sane (today : date) (c : command) (m : Manager Formula) :
  Forall node_sane (_formulas m) ->
  Forall node_sane (_formulas (snd (run_command today c m))).
Proof.
  intros Hs. destruct c as [name p|fuel i confirm|i new_name|i|root_id|]; simpl.
  - unfold add_formula.
    destruct (bool_decide (last_addition_date m = Some today)); [exact Hs|].
    destruct (bool_decide (strip name = EmptyString)) eqn:En; [exact Hs|].
    destruct (truthy p && _); [exact Hs|].
    simpl. rewrite _save_data_formulas. simpl.
    apply bool_decide_eq_false in En.
    apply Forall_app. split.
    + destruct p as [p|]; [|exact Hs].
      destruct (truthy (Some p)); [|exact Hs].
      apply Forall_update_first; [|exact Hs]. by intros f [? ?].
    + constructor; [|constructor]. split; [exact En|by left].
  - unfold remove_formula.
    destruct (get_descendants fuel (_formulas m) i) as [D|]; [|exact Hs].
    destruct (Formula.name <$> _); [exact Hs|].
    destruct confirm; simpl; [|exact Hs].
    rewrite _save_data_formulas. simpl.
    apply Forall_fmap, Forall_forall. intros f Hf.
    apply list_elem_of_filter in Hf as [_ Hf].
    exact (proj1 (Forall_forall _ _) Hs f Hf).
  - unfold update_formula_name.
    destruct (bool_decide (strip new_name = EmptyString)) eqn:En; [exact Hs|].
    destruct (get_formula_by_id (_formulas m) i); [|exact Hs].
    simpl. rewrite _save_data_formulas. simpl.
    apply bool_decide_eq_false in En.
    apply Forall_update_first; [|exact Hs]. by intros f [_ ?].
  - unfold change_formula_status.
    destruct (get_formula_by_id (_formulas m) i) as [f|]; [|exact Hs].
    destruct (bool_decide (Formula.status f = ACTIVE)); simpl;
      rewrite _save_data_formulas; simpl;
      (apply Forall_update_first; [|exact Hs]); intros f0 [Hn _].
    + split; [exact Hn|by left].
    + split; [exact Hn|]. right. split; [done|by eexists].
  - by rewrite execute_next_level_formulas.
  - rewrite _save_data_formulas. constructor.
Qed.

(** When every node has a name that is not empty and a status that is the
    inactive label or the active label with an activation date, the same
    holds after any calls of the engine: an active node without a date, the
    case [check_inactive_formulas] skips, never arises from the engine's own
    calls. *)
Theorem node_sane_preserved (cs : list (date * command)) (m : Manager Formula) :
  Forall node_sane (_formulas m) ->
  forall f, f ∈ _formulas (run_commands cs m) ->
    Formula.name f <> EmptyString
    /\ (Formula.status f = INACTIVE
        \/ (Formula.status f = ACTIVE /\ is_Some (Formula.last_active_time f))).
Proof.
  intros Hs.
  assert (H : Forall node_sane (_formulas (run_commands cs m))).
  { revert m Hs. induction cs as [|[today c] cs IH]; intros m Hs; [exact Hs|].
    simpl. apply IH. by apply run_command_node_sane. }
  intros f Hf. exact (proj1 (Forall_forall _ _) H f Hf).
Qed.

Lemma default_formulas_node_sane (today : date) :
  Forall node_sane (default_formulas today).
Proof.
  unfold default_formulas.
  apply Forall_cons. split.
  { split; [discriminate|]. right. split; [reflexivity|by eexists]. }
  apply Forall_cons. split.
  { split; [discriminate|]. right. split; [reflexivity|by eexists]. }
  apply Forall_cons. split; [split; [discriminate|by left]|].
  apply Forall_cons. split; [split; [discriminate|by left]|].
  apply Forall_nil_2.
Qed.

Lemma node_sane_preserved_witness :
  let m := run_commands [(1, Toggle 3); (1, Rename 4 " d "); (2, Add "E" (Some 4))]
             (init 0 true) in
  let f := Formula.mk 3 "C定式" (Some 1) [] ACTIVE (Some 1) in
  f ∈ _formulas m
  /\ Formula.name f <> EmptyString
  /\ (Formula.status f = INACTIVE
      \/ (Formula.status f = ACTIVE /\ is_Some (Formula.last_active_time f))).
Proof.
  intros m f.
  assert (Hf : f ∈ _formulas m).
  { apply list_elem_of_lookup_2 with 2%nat. reflexivity. }
  split; [exact Hf|].
  exact (node_sane_preserved
           [(1, Toggle 3); (1, Rename 4 " d "); (2, Add "E" (Some 4))]
           (init 0 true) (default_formulas_node_sane 0) f Hf).
Defined.

(** ** The progress map *)

Lemma get_formula_by_id_update_first_parent (p j : Z) (g : Formula -> Formula)
    (fs : list Formula) :
  (forall f, Formula.id (g f) = Formula.id f) ->
  (forall f, Formula.parent (g f) = Formula.parent f) ->
  Formula.parent <$> get_formula_by_id (update_first p g fs) j
  = Formula.parent <$> get_formula_by_id fs j.
Proof.
  intros Hg Hp. destruct (decide (p = j)) as [<- | Hpj].
  - destruct (get_formula_by_id fs p) as [f|] eqn:E.
    + rewrite (get_formula_by_id_update_first p g fs f Hg E). simpl.
      by rewrite Hp.
    + by rewrite (update_first_absent p g fs E), E.
  - by rewrite get_formula_by_id_update_first_ne.
Qed.

(** Finding a root is a matter of ids and parents only. *)
Lemma finds_root_transfer (fs fs' : list Formula) (k : Z) :
  Formula.parent <$> get_formula_by_id fs' k
  = Formula.parent <$> get_formula_by_id fs k ->
  (exists f, get_formula_by_id fs k = Some f /\ Formula.parent f = None) ->
  exists f, get_formula_by_id fs' k = Some f /\ Formula.parent f = None.
Proof.
  intros Heq (f & Hf & Hp). rewrite Hf in Heq. simpl in Heq.
  destruct (get_formula_by_id fs' k) as [f'|]; [|discriminate].
  exists f'. split; [done|]. simpl in Heq. congruence.
Qed.

Lemma run_command_tracked_roots (today : date) (c : command)
    (m : Manager Formula) :
  keeps_nodes c = true ->
  tracked_roots m -> tracked_roots (snd (run_command today c m)).
Proof.
  intros Hk Ht. destruct c as [name p|fuel i confirm|i new_name|i|root_id|];
    simpl in Hk |- *; try discriminate Hk.
  - unfold add_formula.
    destruct (bool_decide (last_addition_date m = Some today)); [exact Ht|].
    destruct (bool_decide (strip name = EmptyString)); [exact Ht|].
    destruct (truthy p && _); [exact Ht|].
    simpl. intros k lvl Hlvl.
    rewrite _save_data_progress in Hlvl. rewrite _save_data_formulas. simpl in *.
    destruct (Ht k lvl Hlvl) as [Hpos Hroot]. split; [exact Hpos|].
    destruct Hroot as (f & Hf & Hp).
    assert (Hsame : forall fs1,
               Formula.parent <$> get_formula_by_id fs1 k
               = Formula.parent <$> get_formula_by_id (_formulas m) k ->
               exists f', get_formula_by_id (fs1 ++ [Formula.mk
                            (new_id_of (_formulas m)) (strip name) p []
                            INACTIVE None]) k = Some f'
                          /\ Formula.parent f' = None).
    { intros fs1 Heq. rewrite get_formula_by_id_app.
      rewrite Hf in Heq. simpl in Heq.
      destruct (get_formula_by_id fs1 k) as [f1|]; [|discriminate].
      exists f1. split; [done|]. simpl in Heq. congruence. }
    destruct p as [p|]; [|by apply Hsame].
    destruct (truthy (Some p)); [|by apply Hsame].
    apply Hsame. by apply get_formula_by_id_update_first_parent.
  - apply negb_true_iff in Hk as ->. unfold remove_formula.
    destruct (get_descendants fuel (_formulas m) i); [|exact Ht].
    by destruct (Formula.name <$> _).
  - unfold update_formula_name.
    destruct (bool_decide (strip new_name = EmptyString)); [exact Ht|].
    destruct (get_formula_by_id (_formulas m) i); [|exact Ht].
    simpl. intros k lvl Hlvl.
    rewrite _save_data_progress in Hlvl. rewrite _save_data_formulas. simpl in *.
    destruct (Ht k lvl Hlvl) as [Hpos Hroot]. split; [exact Hpos|].
    eapply finds_root_transfer; [|exact Hroot].
    by apply get_formula_by_id_update_first_parent.
  - unfold change_formula_status.
    destruct (get_formula_by_id (_formulas m) i) as [f|] eqn:Ef; [|exact Ht].
    destruct (bool_decide (Formula.status f = ACTIVE)); simpl;
      intros k lvl Hlvl; rewrite _save_data_progress in Hlvl;
      rewrite _save_data_formulas; simpl in *.
    + assert (Hold : active_tree_progress m !! k = Some lvl).
      { destruct (bool_decide (Formula.parent f = None)
                  && bool_decide (is_Some (active_tree_progress m !! i)));
          [|exact Hlvl].
        apply lookup_delete_Some in Hlvl. tauto. }
      destruct (Ht k lvl Hold) as [Hpos Hroot]. split; [exact Hpos|].
      eapply finds_root_transfer; [|exact Hroot].
      by apply get_formula_by_id_update_first_parent.
    + destruct (bool_decide (Formula.parent f = None)) eqn:Er.
      * destruct (decide (i = k)) as [<- | Hik].
        -- rewrite lookup_insert_eq in Hlvl. injection Hlvl as <-.
           split; [lia|]. apply bool_decide_eq_true in Er.
           exists (Formula.set_last_active_time (Some today)
                     (Formula.set_status ACTIVE f)).
           split; [|exact Er].
           by apply (get_formula_by_id_update_first i
                       (fun f => Formula.set_last_active_time (Some today)
                                   (Formula.set_status ACTIVE f))).
        -- rewrite lookup_insert_ne in Hlvl by done.
           destruct (Ht k lvl Hlvl) as [Hpos Hroot]. split; [exact Hpos|].
           eapply finds_root_transfer; [|exact Hroot].
           by apply get_formula_by_id_update_first_parent.
      * destruct (Ht k lvl Hlvl) as [Hpos Hroot]. split; [exact Hpos|].
        eapply finds_root_transfer; [|exact Hroot].
        by apply get_formula_by_id_update_first_parent.
  - unfold execute_next_level.
    destruct (active_tree_progress m !! root_id) as [cur|] eqn:Ec; [|exact Ht].
    destruct (Ht root_id cur Ec) as [Hcur Hroot].
    destruct (get_nodes_at_level _ _ _); simpl; intros k lvl Hlvl;
      rewrite _save_data_progress in Hlvl; rewrite _save_data_formulas;
      simpl in *;
      (destruct (decide (root_id = k)) as [<- | Hrk];
       [rewrite lookup_insert_eq in Hlvl; injection Hlvl as <-;
        split; [lia|exact Hroot]
       |rewrite lookup_insert_ne in Hlvl by done; by apply Ht]).
Qed.

(** When every key of the progress map finds a root node and every stored
    level is at least 0, the same holds after any calls that delete no node
    (add, rename, toggle, advance, dry-run remove). *)
Theorem tracked_roots_preserved (cs : list (date * command))
    (m : Manager Formula) :
  tracked_roots m ->
  Forall (fun dc => keeps_nodes (snd dc) = true) cs ->
  forall k lvl, active_tree_progress (run_commands cs m) !! k = Some lvl ->
    0 <= lvl
    /\ exists f, get_formula_by_id (_formulas (run_commands cs m)) k = Some f
                 /\ Formula.parent f = None.
Proof.
  intros Ht Hcs.
  assert (H : tracked_roots (run_commands cs m)); [|exact H].
  revert m Ht. induction Hcs as [|[today c] cs Hc _ IH]; intros m Ht; [exact Ht|].
  simpl. apply IH. by apply run_command_tracked_roots.
Qed.

Lemma tracked_roots_preserved_witness :
  let cs := [(1, Toggle 1); (1, Toggle 1); (1, Advance 1); (2, Add "E" (Some 1))] in
  let m := run_commands cs (init 0 true) in
  active_tree_progress m !! 1 = Some 1
  /\ exists f, get_formula_by_id (_formulas m) 1 = Some f
               /\ Formula.parent f = None.
Proof.
  intros cs m. split; [reflexivity|].
  destruct (tracked_roots_preserved cs (init 0 true)) with (k := 1) (lvl := 1)
    as [_ H].
  - intros k lvl Hk. discriminate Hk.
  - repeat constructor.
  - reflexivity.
  - exact H.
Defined.

(** ** Snapshots *)

Lemma dict_of_items_map_to_list (p : gmap Z Z) :
  dict_of_items (map_to_list p) = p.
Proof.
  unfold dict_of_items.
  rewrite (list_to_map_proper (reverse (map_to_list p)) (map_to_list p)).
  - apply list_to_map_to_list.
  - rewrite fmap_reverse, reverse_Permutation. apply NoDup_fst_map_to_list.
  - apply reverse_Permutation.
Qed.

(** Loading the snapshot of a manager into any manager gives that manager's
    node list, progress map and date, keeps the callback of the receiver and
    does not invoke it; the same holds when the snapshot went through JSON
    (integer keys turned into their decimal strings), provided [int] reads
    the decimal string of every tracked id back as that id. *)
Theorem snapshot_round_trip (int_of_str : string -> option Z)
    (m m0 : Manager Formula) :
  (let r := set_formulas_data int_of_str (get_formulas_data m) m0 in
   fst r = true
   /\ engine_state (snd r) = engine_state m
   /\ data_callback (snd r) = data_callback m0
   /\ callback_calls (snd r) = callback_calls m0)
  /\ ((forall k lvl, active_tree_progress m !! k = Some lvl ->
                     int_of_str (pretty k) = Some k) ->
      let r := set_formulas_data int_of_str
                 (through_json (get_formulas_data m)) m0 in
      fst r = true
      /\ engine_state (snd r) = engine_state m
      /\ data_callback (snd r) = data_callback m0
      /\ callback_calls (snd r) = callback_calls m0).
Proof.
  split.
  - unfold set_formulas_data, get_formulas_data. simpl.
    rewrite (mapM_fmap_Some _ (fun kv : Z * Z => (KInt kv.1, kv.2)))
      by (by intros [k v]).
    simpl. unfold engine_state. simpl.
    by rewrite dict_of_items_map_to_list.
  - intros Hint. unfold set_formulas_data, get_formulas_data, through_json.
    simpl. rewrite <- list_fmap_compose.
    rewrite (mapM_fmap_Forall_Some _ _).
    + simpl. unfold engine_state. simpl.
      by rewrite dict_of_items_map_to_list.
    + apply Forall_forall. intros [k v] Hkv.
      apply elem_of_map_to_list in Hkv. simpl.
      by rewrite (Hint k v Hkv).
Qed.

(** With a reader that only knows the string "1". *)
Lemma snapshot_round_trip_witness :
  let m := mkManager true 3%nat (default_formulas 0) (Some 7) {[1 := 2]} in
  let m0 := init 9 false in
  let int_of_str := fun s : string =>
                      if bool_decide (s = "1") then Some 1 else None in
  engine_state
    (snd (set_formulas_data int_of_str (through_json (get_formulas_data m)) m0))
  = engine_state m.
Proof.
  intros m m0 int_of_str.
  destruct (snapshot_round_trip int_of_str m m0) as [_ H].
  destruct H as (_ & H & _); [|exact H].
  intros k lvl Hk. subst m. simpl in Hk.
  apply lookup_singleton_Some in Hk as [<- _]. reflexivity.
Defined.

(** A progress key that [int] rejects makes [set_formulas_data] raise after
    it has replaced the node list and before it touches the progress map and
    the date; missing keys load as an empty node list, an empty progress map
    and no date. *)
Theorem set_formulas_data_partial (int_of_str : string -> option Z)
    (data : snapshot) (m : Manager Formula) (k : progress_key) (v : Z) :
  (forall items, snap_active_tree_progress data = Some items ->
     (k, v) ∈ items -> py_int int_of_str k = None ->
     let r := set_formulas_data int_of_str data m in
     fst r = false
     /\ _formulas (snd r) = default [] (snap_formulas data)
     /\ active_tree_progress (snd r) = active_tree_progress m
     /\ last_addition_date (snd r) = last_addition_date m)
  /\ engine_state
       (snd (set_formulas_data int_of_str (mkSnapshot None None None) m))
     = ([], None, ∅).
Proof.
  split; [|reflexivity].
  intros items Hitems Hin Hbad r. subst r.
  unfold set_formulas_data. rewrite Hitems. simpl.
  destruct (mapM _ items) as [zs|] eqn:E; [|done].
  exfalso. apply mapM_Some_1 in E.
  apply list_elem_of_lookup in Hin as [n Hn].
  destruct (Forall2_lookup_l _ _ _ n (k, v) E Hn) as (zv & _ & Hzv).
  simpl in Hzv. by rewrite Hbad in Hzv.
Qed.

Lemma set_formulas_data_partial_witness :
  let data := mkSnapshot (Some []) (Some 3) (Some [(KInt 1, 0); (KStr "x", 2)]) in
  let m := mkManager true 0%nat (default_formulas 0) None {[1 := 5]} in
  let r := set_formulas_data (fun _ => None) data m in
  fst r = false
  /\ _formulas (snd r) = []
  /\ active_tree_progress (snd r) = {[1 := 5]}
  /\ last_addition_date (snd r) = None.
Proof.
  intros data m r.
  destruct (set_formulas_data_partial (fun _ => None) data m (KStr "x") 2)
    as [H _].
  apply (H [(KInt 1, 0); (KStr "x", 2)]); [reflexivity| |reflexivity].
  right. left.
Defined.

(** ** The display of the active trees *)

Lemma join_cons_nonempty (sep x : string) (l : list string) :
  x <> EmptyString -> join sep (x :: l) <> EmptyString.
Proof.
  intros Hx. simpl. destruct l as [|y l]; [exact Hx|].
  destruct x as [|c x]; [done|]. discriminate.
Qed.

(** The lines of a tree that is found start with a header, which is not
    empty. *)
Lemma display_parts_head (fs : list Formula) (item : Z * Z) :
  (get_formula_by_id fs (fst item) = None /\ display_parts fs item = [])
  \/ (is_Some (get_formula_by_id fs (fst item))
      /\ exists h r, display_parts fs item = h :: r /\ h <> EmptyString).
Proof.
  unfold display_parts.
  destruct (get_formula_by_id fs (fst item)) as [root|]; [right|by left].
  split; [by eexists|]. eexists _, _. split; [reflexivity|]. discriminate.
Qed.

Lemma display_parts_bind (fs : list Formula) (items : list (Z * Z)) :
  ((forall item, item ∈ items -> get_formula_by_id fs (fst item) = None)
   /\ items ≫= display_parts fs = [])
  \/ ((exists item, item ∈ items /\ is_Some (get_formula_by_id fs (fst item)))
      /\ exists h r, items ≫= display_parts fs = h :: r /\ h <> EmptyString).
Proof.
  induction items as [|item items IH]; csimpl.
  - left. split; [|done]. intros item Hitem. by apply elem_of_nil in Hitem.
  - destruct (display_parts_head fs item) as [[Hnone ->] | [Hsome (h & r & -> & Hh)]].
    + simpl. destruct IH as [[Hall ->] | [(it & Hit & Hs) Hhr]].
      * left. split; [|done]. intros it Hit.
        apply elem_of_cons in Hit as [-> | Hit]; [done|by apply Hall].
      * right. split; [|exact Hhr]. exists it. split; [by right|done].
    + right. split; [exists item; split; [left|done]|].
      exists h, (r ++ (items ≫= display_parts fs)). by split.
Qed.

(** [get_active_formulas_display] returns the empty text exactly when the
    progress map has keys and none of them finds a node; the text
    [update_formula_status_bar] shows is never empty. *)
Theorem display_blank_iff (m : Manager Formula) :
  (get_active_formulas_display m = EmptyString <->
   active_tree_progress m <> ∅
   /\ forall k lvl, active_tree_progress m !! k = Some lvl ->
                    get_formula_by_id (_formulas m) k = None)
  /\ update_formula_status_bar m <> EmptyString.
Proof.
  assert (Hmem : forall k lvl,
             (k, lvl) ∈ merge_sort items_le (map_to_list (active_tree_progress m))
             <-> active_tree_progress m !! k = Some lvl).
  { intros k lvl. rewrite merge_sort_Permutation. apply elem_of_map_to_list. }
  assert (Hiff : get_active_formulas_display m = EmptyString <->
                 active_tree_progress m <> ∅
                 /\ forall k lvl, active_tree_progress m !! k = Some lvl ->
                                  get_formula_by_id (_formulas m) k = None).
  { unfold get_active_formulas_display.
    destruct (bool_decide (active_tree_progress m = ∅)) eqn:E.
    - apply bool_decide_eq_true in E. split; [discriminate|]. by intros [? _].
    - apply bool_decide_eq_false in E.
      destruct (display_parts_bind (_formulas m)
                  (merge_sort items_le (map_to_list (active_tree_progress m))))
        as [[Hall ->] | [((k & lvl) & Hit & Hs) (h & r & -> & Hh)]].
      + split; [|done]. intros _. split; [exact E|].
        intros k lvl Hk. apply (Hall (k, lvl)). by apply Hmem.
      + split.
        * intros Hj. by apply join_cons_nonempty in Hj.
        * intros [_ Hnone]. apply Hmem in Hit. simpl in Hs.
          rewrite (Hnone k lvl Hit) in Hs. by destruct Hs. }
  split; [exact Hiff|].
  unfold update_formula_status_bar.
  destruct (bool_decide (get_active_formulas_display m = EmptyString)) eqn:E.
  - discriminate.
  - by apply bool_decide_eq_false in E.
Qed.

(** A map whose only key names a deleted root: the display is empty, the
    status bar shows its placeholder; and the display of the seeded forest
    tracked at level 1. *)
Example display_examples :
  get_active_formulas_display
    (mkManager true 0%nat (default_formulas 0) None {[9 := 0]}) = EmptyString
  /\ update_formula_status_bar
       (mkManager true 0%nat (default_formulas 0) None {[9 := 0]})
     = MSG_STATUS_BAR_EMPTY
  /\ get_active_formulas_display
       (mkManager true 0%nat (default_formulas 0) None {[1 := 1]})
     = join LF ["🌳 A定式 (当前层级: 1):"; "  - B定式"; "  - C定式"; EmptyString].
Proof. vm_compute. repeat split; reflexivity. Qed.

(** ** The delete button *)

(** Whatever row is selected and whatever the user answers,
    [remove_formula_action] leaves the manager exactly as it was: it calls
    [remove_formula] without [confirm], which is the dry run.  When the node
    exists, the user confirms and the dry run finds names, the box that is
    shown still announces them as deleted. *)
Theorem remove_formula_action_deletes_nothing (fuel : nat)
    (selected_item : option Z) (answer : bool) (m : Manager Formula) :
  snd (remove_formula_action fuel selected_item answer m) = m
  /\ (forall remove_id f names,
        selected_item = Some remove_id ->
        get_formula_by_id (_formulas m) remove_id = Some f ->
        answer = true ->
        fst (remove_formula fuel remove_id false m) = Some (true, names) ->
        fst (remove_formula_action fuel selected_item answer m)
        = Some [ShowInfo
                  (String.append "定式 '"
                     (String.append (join ", " names) "' 已被删除"))]).
Proof.
  split.
  - unfold remove_formula_action.
    destruct selected_item as [remove_id|]; [|done].
    destruct (get_formula_by_id (_formulas m) remove_id); [|done].
    destruct answer; [|done].
    assert (Hsame : snd (remove_formula fuel remove_id false m) = m).
    { unfold remove_formula.
      destruct (get_descendants fuel (_formulas m) remove_id); [|done].
      by destruct (Formula.name <$> _). }
    destruct (fst (remove_formula fuel remove_id false m)) as [[[] names]|];
      simpl; exact Hsame.
  - intros remove_id f names -> Hf -> Hr.
    unfold remove_formula_action. by rewrite Hf, Hr.
Qed.

Lemma remove_formula_action_deletes_nothing_witness :
  let m := init 0 true in
  remove_formula_action 3 (Some 2) true m
  = (Some [ShowInfo "定式 'B定式, D定式' 已被删除"], m).
Proof.
  intros m.
  destruct (remove_formula_action_deletes_nothing 3 (Some 2) true m)
    as [Hsame Hbox].
  apply injective_projections; simpl.
  - apply (Hbox 2 (Formula.mk 2 "B定式" (Some 1) [4] ACTIVE (Some 0))
             ["B定式"; "D定式"]); reflexivity.
  - exact Hsame.
Defined.

(** ** The singleton *)

Section SingletonFacts.
Context {callback : Type}.

Lemma get_manager_calls_Some (calls : list (date * option callback))
    (i : instance callback) :
  exists i',
    get_manager_calls calls (Some i) = Some i'
    /\ engine_state (instance_manager i') = engine_state (instance_manager i)
    /\ callback_calls (instance_manager i') = callback_calls (instance_manager i)
    /\ instance_callback i'
       = match instance_callback i with
         | Some cb => Some cb
         | None => head (omap snd calls)
         end
    /\ (data_callback (instance_manager i)
        = bool_decide (is_Some (instance_callback i)) ->
        data_callback (instance_manager i')
        = bool_decide (is_Some (instance_callback i'))).
Proof.
  revert i. induction calls as [|[today cb] calls IH]; intros i.
  - exists i. simpl. repeat split; try done. by destruct (instance_callback i).
  - change (get_manager_calls ((today, cb) :: calls) (Some i))
      with (get_manager_calls calls (snd (get_manager today cb (Some i)))).
    destruct (instance_callback i) as [cb0|] eqn:E.
    + assert (Hstep : snd (get_manager today cb (Some i)) = Some i).
      { unfold get_manager. rewrite E. by destruct cb. }
      rewrite Hstep. destruct (IH i) as (i' & Hi' & ? & ? & Hcb & Hflag).
      exists i'. rewrite E in Hcb, Hflag. by repeat split.
    + destruct cb as [cb|].
      * assert (Hstep : snd (get_manager today (Some cb) (Some i))
                        = Some (mkInstance (Some cb)
                                  (mkManager true
                                     (callback_calls (instance_manager i))
                                     (_formulas (instance_manager i))
                                     (last_addition_date (instance_manager i))
                                     (active_tree_progress (instance_manager i))))).
        { unfold get_manager. by rewrite E. }
        rewrite Hstep.
        destruct (IH (mkInstance (Some cb)
                        (mkManager true (callback_calls (instance_manager i))
                           (_formulas (instance_manager i))
                           (last_addition_date (instance_manager i))
                           (active_tree_progress (instance_manager i)))))
          as (i' & Hi' & Hst & Hcalls & Hcb & Hflag).
        exists i'. simpl in Hst, Hcalls, Hcb, Hflag.
        split; [exact Hi'|]. split; [exact Hst|]. split; [exact Hcalls|].
        split; [exact Hcb|]. intros _. by apply Hflag.
      * assert (Hstep : snd (get_manager today None (Some i)) = Some i)
          by reflexivity.
        rewrite Hstep. destruct (IH i) as (i' & Hi' & ? & ? & Hcb & Hflag).
        exists i'. rewrite E in Hcb, Hflag. by repeat split.
Qed.

End SingletonFacts.

(** After any sequence of [get_manager] calls starting without an instance,
    the instance is the one the first call created (the seeded forest of
    that day, never reset by later calls), and its callback is the first
    callback that any of the calls passed, if one did. *)
Theorem get_manager_first_wins {callback : Type} (today : date)
    (cb : option callback) (calls : list (date * option callback)) :
  exists i,
    get_manager_calls ((today, cb) :: calls) None = Some i
    /\ engine_state (instance_manager i) = engine_state (init today false)
    /\ callback_calls (instance_manager i) = 0%nat
    /\ instance_callback i = head (omap snd ((today, cb) :: calls))
    /\ data_callback (instance_manager i)
       = bool_decide (is_Some (instance_callback i)).
Proof.
  simpl.
  destruct (get_manager_calls_Some calls
              (mkInstance cb (init today (bool_decide (is_Some cb)))))
    as (i & Hi & Hst & Hcalls & Hcb & Hflag).
  exists i. split; [exact Hi|]. split; [exact Hst|]. split; [exact Hcalls|].
  split.
  - rewrite Hcb. simpl. by destruct cb.
  - by apply Hflag.
Qed.

(** ** The tree as text *)

Lemma append_nonempty_r (a b : string) :
  b <> EmptyString -> String.append a b <> EmptyString.
Proof. intros Hb. destruct a; [exact Hb|discriminate]. Qed.

Lemma node_line_nonempty (level : Z) (f : Formula) :
  node_line level f <> EmptyString.
Proof. unfold node_line. apply append_nonempty_r. discriminate. Qed.

Lemma string_append_assoc (a b c : string) :
  String.append (String.append a b) c = String.append a (String.append b c).
Proof.
  induction a as [|x a IH]; [reflexivity|].
  change (String x (String.append (String.append a b) c)
          = String x (String.append a (String.append b c))).
  by f_equal.
Qed.

Lemma join_app (sep : string) (l1 l2 : list string) :
  l1 <> [] -> l2 <> [] ->
  join sep (l1 ++ l2)
  = String.append (join sep l1) (String.append sep (join sep l2)).
Proof.
  intros H1 H2. induction l1 as [|x l1 IH]; [done|].
  destruct l1 as [|y l1].
  - simpl. by destruct l2.
  - change (join sep ((x :: y :: l1) ++ l2))
      with (String.append x (String.append sep (join sep ((y :: l1) ++ l2)))).
    rewrite IH by done.
    change (join sep (x :: y :: l1))
      with (String.append x (String.append sep (join sep (y :: l1)))).
    by rewrite !string_append_assoc.
Qed.

Lemma join_nonempty (sep : string) (l : list string) :
  Forall (fun x => x <> EmptyString) l -> l <> [] ->
  join sep l <> EmptyString.
Proof.
  intros Hl Hne. destruct Hl as [|x l Hx _]; [done|].
  by apply join_cons_nonempty.
Qed.

(** Joining the concatenation of non-empty groups is joining their joins. *)
Lemma join_concat (sep : string) (gs : list (list string)) :
  Forall (fun g => g <> []) gs ->
  join sep (concat gs) = join sep (join sep <$> gs).
Proof.
  induction 1 as [|g gs Hg Hgs IH]; [reflexivity|].
  simpl concat. rewrite fmap_cons.
  destruct gs as [|g' gs].
  - simpl. by rewrite app_nil_r.
  - assert (Hne : concat (g' :: gs) <> []).
    { apply Forall_cons in Hgs as [Hg' _]. simpl. by destruct g'. }
    rewrite join_app by done. rewrite IH. by rewrite fmap_cons.
Qed.

(** The loop of [print_formula_tree], as an equation. *)
Lemma print_formula_tree_unfold (fuel : nat) (fs : list Formula)
    (parent_id : option Z) (level : Z) :
  print_formula_tree (S fuel) fs parent_id level
  = (fix loop (formulas : list Formula) : list string * bool :=
       match formulas with
       | [] => ([], true)
       | formula :: formulas' =>
           let sub := print_formula_tree fuel fs
                        (Some (Formula.id formula)) (level + 1) in
           if snd sub then
             let rest := loop formulas' in
             (node_line level formula :: fst sub ++ fst rest, snd rest)
           else (node_line level formula :: fst sub, false)
       end)
      (filter (fun f => Formula.parent f = parent_id) fs).
Proof. reflexivity. Qed.

(** What is printed is a list of non-empty lines; when [print_formula_tree]
    returns, [show_formula_tree] returns those lines joined by line feeds. *)
Lemma print_show (fuel : nat) (fs : list Formula) :
  forall (parent_id : option Z) (level : Z),
    Forall (fun x => x <> EmptyString)
           (fst (print_formula_tree fuel fs parent_id level))
    /\ (snd (print_formula_tree fuel fs parent_id level) = true ->
        show_formula_tree fuel fs parent_id level
        = Some (join LF (fst (print_formula_tree fuel fs parent_id level))))
    /\ (snd (print_formula_tree fuel fs parent_id level) = false ->
        show_formula_tree fuel fs parent_id level = None).
Proof.
  induction fuel as [|fuel IH]; intros parent_id level.
  { simpl. split; [constructor|]. split; [discriminate|done]. }
  rewrite print_formula_tree_unfold. cbn [show_formula_tree].
  set (children := filter (fun f => Formula.parent f = parent_id) fs).
  set (step := fun formula =>
         child_result ← show_formula_tree fuel fs
                          (Some (Formula.id formula)) (level + 1);
         Some (node_line level formula
               :: if bool_decide (child_result = EmptyString) then []
                  else [child_result])).
  set (loop := fix loop (formulas : list Formula) : list string * bool :=
         match formulas with
         | [] => ([], true)
         | formula :: formulas' =>
             let sub := print_formula_tree fuel fs
                          (Some (Formula.id formula)) (level + 1) in
             if snd sub then
               let rest := loop formulas' in
               (node_line level formula :: fst sub ++ fst rest, snd rest)
             else (node_line level formula :: fst sub, false)
         end).
  assert (H : Forall (fun x => x <> EmptyString) (fst (loop children))
              /\ (snd (loop children) = true ->
                  exists pieces groups,
                    mapM step children = Some pieces
                    /\ fst (loop children) = concat groups
                    /\ Forall (fun g => g <> []) pieces
                    /\ Forall (fun g => g <> []) groups
                    /\ join LF <$> pieces = join LF <$> groups)
              /\ (snd (loop children) = false -> mapM step children = None)).
  { clearbody children. induction children as [|f children IHc].
    - simpl. split; [constructor|]. split; [|discriminate].
      intros _. exists [], []. by repeat split.
    - cbn [loop]. fold loop.
      destruct (IH (Some (Formula.id f)) (level + 1)) as (Hsub & Hok & Hfail).
      destruct (snd (print_formula_tree fuel fs (Some (Formula.id f)) (level + 1)))
        eqn:Es.
      + destruct IHc as (Hrest & Hrok & Hrfail). cbn [fst snd].
        split.
        { constructor; [apply node_line_nonempty|]. by apply Forall_app. }
        assert (Hstep : step f
                = Some (node_line level f
                        :: if bool_decide
                                (join LF (fst (print_formula_tree fuel fs
                                     (Some (Formula.id f)) (level + 1)))
                                 = EmptyString)
                           then []
                           else [join LF (fst (print_formula_tree fuel fs
                                     (Some (Formula.id f)) (level + 1)))])).
        { unfold step. by rewrite (Hok eq_refl). }
        split.
        * intros Hr. destruct (Hrok Hr) as (pieces & groups & Hm & Hc & Hp & Hg & Hj).
          eexists (_ :: pieces),
            ((node_line level f
              :: fst (print_formula_tree fuel fs (Some (Formula.id f)) (level + 1)))
             :: groups).
          split; [cbn [mapM]; by rewrite Hstep, Hm|].
          split; [simpl; by rewrite Hc|].
          split; [by constructor|]. split; [by constructor|].
          rewrite !fmap_cons, Hj. f_equal.
          set (sub := fst (print_formula_tree fuel fs (Some (Formula.id f))
                             (level + 1))) in *.
          destruct sub as [|x sub]; [reflexivity|].
          rewrite bool_decide_eq_false_2; [reflexivity|].
          by apply join_nonempty.
        * intros Hr. cbn [mapM]. by rewrite Hstep, (Hrfail Hr).
      + cbn [fst snd]. split.
        { constructor; [apply node_line_nonempty|exact Hsub]. }
        split; [discriminate|]. intros _.
        assert (Hstep : step f = None)
          by (unfold step; by rewrite (Hfail eq_refl)).
        cbn [mapM]. by rewrite Hstep. }
  destruct H as (Hlines & Hok & Hfail).
  split; [exact Hlines|]. split.
  - intros Hr. destruct (Hok Hr) as (pieces & groups & -> & -> & Hp & Hg & Hj).
    simpl. by rewrite !join_concat, Hj.
  - intros Hr. by rewrite (Hfail Hr).
Qed.

(** [print_formula_tree] and [show_formula_tree] render the same tree: one
    returns exactly when the other does, the text returned is the printed
    lines joined by line feeds, and it is empty exactly when no node names
    [parent_id] as its parent. *)
Theorem print_formula_tree_agrees (fuel : nat) (fs : list Formula)
    (parent_id : option Z) (level : Z) :
  let printed := print_formula_tree fuel fs parent_id level in
  (snd printed = true <-> is_Some (show_formula_tree fuel fs parent_id level))
  /\ (forall text, show_formula_tree fuel fs parent_id level = Some text ->
        text = join LF (fst printed)
        /\ (text = EmptyString <->
            forall f, f ∈ fs -> Formula.parent f <> parent_id)).
Proof.
  intros printed. subst printed.
  destruct (print_show fuel fs parent_id level) as (Hlines & Hok & Hfail).
  destruct (snd (print_formula_tree fuel fs parent_id level)) eqn:Es.
  - rewrite (Hok eq_refl). split; [split; [by eexists|done]|].
    intros text [= <-]. split; [reflexivity|].
    destruct fuel as [|fuel]; [discriminate Es|].
    rewrite print_formula_tree_unfold in Hlines |- *.
    destruct (filter (fun f => Formula.parent f = parent_id) fs) as [|c cs] eqn:Ef.
    + split; [|done]. intros _ f Hf Hp.
      assert (f ∈ filter (fun f => Formula.parent f = parent_id) fs)
        by (by apply list_elem_of_filter).
      rewrite Ef in H. by apply elem_of_nil in H.
    + split.
      * intros Hj. exfalso. revert Hj. apply join_nonempty; [exact Hlines|].
        cbv zeta.
        destruct (snd (print_formula_tree fuel fs (Some (Formula.id c)) (level + 1)));
          simpl; discriminate.
      * intros Hnone. exfalso.
        assert (Hc : c ∈ filter (fun f => Formula.parent f = parent_id) fs)
          by (rewrite Ef; left).
        apply list_elem_of_filter in Hc as [Hp Hc]. by apply (Hnone c).
  - rewrite (Hfail eq_refl). split; [|discriminate].
    split; [discriminate|]. by intros [? ?].
Qed.

(** The seeded forest, from the roots. *)
Example show_formula_tree_seed :
  show_formula_tree 4 (default_formulas 0) None 0
  = Some (join LF ["📁 A定式 (ID: 1)"; "  📁 B定式 (ID: 2)";
                   "    📁 D定式 (ID: 4)"; "  📁 C定式 (ID: 3)"])
  /\ print_formula_tree 4 (default_formulas 0) None 0
     = (["📁 A定式 (ID: 1)"; "  📁 B定式 (ID: 2)";
         "    📁 D定式 (ID: 4)"; "  📁 C定式 (ID: 3)"], true)
  /\ print_formula_tree 2 (default_formulas 0) None 0
     = (["📁 A定式 (ID: 1)"; "  📁 B定式 (ID: 2)"], false).
Proof. vm_compute. repeat split; reflexivity. Qed.

(** ** The task chain *)

Ltac same_state Hok :=
  simpl;
  let Ht := fresh "Ht" in
  intros Ht;
  first
    [ congruence
    | destruct (Hok Ht) as (? & ? & ?); repeat split; (done || congruence)
    | destruct (Hok eq_refl) as (? & ? & ?); repeat split; (done || congruence) ].

(** A step that returns keeps what holds of a running task. *)
Lemma run_step_task_running_ok (e : protocol_step) (p : Protocol) :
  has_returned (fst (run_step e p)) = true ->
  task_running_ok p -> task_running_ok (snd (run_step e p)).
Proof.
  intros Hret Hok. unfold task_running_ok in *.
  destruct e as [now minutes| |now stamp minutes name|now|now| |description
                 |stamp description]; simpl in *.
  - unfold start_reservation in *.
    destruct (reservation_active p) eqn:Er; destruct (task_active p) eqn:Et;
      simpl in *; try same_state Hok.
    destruct (match minutes with Some m => Some m | None => _ end);
      [|same_state Hok].
    destruct (minutes_after now z); same_state Hok.
  - unfold reservation_timer_fires.
    destruct (reservation_active p) eqn:Er; same_state Hok.
  - unfold start_task in *. destruct (task_active p) eqn:Et; [same_state Hok|].
    destruct (match minutes with Some m => Some m | None => _ end);
      [|discriminate Hret].
    destruct (minutes_after now z); [|discriminate Hret].
    simpl. intros _. split; [by destruct (task_chain p)|].
    split; [by eexists|done].
  - unfold complete_task. destruct (task_active p) eqn:Et; simpl;
      [|same_state Hok].
    destruct (bool_decide (task_end_time p = None)); [same_state Hok|].
    destruct (last (task_chain p)); simpl; discriminate.
  - unfold task_timer_fires, complete_task.
    destruct (task_active p) eqn:Et; simpl; [|same_state Hok].
    destruct (bool_decide (task_end_time p = None)); [same_state Hok|].
    destruct (last (task_chain p)); simpl; discriminate.
  - unfold stop_task. destruct (task_active p) eqn:Et; simpl;
      [discriminate|same_state Hok].
  - discriminate.
  - same_state Hok.
Qed.

Lemma run_steps_task_running_ok (es : list protocol_step) (p : Protocol) :
  all_returned es p = true ->
  task_running_ok p -> task_running_ok (run_steps es p).
Proof.
  revert p. induction es as [|e es IH]; intros p Hret Hok; [exact Hok|].
  simpl in Hret. apply andb_true_iff in Hret as [He Hes].
  simpl. apply IH; [exact Hes|]. by apply run_step_task_running_ok.
Qed.

(** Whether it returns or raises, no step leaves a reservation and a task
    active together. *)
Lemma run_step_exclusive (e : protocol_step) (p : Protocol) :
  reservation_active p && task_active p = false ->
  reservation_active (snd (run_step e p)) && task_active (snd (run_step e p))
  = false.
Proof.
  intros Hx.
  destruct e as [now minutes| |now stamp minutes name|now|now| |description
                 |stamp description]; simpl;
    unfold start_reservation, reservation_timer_fires, start_task,
      task_timer_fires, complete_task, stop_task, reset_chain,
      allow_violation;
    destruct (reservation_active p) eqn:Er;
    destruct (task_active p) eqn:Et; try discriminate Hx; simpl;
    repeat case_match; simpl; rewrite ?Er, ?Et; done.
Qed.

(** From the state [__init__] leaves (no reservation, no task running, any
    data), after any sequence of method calls and timer expiries a
    reservation and a task are never active together.  As long as every call
    so far has returned, a running task has an end time and a chain that is
    not empty, and the next step can raise only if it is [start_reservation]
    or [start_task], and then only [KeyError] (the entry of "settings" is
    missing) or [OverflowError] (the deadline is no [datetime]):
    [complete_task], [stop_task], [reset_chain], [allow_violation] and the
    timers return. *)
Theorem protocol_raises_only_at_start (p : Protocol) (es : list protocol_step)
    (e : protocol_step) :
  protocol_loaded p ->
  let q := run_steps es p in
  reservation_active q && task_active q = false
  /\ (all_returned es p = true ->
      (task_active q = true ->
       task_chain q <> [] /\ is_Some (task_end_time q))
      /\ (forall exc, fst (run_step e q) = Raised exc ->
            is_start e = true /\ (exc = KeyError \/ exc = OverflowError))).
Proof.
  intros [Hr Ht] q. split.
  - subst q. assert (Hx : reservation_active p && task_active p = false)
      by (by rewrite Hr).
    clear Hr Ht. revert p Hx.
    induction es as [|e' es IH]; intros p Hx; [exact Hx|].
    simpl. apply IH. by apply run_step_exclusive.
  - intros Hret.
    assert (Hok : task_running_ok q).
    { apply run_steps_task_running_ok; [exact Hret|]. intros H. congruence. }
    clearbody q. split.
    { intros E. destruct (Hok E) as (? & ? & _). by split. }
    intros exc.
    destruct e as [now minutes| |now stamp minutes name|now|now| |description
                   |stamp description]; simpl.
    + unfold start_reservation. destruct (_ || _); [discriminate|].
      destruct (match minutes with Some m => Some m | None => _ end).
      * destruct (minutes_after now z); [discriminate|].
        intros [= <-]. split; [done|by right].
      * intros [= <-]. split; [done|by left].
    + unfold reservation_timer_fires.
      by destruct (reservation_active q).
    + unfold start_task. destruct (task_active q); [discriminate|].
      destruct (match minutes with Some m => Some m | None => _ end).
      * destruct (minutes_after now z); [discriminate|].
        intros [= <-]. split; [done|by right].
      * intros [= <-]. split; [done|by left].
    + unfold complete_task. destruct (task_active q) eqn:E; simpl;
        [|discriminate].
      destruct (Hok E) as (Hchain & [t Hend] & _).
      rewrite Hend. simpl.
      destruct (last (task_chain q)) eqn:El; [discriminate|].
      by apply last_None in El.
    + unfold task_timer_fires, complete_task.
      destruct (task_active q) eqn:E; simpl; [|discriminate].
      destruct (Hok E) as (Hchain & [t Hend] & _).
      rewrite Hend. simpl.
      destruct (last (task_chain q)) eqn:El; [discriminate|].
      by apply last_None in El.
    + unfold stop_task. by destruct (negb _).
    + discriminate.
    + discriminate.
Qed.

Lemma protocol_raises_only_at_start_witness :
  let p := mkProtocol [] [] (Some 15) (Some 30) 0 [] false None false None 0%nat in
  let es := [StartReservation 0 None; StartTask 60 "t" None (Some "a");
             ResetChain "late"; StartTask 90 "u" (Some 5) None] in
  all_returned es p = true
  /\ task_active (run_steps es p) = true
  /\ task_chain (run_steps es p) <> []
  /\ is_Some (task_end_time (run_steps es p))
  /\ fst (run_step (CompleteTask 100) (run_steps es p)) <> Raised TypeError.
Proof.
  intros p es.
  destruct (protocol_raises_only_at_start p es (CompleteTask 100)) as [_ H];
    [by split|].
  destruct (H eq_refl) as [Hrun Hraise].
  destruct (Hrun eq_refl) as [Hchain Hend].
  split; [reflexivity|]. split; [reflexivity|]. split; [exact Hchain|].
  split; [exact Hend|].
  intros E. destruct (Hraise TypeError E) as [Hstart _]. discriminate Hstart.
Defined.

(** [start_task] is not atomic.  A deadline that is no [datetime] makes it
    raise [OverflowError] after the reservation was closed and [task_active]
    was set, and before the end time is stored, the node appended and the
    data saved.  The task then counts as running: [start_task] refuses to
    start another; [complete_task] raises [TypeError] as long as no earlier
    task left an end time, raises [IndexError] (and clears the flag) on an
    empty chain when one did, and otherwise completes the last node of the
    chain once more; [stop_task] clears the flag. *)
Theorem start_task_overflow_half_done (now now' : Z) (stamp : string) (m : Z)
    (name : option string) (p : Protocol) :
  task_active p = false ->
  minutes_after now m = None ->
  let r := start_task now stamp (Some m) name p in
  fst r = Raised OverflowError
  /\ task_active (snd r) = true
  /\ reservation_active (snd r) = false
  /\ task_chain (snd r) = task_chain p
  /\ task_end_time (snd r) = task_end_time p
  /\ save_count (snd r) = save_count p
  /\ (forall now2 stamp2 minutes2 name2,
        start_task now2 stamp2 minutes2 name2 (snd r) = (Returned None, snd r))
  /\ (task_end_time p = None ->
      complete_task now' (snd r) = (Raised TypeError, snd r))
  /\ (is_Some (task_end_time p) -> task_chain p = [] ->
      fst (complete_task now' (snd r)) = Raised IndexError
      /\ task_active (snd (complete_task now' (snd r))) = false)
  /\ (is_Some (task_end_time p) -> task_chain p <> [] ->
      fst (complete_task now' (snd r)) = Returned (Some true)
      /\ save_count (snd (complete_task now' (snd r))) = S (save_count p))
  /\ task_active (snd (stop_task (snd r))) = false.
Proof.
  intros Ht Hover r. subst r. unfold start_task. rewrite Ht, Hover.
  cbn [fst snd task_active reservation_active task_chain task_end_time
       save_count].
  repeat (split; [reflexivity|]).
  split; [|split; [|split]].
  - intros Hend. unfold complete_task. cbn [task_active task_end_time negb].
    by rewrite bool_decide_eq_true_2.
  - intros [t Hend] Hchain. unfold complete_task.
    cbn [task_active task_end_time task_chain negb].
    rewrite bool_decide_eq_false_2 by (by rewrite Hend).
    rewrite Hchain. by split.
  - intros [t Hend] Hchain. unfold complete_task.
    cbn [task_active task_end_time task_chain negb].
    rewrite bool_decide_eq_false_2 by (by rewrite Hend).
    destruct (last (task_chain p)) eqn:El; [by split|].
    by apply last_None in El.
  - reflexivity.
Qed.

Lemma start_task_overflow_half_done_witness :
  let p := mkProtocol [] [] (Some 15) (Some 30) 0 [] false None false None 0%nat in
  let r := start_task 0 "t" (Some 10000000000) None p in
  fst r = Raised OverflowError
  /\ task_active (snd r) = true
  /\ complete_task 1 (snd r) = (Raised TypeError, snd r).
Proof.
  intros p r.
  destruct (start_task_overflow_half_done 0 1 "t" 10000000000 None p
              eq_refl eq_refl)
    as (H1 & H2 & _ & _ & _ & _ & _ & H3 & _).
  split; [exact H1|]. split; [exact H2|]. exact (H3 eq_refl).
Defined.

Lemma run_step_chain_numbered (e : protocol_step) (p : Protocol) :
  chain_numbered (task_chain p) ->
  chain_numbered (task_chain (snd (run_step e p))).
Proof.
  intros Hn.
  destruct e as [now minutes| |now stamp minutes name|now|now| |description
                 |stamp description]; simpl.
  - unfold start_reservation. destruct (_ || _); [exact Hn|].
    destruct (match minutes with Some m => Some m | None => _ end);
      [|exact Hn].
    by destruct (minutes_after now z).
  - unfold reservation_timer_fires. by destruct (reservation_active p).
  - unfold start_task. destruct (task_active p); [exact Hn|].
    destruct (match minutes with Some m => Some m | None => _ end);
      [|exact Hn].
    destruct (minutes_after now z); [|exact Hn]. simpl.
    intros k n Hk. apply lookup_app_Some in Hk as [Hk | [Hlen Hk]].
    + by apply Hn.
    + apply list_lookup_singleton_Some in Hk as [Hk <-]. simpl. lia.
  - unfold complete_task. destruct (negb (task_active p)); [exact Hn|].
    destruct (bool_decide _); [exact Hn|]. by destruct (last (task_chain p)).
  - unfold task_timer_fires, complete_task.
    destruct (task_active p); [|exact Hn]. simpl.
    destruct (bool_decide _); [exact Hn|]. by destruct (last (task_chain p)).
  - unfold stop_task. by destruct (negb _).
  - intros k n Hk. simpl in Hk. by rewrite lookup_nil in Hk.
  - exact Hn.
Qed.

(** When the nodes of the chain are numbered 1, 2, 3, ... in order, they
    still are after any sequence of steps: [start_task] numbers the new
    node one past the length, and [reset_chain] starts over from 1. *)
Theorem chain_numbered_preserved (es : list protocol_step) (p : Protocol) :
  chain_numbered (task_chain p) ->
  forall k n, task_chain (run_steps es p) !! k = Some n ->
              task_id n = Z.of_nat k + 1.
Proof.
  intros Hn.
  assert (H : chain_numbered (task_chain (run_steps es p))); [|exact H].
  revert p Hn. induction es as [|e es IH]; intros p Hn; [exact Hn|].
  simpl. apply IH. by apply run_step_chain_numbered.
Qed.

Lemma chain_numbered_preserved_witness :
  let p := mkProtocol [] [] (Some 15) (Some 30) 0 [] false None false None 0%nat in
  let es := [StartTask 0 "t" None (Some "a"); CompleteTask 5;
             StartTask 9 "u" None (Some "b")] in
  task_chain (run_steps es p) !! 1%nat = Some (mkTaskNode 2 "b" "u")
  /\ task_id (mkTaskNode 2 "b" "u") = Z.of_nat 1 + 1.
Proof.
  intros p es. split; [reflexivity|].
  apply (chain_numbered_preserved es p); [|reflexivity].
  intros k n Hk. simpl in Hk. by rewrite lookup_nil in Hk.
Defined.

Lemma run_step_longest_chain (e : protocol_step) (p : Protocol) :
  longest_chain p <= longest_chain (snd (run_step e p)).
Proof.
  destruct e as [now minutes| |now stamp minutes name|now|now| |description
                 |stamp description]; simpl.
  - unfold start_reservation. destruct (_ || _); [simpl; lia|].
    destruct (match minutes with Some m => Some m | None => _ end);
      [|simpl; lia].
    destruct (minutes_after now z); simpl; lia.
  - unfold reservation_timer_fires. destruct (reservation_active p); simpl; lia.
  - unfold start_task. destruct (task_active p); [simpl; lia|].
    destruct (match minutes with Some m => Some m | None => _ end);
      [|simpl; lia].
    destruct (minutes_after now z); simpl; lia.
  - unfold complete_task. destruct (negb (task_active p)); [simpl; lia|].
    destruct (bool_decide (task_end_time p = None)); [simpl; lia|].
    destruct (last (task_chain p)); simpl; [|lia].
    case_bool_decide; lia.
  - unfold task_timer_fires, complete_task.
    destruct (task_active p); simpl; [|lia].
    destruct (bool_decide (task_end_time p = None)); [simpl; lia|].
    destruct (last (task_chain p)); simpl; [|lia].
    case_bool_decide; lia.
  - unfold stop_task. destruct (negb _); simpl; lia.
  - simpl. lia.
  - simpl. lia.
Qed.

(** The record of the longest chain never goes down, whatever the steps;
    and when [complete_task] returns true the record is at least the length
    of the chain, which the call leaves as it is. *)
Theorem longest_chain_record (es : list protocol_step) (p : Protocol) (now : Z) :
  longest_chain p <= longest_chain (run_steps es p)
  /\ (fst (complete_task now p) = Returned (Some true) ->
      task_chain (snd (complete_task now p)) = task_chain p
      /\ Z.of_nat (length (task_chain p))
         <= longest_chain (snd (complete_task now p))
      /\ task_active (snd (complete_task now p)) = false
      /\ save_count (snd (complete_task now p)) = S (save_count p)).
Proof.
  split.
  - revert p. induction es as [|e es IH]; intros p; [simpl; lia|].
    simpl. pose proof (run_step_longest_chain e p). pose proof (IH (snd (run_step e p))).
    unfold run_steps in *. lia.
  - unfold complete_task. destruct (negb (task_active p)); [discriminate|].
    destruct (bool_decide (task_end_time p = None)); [discriminate|].
    destruct (last (task_chain p)); [|discriminate]. simpl. intros _.
    split; [done|]. split; [|done]. case_bool_decide; lia.
Qed.

Lemma longest_chain_record_witness :
  let p := mkProtocol [mkTaskNode 1 "a" "t"; mkTaskNode 2 "b" "u"] [] (Some 15) (Some 30) 1 []
             false None true (Some 50) 0%nat in
  fst (complete_task 40 p) = Returned (Some true)
  /\ Z.of_nat (length (task_chain p)) <= longest_chain (snd (complete_task 40 p)).
Proof.
  intros p. split; [reflexivity|].
  destruct (longest_chain_record [] p 40) as [_ H].
  destruct (H eq_refl) as (_ & Hle & _). exact Hle.
Defined.

Lemma last_drop_lt {A : Type} (n : nat) (l : list A) :
  (n < length l)%nat -> last (drop n l) = last l.
Proof.
  intros Hn. rewrite !last_lookup, lookup_drop, length_drop.
  f_equal. lia.
Qed.

Lemma last_twenty_length {A : Type} (l : list A) :
  (length (last_twenty l) <= 20)%nat.
Proof. unfold last_twenty. rewrite length_drop. lia. Qed.

(** [reset_chain] on a chain that is not empty empties it, clears both
    flags, saves once, and appends the rendered chain to the history, of
    which it keeps the last twenty entries: the history ends with that entry
    and has at most twenty.  A history of at most twenty entries stays so
    under every sequence of steps. *)
Theorem reset_chain_history (description : string) (p : Protocol)
    (es : list protocol_step) :
  (task_chain p <> [] ->
   let p' := snd (reset_chain description p) in
   let entry := join " -> " (chain_link <$> task_chain p) in
   task_chain p' = []
   /\ task_active p' = false /\ reservation_active p' = false
   /\ save_count p' = S (save_count p)
   /\ (length (task_history p') <= 20)%nat
   /\ last (task_history p') = Some entry
   /\ task_history p' `suffix_of` task_history p ++ [entry]
   /\ ((length (task_history p) < 20)%nat ->
       task_history p' = task_history p ++ [entry]))
  /\ ((length (task_history p) <= 20)%nat ->
      (length (task_history (run_steps es p)) <= 20)%nat).
Proof.
  split.
  - intros Hne p' entry. subst p' entry. unfold reset_chain. simpl.
    destruct (task_chain p) as [|n chain] eqn:E; [done|].
    set (entry := join " -> " (chain_link <$> n :: chain)).
    repeat split.
    + apply last_twenty_length.
    + unfold last_twenty.
      rewrite last_drop_lt; [by rewrite last_snoc|].
      rewrite length_app. simpl. lia.
    + unfold last_twenty. apply suffix_drop.
    + intros Hlen. unfold last_twenty.
      replace (length (task_history p ++ [entry]) - 20)%nat with 0%nat; [done|].
      rewrite length_app. simpl. lia.
  - revert p. induction es as [|e es IH]; intros p Hlen; [exact Hlen|].
    simpl. apply IH.
    destruct e as [now minutes| |now stamp minutes name|now|now| |d
                   |stamp d]; simpl.
    + unfold start_reservation. destruct (_ || _); [done|].
      destruct (match minutes with Some m => Some m | None => _ end);
        [|done].
      by destruct (minutes_after now z).
    + unfold reservation_timer_fires. by destruct (reservation_active p).
    + unfold start_task. destruct (task_active p); [done|].
      destruct (match minutes with Some m => Some m | None => _ end);
        [|done].
      by destruct (minutes_after now z).
    + unfold complete_task. destruct (negb (task_active p)); [done|].
      destruct (bool_decide _); [done|]. by destruct (last (task_chain p)).
    + unfold task_timer_fires, complete_task.
      destruct (task_active p); [|done]. simpl.
      destruct (bool_decide _); [done|]. by destruct (last (task_chain p)).
    + unfold stop_task. by destruct (negb _).
    + destruct (task_chain p); [done|]. apply last_twenty_length.
    + done.
Qed.

Lemma reset_chain_history_witness :
  let p := mkProtocol [mkTaskNode 1 "a" "t"; mkTaskNode 2 "b" "u"] [] (Some 15) (Some 30) 2
             ["#1 [x]"] false None false None 0%nat in
  task_history (snd (reset_chain "late" p)) = ["#1 [x]"; "#1 [a] -> #2 [b]"].
Proof.
  intros p.
  destruct (reset_chain_history "late" p []) as [H _].
  destruct H as (_ & _ & _ & _ & _ & _ & _ & H); [discriminate|].
  rewrite H; [reflexivity|simpl; lia].
Defined.



(** ** What is on disk *)

Lemma through_json_restores (int_of_str : string -> option Z)
    (m : Manager Formula) :
  (forall k lvl, active_tree_progress m !! k = Some lvl ->
                 int_of_str (pretty k) = Some k) ->
  restores int_of_str (through_json (get_formulas_data m)) m.
Proof.
  intros Hint m0. unfold set_formulas_data, get_formulas_data, through_json.
  simpl. rewrite <- list_fmap_compose.
  rewrite (mapM_fmap_Forall_Some _ _).
  - simpl. unfold engine_state. simpl.
    by rewrite dict_of_items_map_to_list.
  - apply Forall_forall. intros [k v] Hkv.
    apply elem_of_map_to_list in Hkv. simpl.
    by rewrite (Hint k v Hkv).
Qed.

(** With [save_data] injected as the callback: if the data file restores
    the engine state before a call of the engine, it restores the engine
    state after the call, whatever the call (provided [int] reads back the
    decimal strings of the tracked ids): nothing the engine changes is ever
    missing from the file. *)
Theorem persisted_formulas_in_sync (int_of_str : string -> option Z)
    (today : date) (c : command) (m : Manager Formula) (on_disk : snapshot) :
  data_callback m = true ->
  restores int_of_str on_disk m ->
  (forall k lvl,
      active_tree_progress (snd (run_command today c m)) !! k = Some lvl ->
      int_of_str (pretty k) = Some k) ->
  restores int_of_str (persisted_formulas today c m on_disk)
           (snd (run_command today c m)).
Proof.
  intros Hcb Hsync Hint. unfold persisted_formulas.
  destruct (run_command_commit today c m Hcb) as [Hcalls Hsame].
  destruct (committed c (fst (run_command today c m)) m).
  - rewrite bool_decide_eq_false_2 by lia.
    by apply through_json_restores.
  - rewrite bool_decide_eq_true_2 by lia.
    by rewrite Hsame.
Qed.

Lemma persisted_formulas_in_sync_witness :
  let int_of_str := fun s : string =>
                      if bool_decide (s = "1") then Some 1 else None in
  let m := init 0 true in
  let on_disk := through_json (get_formulas_data m) in
  let m1 := snd (run_command 0 (Toggle 1) m) in
  restores int_of_str
    (persisted_formulas 0 (Toggle 1) m1 (persisted_formulas 0 (Toggle 1) m on_disk))
    (snd (run_command 0 (Toggle 1) m1))
  /\ active_tree_progress (snd (run_command 0 (Toggle 1) m1)) = {[1 := 0]}.
Proof.
  intros int_of_str m on_disk m1.
  assert (H0 : restores int_of_str on_disk m).
  { apply through_json_restores. intros k lvl Hk. discriminate Hk. }
  split; [|reflexivity].
  apply persisted_formulas_in_sync; [reflexivity| |].
  - apply persisted_formulas_in_sync; [reflexivity|exact H0|].
    intros k lvl Hk. discriminate Hk.
  - intros k lvl Hk.
    change (active_tree_progress (snd (run_command 0 (Toggle 1) m1)))
      with ({[1 := 0]} : gmap Z Z) in Hk.
    apply lookup_singleton_Some in Hk as [<- _]. reflexivity.
Defined.

(** ** The order of the children lists *)

Lemma get_children_formulas_fmap (h : Formula -> Formula) (fs : list Formula)
    (i : Z) :
  (forall f, Formula.id (h f) = Formula.id f
             /\ Formula.parent (h f) = Formula.parent f) ->
  Formula.id <$> get_children_formulas (h <$> fs) i
  = Formula.id <$> get_children_formulas fs i.
Proof.
  intros Hh. unfold get_children_formulas.
  induction fs as [|f fs IH]; [reflexivity|].
  rewrite fmap_cons, !filter_cons. destruct (Hh f) as [Hi Hp]. rewrite Hp.
  destruct (decide (Formula.parent f = Some i)); [|exact IH].
  rewrite !fmap_cons, Hi. f_equal. exact IH.
Qed.

Lemma get_children_formulas_filter (D : list Z) (fs : list Formula) (i : Z) :
  Formula.id <$> get_children_formulas
                   (filter (fun f => Formula.id f ∉ D) fs) i
  = filter (fun c => c ∉ D) (Formula.id <$> get_children_formulas fs i).
Proof.
  unfold get_children_formulas.
  induction fs as [|f fs IH]; [reflexivity|].
  rewrite !filter_cons.
  destruct (decide (Formula.id f ∉ D)) as [Hd|Hd];
    destruct (decide (Formula.parent f = Some i)) as [Hp|Hp].
  - rewrite filter_cons, decide_True by exact Hp.
    rewrite !fmap_cons, filter_cons, decide_True by exact Hd.
    f_equal. exact IH.
  - rewrite filter_cons, decide_False by exact Hp. exact IH.
  - rewrite fmap_cons, filter_cons, decide_False by exact Hd. exact IH.
  - exact IH.
Qed.

Lemma children_ordered_fmap (fs : list Formula) (h : Formula -> Formula) :
  (forall f, Formula.id (h f) = Formula.id f
             /\ Formula.parent (h f) = Formula.parent f
             /\ Formula.children (h f) = Formula.children f) ->
  children_ordered fs -> children_ordered (h <$> fs).
Proof.
  intros Hh Hfs n' Hn'. apply list_elem_of_fmap in Hn' as (n & -> & Hn).
  destruct (Hh n) as (Hi & _ & Hc). rewrite Hi, Hc.
  rewrite get_children_formulas_fmap; [by apply Hfs|].
  intros f. destruct (Hh f) as (? & ? & _). by split.
Qed.

Lemma children_ordered_update_first (fs : list Formula) (i : Z)
    (g : Formula -> Formula) :
  (forall f, Formula.id (g f) = Formula.id f
             /\ Formula.parent (g f) = Formula.parent f
             /\ Formula.children (g f) = Formula.children f) ->
  NoDup (Formula.id <$> fs) ->
  children_ordered fs -> children_ordered (update_first i g fs).
Proof.
  intros Hg Hnd Hfs. rewrite update_first_fmap by exact Hnd.
  apply children_ordered_fmap; [|exact Hfs].
  intros f. by destruct (bool_decide (Formula.id f = i)).
Qed.

(** Appending the new node of [add_formula]: its id goes to the end of the
    children list of its parent, and to the end of the node list. *)
Lemma children_ordered_add_node (fs : list Formula) (h : Formula -> Formula)
    (new : Formula) :
  engine_built fs ->
  children_ordered fs ->
  (forall f, Formula.id (h f) = Formula.id f
             /\ Formula.parent (h f) = Formula.parent f) ->
  Formula.id new = new_id_of fs ->
  Formula.children new = [] ->
  (forall f, f ∈ fs ->
     Formula.children (h f)
     = Formula.children f
       ++ (if decide (Formula.parent new = Some (Formula.id f))
           then [Formula.id new] else [])) ->
  (forall p, Formula.parent new = Some p -> p < Formula.id new) ->
  children_ordered ((h <$> fs) ++ [new]).
Proof.
  intros (Hnd & Hpos & Hord & Hidx) Hfs Hh Hid Hleaf Hch Hpar.
  assert (Hfresh : forall f, f ∈ fs -> Formula.id f < Formula.id new).
  { intros f Hf. rewrite Hid. by apply new_id_of_fresh. }
  assert (Hsplit : forall i,
             Formula.id <$> get_children_formulas ((h <$> fs) ++ [new]) i
             = (Formula.id <$> get_children_formulas fs i)
               ++ (if decide (Formula.parent new = Some i)
                   then [Formula.id new] else [])).
  { intros i. unfold get_children_formulas at 1.
    rewrite filter_app, fmap_app.
    change (filter (fun f => Formula.parent f = Some i) (h <$> fs))
      with (get_children_formulas (h <$> fs) i).
    rewrite (get_children_formulas_fmap h fs i Hh). f_equal.
    rewrite filter_cons, filter_nil.
    by destruct (decide (Formula.parent new = Some i)). }
  intros n' Hn'. rewrite Hsplit.
  apply elem_of_app in Hn' as [Hn' | Hn'].
  - apply list_elem_of_fmap in Hn' as (n & -> & Hn).
    destruct (Hh n) as [Hi _]. rewrite Hi, (Hch n Hn). f_equal.
    by apply Hfs.
  - apply list_elem_of_singleton in Hn' as ->. rewrite Hleaf.
    unfold get_children_formulas. rewrite filter_none.
    + rewrite decide_False; [reflexivity|].
      intros Hp. pose proof (Hpar _ Hp). lia.
    + intros c Hc Hp. pose proof (Hord c _ Hc Hp). pose proof (Hfresh c Hc).
      lia.
Qed.

Lemma add_formula_children_ordered (today : date) (name : string)
    (parent_id : option Z) (m : Manager Formula) :
  engine_built (_formulas m) ->
  children_ordered (_formulas m) ->
  children_ordered (_formulas (snd (add_formula today name parent_id m))).
Proof.
  intros Hb Hco.
  destruct (add_formula today name parent_id m) as [[ok msg] m'] eqn:E.
  destruct ok.
  2:{ unfold add_formula in E.
      destruct (bool_decide (last_addition_date m = Some today));
        [inversion E; by subst|].
      destruct (bool_decide (strip name = EmptyString));
        [inversion E; by subst|].
      destruct (truthy parent_id && _); [inversion E; by subst|].
      discriminate E. }
  apply add_formula_success in E as (_ & _ & _ & Hpar & Hfs & _ & _).
  simpl. rewrite Hfs. clear Hfs.
  pose proof Hb as (Hnd & Hpos & Hord & Hidx).
  destruct parent_id as [p|]; [destruct (truthy (Some p)) eqn:Et|].
  - destruct (Hpar eq_refl) as (f0 & Hf0 & [= ->]).
    rewrite update_first_fmap by exact Hnd.
    apply children_ordered_add_node; simpl; try done.
    + intros f. by destruct (bool_decide (Formula.id f = Formula.id f0)).
    + intros f Hf.
      destruct (bool_decide (Formula.id f = Formula.id f0)) eqn:E; simpl.
      * apply bool_decide_eq_true in E.
        rewrite decide_True by (by rewrite E). reflexivity.
      * apply bool_decide_eq_false in E.
        rewrite decide_False by congruence. by rewrite app_nil_r.
    + intros q [= <-]. by apply new_id_of_fresh.
  - simpl in Et. apply negb_false_iff, bool_decide_eq_true in Et as ->.
    rewrite <- (fmap_fixed (fun f => f) (_formulas m)) at 1 by done.
    apply children_ordered_add_node; simpl; try done.
    + intros f Hf. rewrite decide_False; [by rewrite app_nil_r|].
      intros [= Hz]. pose proof (Hpos f Hf). lia.
    + intros q [= <-]. pose proof (new_id_of_positive _ Hpos). lia.
  - rewrite <- (fmap_fixed (fun f => f) (_formulas m)) at 1 by done.
    apply children_ordered_add_node; simpl; try done.
    intros f Hf. by rewrite app_nil_r.
Qed.

Lemma children_ordered_remove (fs : list Formula) (D : list Z) :
  children_ordered fs ->
  children_ordered
    (strip_children D <$> filter (fun f => Formula.id f ∉ D) fs).
Proof.
  intros Hfs n' Hn'. apply list_elem_of_fmap in Hn' as (n & -> & Hn).
  apply list_elem_of_filter in Hn as [_ Hn].
  rewrite get_children_formulas_fmap by done.
  change (Formula.id (strip_children D n)) with (Formula.id n).
  rewrite get_children_formulas_filter, <- (Hfs n Hn). reflexivity.
Qed.

Lemma run_command_children_ordered (today : date) (c : command)
    (m : Manager Formula) :
  engine_built (_formulas m) ->
  children_ordered (_formulas m) ->
  children_ordered (_formulas (snd (run_command today c m))).
Proof.
  intros Hb Hco. pose proof Hb as (Hnd & _).
  destruct c as [name p|fuel i confirm|i new_name|i|root_id|]; simpl.
  - by apply add_formula_children_ordered.
  - unfold remove_formula.
    destruct (get_descendants fuel (_formulas m) i) as [D|]; [|exact Hco].
    destruct (Formula.name <$> _); [exact Hco|].
    destruct confirm; simpl; [|exact Hco].
    rewrite _save_data_formulas. simpl. by apply children_ordered_remove.
  - unfold update_formula_name.
    destruct (bool_decide (strip new_name = EmptyString)); [exact Hco|].
    destruct (get_formula_by_id (_formulas m) i); [|exact Hco].
    simpl. rewrite _save_data_formulas. simpl.
    by apply children_ordered_update_first.
  - unfold change_formula_status.
    destruct (get_formula_by_id (_formulas m) i) as [f|]; [|exact Hco].
    destruct (bool_decide (Formula.status f = ACTIVE)); simpl;
      rewrite _save_data_formulas; simpl;
      by apply children_ordered_update_first.
  - by rewrite execute_next_level_formulas.
  - rewrite _save_data_formulas. simpl.
    intros n Hn. by apply elem_of_nil in Hn.
Qed.

Lemma default_formulas_children_ordered (today : date) :
  children_ordered (default_formulas today).
Proof.
  intros n Hn. unfold default_formulas in Hn.
  repeat (apply elem_of_cons in Hn as [-> | Hn]);
    try (by apply elem_of_nil in Hn); reflexivity.
Qed.

Lemma run_commands_children_ordered (cs : list (date * command))
    (m : Manager Formula) :
  engine_built (_formulas m) ->
  children_ordered (_formulas m) ->
  children_ordered (_formulas (run_commands cs m)).
Proof.
  revert m. induction cs as [|[today c] cs IH]; intros m Hb Hco; [exact Hco|].
  simpl. apply IH.
  - by apply run_command_engine_built.
  - by apply run_command_children_ordered.
Qed.

Lemma NoDup_ids_filter (P : Formula -> Prop) `{!forall f, Decision (P f)}
    (fs : list Formula) :
  NoDup (Formula.id <$> fs) -> NoDup (Formula.id <$> filter P fs).
Proof.
  induction fs as [|f fs IH]; [done|].
  rewrite fmap_cons, NoDup_cons. intros [Hf Hnd].
  rewrite filter_cons. destruct (decide (P f)); [|by apply IH].
  rewrite fmap_cons. apply NoDup_cons. split; [|by apply IH].
  intros Hin. apply Hf.
  apply list_elem_of_fmap in Hin as (g & Hg & Hin).
  apply list_elem_of_filter in Hin as [_ Hin].
  apply list_elem_of_fmap. by exists g.
Qed.

(** On every state that calls of the engine reach from the seeded forest,
    the children list of a node is, as a sequence, the list of the ids of the
    nodes [get_children_formulas] returns for it: the same members in the
    same order, and so no id twice. *)
Theorem reachable_children_ordered (today : date) (callback : bool)
    (cs : list (date * command)) :
  let fs := _formulas (run_commands cs (init today callback)) in
  forall n, n ∈ fs ->
    Formula.children n
    = Formula.id <$> get_children_formulas fs (Formula.id n)
    /\ NoDup (Formula.children n).
Proof.
  intros fs n Hn.
  assert (Hb : engine_built fs).
  { apply (run_commands_engine_built cs (init today callback)).
    apply default_formulas_engine_built. }
  assert (Hco : children_ordered fs).
  { apply (run_commands_children_ordered cs (init today callback)).
    - apply default_formulas_engine_built.
    - apply default_formulas_children_ordered. }
  split; [by apply Hco|].
  rewrite (Hco n Hn). apply NoDup_ids_filter, Hb.
Qed.

Lemma reachable_children_ordered_witness :
  let fs := _formulas (run_commands [(1, Add "E" (Some 1)); (2, Remove 5 2 true)]
                         (init 0 true)) in
  let n := Formula.mk 1 "A定式" None [3; 5] ACTIVE (Some 0) in
  n ∈ fs
  /\ Formula.id <$> get_children_formulas fs 1 = [3; 5].
Proof.
  intros fs n.
  assert (Hn : n ∈ fs).
  { apply list_elem_of_lookup_2 with 0%nat. reflexivity. }
  split; [exact Hn|].
  destruct (reachable_children_ordered 0 true
              [(1, Add "E" (Some 1)); (2, Remove 5 2 true)] n Hn) as [Hc _].
  symmetry. exact Hc.
Defined.

(** ** Lookup by name *)

Lemma get_formula_by_name_app (l1 l2 : list Formula) (s : string) :
  get_formula_by_name (l1 ++ l2) s
  = match get_formula_by_name l1 s with
    | Some f => Some f
    | None => get_formula_by_name l2 s
    end.
Proof.
  unfold get_formula_by_name. induction l1 as [|f l1 IH]; [reflexivity|].
  simpl. by destruct (bool_decide (Formula.name f = s)).
Qed.

Lemma get_formula_by_name_update_first (i : Z) (g : Formula -> Formula)
    (fs : list Formula) (s : string) :
  (forall f, Formula.id (g f) = Formula.id f
             /\ Formula.name (g f) = Formula.name f) ->
  Formula.id <$> get_formula_by_name (update_first i g fs) s
  = Formula.id <$> get_formula_by_name fs s.
Proof.
  intros Hg. unfold get_formula_by_name.
  induction fs as [|f fs IH]; [reflexivity|].
  simpl. destruct (bool_decide (Formula.id f = i)); simpl.
  - destruct (Hg f) as [Hi ->].
    destruct (bool_decide (Formula.name f = s)); [|reflexivity].
    simpl. by rewrite Hi.
  - destruct (bool_decide (Formula.name f = s)); [reflexivity|exact IH].
Qed.

Lemma get_formula_by_name_elem (fs : list Formula) (s : string) (f : Formula) :
  get_formula_by_name fs s = Some f -> f ∈ fs /\ Formula.name f = s.
Proof.
  unfold get_formula_by_name. intros H. apply find_some in H as [Hin Hs].
  split; [by apply list_elem_of_In|]. by apply bool_decide_eq_true in Hs.
Qed.

(** [add_formula] does not look at the names already in use.  When a node
    carries the trimmed name already, [get_formula_by_name] goes on returning
    that older node after the add, so the new node is not found by its name;
    when no node carries it, the lookup returns the new node.  Lookups of
    other names find a node with the same id as before. *)
Theorem add_formula_name_lookup (today : date) (name : string)
    (parent_id : option Z) (m m' : Manager Formula) (msg : string) :
  add_formula today name parent_id m = ((true, msg), m') ->
  let new_id := new_id_of (_formulas m) in
  (forall old, get_formula_by_name (_formulas m) (strip name) = Some old ->
     exists f, get_formula_by_name (_formulas m') (strip name) = Some f
               /\ Formula.id f = Formula.id old
               /\ Formula.id f <> new_id)
  /\ (get_formula_by_name (_formulas m) (strip name) = None ->
      get_formula_by_name (_formulas m') (strip name)
      = Some (Formula.mk new_id (strip name) parent_id [] INACTIVE None))
  /\ (forall s, s <> strip name ->
        Formula.id <$> get_formula_by_name (_formulas m') s
        = Formula.id <$> get_formula_by_name (_formulas m) s).
Proof.
  intros E new_id.
  apply add_formula_success in E as (_ & _ & _ & _ & Hfs & _ & _).
  set (fs1 := match parent_id with
              | Some p =>
                  if truthy parent_id
                  then update_first p
                         (fun f => Formula.set_children
                                     (Formula.children f ++ [new_id_of (_formulas m)]) f)
                         (_formulas m)
                  else _formulas m
              | None => _formulas m
              end) in Hfs.
  assert (H1 : forall s, Formula.id <$> get_formula_by_name fs1 s
                         = Formula.id <$> get_formula_by_name (_formulas m) s).
  { intros s. subst fs1. destruct parent_id as [p|]; [|reflexivity].
    destruct (truthy (Some p)); [|reflexivity].
    by apply get_formula_by_name_update_first. }
  rewrite Hfs. split; [|split].
  - intros old Hold. rewrite get_formula_by_name_app.
    pose proof (H1 (strip name)) as H. rewrite Hold in H.
    destruct (get_formula_by_name fs1 (strip name)) as [f|]; [|discriminate H].
    injection H as H. exists f. split; [reflexivity|]. split; [exact H|].
    apply get_formula_by_name_elem in Hold as [Hin _].
    pose proof (new_id_of_fresh _ _ Hin). subst new_id. lia.
  - intros Hnone. rewrite get_formula_by_name_app.
    pose proof (H1 (strip name)) as H. rewrite Hnone in H.
    destruct (get_formula_by_name fs1 (strip name)); [discriminate H|].
    unfold get_formula_by_name. simpl.
    by rewrite bool_decide_eq_true_2.
  - intros s Hs. rewrite get_formula_by_name_app, <- (H1 s).
    destruct (get_formula_by_name fs1 s); [reflexivity|].
    unfold get_formula_by_name. simpl.
    by rewrite bool_decide_eq_false_2 by congruence.
Qed.

Lemma add_formula_name_lookup_witness :
  let m := init 0 true in
  let r := add_formula 3 " A定式 " (Some 2) m in
  fst (fst r) = true
  /\ exists f, get_formula_by_name (_formulas (snd r)) "A定式" = Some f
               /\ Formula.id f = 1.
Proof.
  intros m r.
  destruct (add_formula_name_lookup 3 " A定式 " (Some 2) m (snd r)
              (snd (fst r)) eq_refl) as (Hold & _ & _).
  destruct (Hold (Formula.mk 1 "A定式" None [2; 3] ACTIVE (Some 0)) eq_refl)
    as (f & Hf & Hid & _).
  split; [reflexivity|]. exists f. split; [exact Hf|exact Hid].
Defined.

(** ** The data file *)

Lemma dict_get_cons (k0 k : string) (v0 : json) (d : list (string * json)) :
  dict_get ((k0, v0) :: d) k
  = if bool_decide (k0 = k) then Some v0 else dict_get d k.
Proof. unfold dict_get. simpl. by destruct (bool_decide (k0 = k)). Qed.

Lemma dict_get_dict_set (d : list (string * json)) (k0 k : string) (v0 : json) :
  dict_get (dict_set d k0 v0) k
  = if bool_decide (k0 = k) then Some v0 else dict_get d k.
Proof.
  induction d as [|[k1 v1] d IH]; simpl.
  - rewrite dict_get_cons. by destruct (bool_decide (k0 = k)).
  - destruct (bool_decide (k1 = k0)) eqn:E1.
    + apply bool_decide_eq_true in E1. subst k1.
      rewrite !dict_get_cons. by destruct (bool_decide (k0 = k)).
    + apply bool_decide_eq_false in E1. rewrite !dict_get_cons, IH.
      destruct (bool_decide (k1 = k)) eqn:E2; [|reflexivity].
      apply bool_decide_eq_true in E2.
      rewrite bool_decide_eq_false_2 by congruence. reflexivity.
Qed.

Lemma merge_step_raised (defs : list (string * json)) :
  fold_left merge_step defs None = None.
Proof. induction defs as [|kv defs IH]; [reflexivity|exact IH]. Qed.

(** On a dictionary the loop never raises: the keys of the file keep their
    values, and a missing key gets the first value the defaults have for
    it. *)
Lemma merge_defaults_dict (defs d : list (string * json)) :
  exists d',
    merge_defaults defs (JDict d) = Some (JDict d')
    /\ forall k, dict_get d' k
                 = match dict_get d k with
                   | Some v => Some v
                   | None => dict_get defs k
                   end.
Proof.
  unfold merge_defaults. revert d.
  induction defs as [|[k0 v0] defs IH]; intros d.
  - exists d. split; [reflexivity|]. intros k. by destruct (dict_get d k).
  - simpl. destruct (bool_decide (is_Some (dict_get d k0))) eqn:E; simpl.
    + apply bool_decide_eq_true in E.
      destruct (IH d) as (d' & Hd' & Hget). exists d'. split; [exact Hd'|].
      intros k. rewrite Hget, dict_get_cons.
      destruct (dict_get d k) eqn:Ek; [reflexivity|].
      rewrite bool_decide_eq_false_2; [reflexivity|].
      intros ->. rewrite Ek in E. by destruct E.
    + apply bool_decide_eq_false in E.
      destruct (IH (dict_set d k0 v0)) as (d' & Hd' & Hget).
      exists d'. split; [exact Hd'|].
      intros k. rewrite Hget, dict_get_dict_set, dict_get_cons.
      destruct (bool_decide (k0 = k)) eqn:Ek; [|reflexivity].
      apply bool_decide_eq_true in Ek. subst k.
      destruct (dict_get d k0) eqn:E0; [|reflexivity].
      exfalso. apply E. by eexists.
Qed.

(** On anything else the loop ends only if every key passes the [in] test,
    and then leaves the value as it is. *)
Lemma merge_defaults_other (defs : list (string * json)) (data : json) :
  (forall d, data <> JDict d) ->
  merge_defaults defs data
  = if forallb (fun kv => has_key data (fst kv)) defs then Some data else None.
Proof.
  intros Hnd. unfold merge_defaults.
  induction defs as [|[k0 v0] defs IH]; [reflexivity|].
  simpl. unfold has_key at 1.
  destruct (py_contains data k0) as [[|]|]; simpl.
  - exact IH.
  - assert (py_setitem data k0 v0 = None) as ->.
    { destruct data; try reflexivity. by destruct (Hnd l). }
    apply merge_step_raised.
  - apply merge_step_raised.
Qed.

(** Whatever the file holds, every key of the defaults passes the [in] test
    on what [load_data] returns.  When the file holds a dictionary the merge
    is shallow: a key of the file keeps the value of the file, whatever that
    value lacks, and only a missing key gets its default.  When the file is
    missing or unreadable the defaults are returned.  When the file holds
    something else, the defaults are returned unless every key passes the
    [in] test on it (a list with the six keys among its elements, a string
    with the six keys as substrings), in which case that value is returned,
    although it is no dictionary. *)
Theorem load_data_merges (file : option (option json)) :
  (forall k, k ∈ (fst <$> DEFAULT_DATA) ->
             py_contains (load_data file) k = Some true)
  /\ (forall d, file = Some (Some (JDict d)) ->
        exists d', load_data file = JDict d'
                   /\ forall k, dict_get d' k
                                = match dict_get d k with
                                  | Some v => Some v
                                  | None => dict_get DEFAULT_DATA k
                                  end)
  /\ (file = None \/ file = Some None -> load_data file = JDict DEFAULT_DATA)
  /\ (forall data, file = Some (Some data) -> (forall d, data <> JDict d) ->
        load_data file
        = if forallb (fun kv => has_key data (fst kv)) DEFAULT_DATA
          then data else JDict DEFAULT_DATA).
Proof.
  assert (Hdef : forall k, k ∈ (fst <$> DEFAULT_DATA) ->
                           py_contains (JDict DEFAULT_DATA) k = Some true).
  { intros k Hk. simpl in Hk.
    repeat (apply elem_of_cons in Hk as [-> | Hk]);
      try (by apply elem_of_nil in Hk); reflexivity. }
  assert (Hdict : forall d, exists d',
             load_data (Some (Some (JDict d))) = JDict d'
             /\ forall k, dict_get d' k
                          = match dict_get d k with
                            | Some v => Some v
                            | None => dict_get DEFAULT_DATA k
                            end).
  { intros d. destruct (merge_defaults_dict DEFAULT_DATA d) as (d' & Hd' & Hget).
    exists d'. split; [|exact Hget]. unfold load_data. by rewrite Hd'. }
  assert (Hother : forall data, (forall d, data <> JDict d) ->
             load_data (Some (Some data))
             = if forallb (fun kv => has_key data (fst kv)) DEFAULT_DATA
               then data else JDict DEFAULT_DATA).
  { intros data Hnd. unfold load_data.
    rewrite (merge_defaults_other DEFAULT_DATA data Hnd).
    by destruct (forallb _ DEFAULT_DATA). }
  split; [|split; [|split]].
  - intros k Hk. destruct file as [[data|]|]; [|by apply Hdef|by apply Hdef].
    destruct data as [| | | | |l|d];
      try (rewrite Hother by discriminate;
           destruct (forallb _ DEFAULT_DATA) eqn:Eall; [|by apply Hdef]).
    7:{ destruct (Hdict d) as (d' & -> & Hget). simpl. f_equal.
        apply bool_decide_eq_true_2. rewrite Hget.
        destruct (dict_get d k); [by eexists|].
        specialize (Hdef k Hk). simpl in Hdef. injection Hdef as Hdef.
        by apply bool_decide_eq_true in Hdef. }
    all: apply (proj1 (forallb_forall _ _)) with (x := (k, default JNull (dict_get DEFAULT_DATA k))) in Eall;
      [ unfold has_key in Eall; simpl fst in Eall;
        by destruct (py_contains _ k) as [[|]|]
      | apply list_elem_of_In; simpl in Hk;
        repeat (apply elem_of_cons in Hk as [-> | Hk]);
        try (by apply elem_of_nil in Hk);
        vm_compute; repeat (first [left; reflexivity | right]) ].
  - intros d ->. apply Hdict.
  - by intros [-> | ->].
  - intros data -> Hnd. by apply Hother.
Qed.

(** A file whose "settings" lack "task_minutes" keeps them after the merge;
    a list with the six keys comes back as it is. *)
Example load_data_examples :
  (exists d', load_data (Some (Some (JDict [("settings", JDict [])]))) = JDict d'
              /\ dict_get d' "settings" = Some (JDict [])
              /\ dict_get d' "longest_chain" = Some (JInt 0))
  /\ load_data (Some (Some (JList [JInt 1]))) = JDict DEFAULT_DATA
  /\ load_data (Some (Some (JList (JString <$> (fst <$> DEFAULT_DATA)))))
     = JList (JString <$> (fst <$> DEFAULT_DATA))
  /\ load_data (Some (Some (JInt 3))) = JDict DEFAULT_DATA.
Proof.
  split; [|split; [|split]]; try reflexivity.
  eexists. split; [reflexivity|]. split; reflexivity.
Qed.

(** ** The add button *)

Lemma lstrip_length (s : string) : (String.length (lstrip s) <= String.length s)%nat.
Proof.
  remember (String.length s) as n eqn:Hn.
  assert (Hle : (String.length s <= n)%nat) by lia. clear Hn.
  revert s Hle. induction n as [|n IH]; intros s Hle.
  - destruct s; [simpl; lia|simpl in Hle; lia].
  - destruct s as [|c1 [|c2 [|c3 s3]]]; simpl in *; try lia.
    + destruct (is_space1 c1); simpl; lia.
    + destruct (is_space1 c1).
      * destruct (is_space1 c2); simpl; lia.
      * destruct (is_space2 c1 c2); simpl; lia.
    + destruct (is_space1 c1).
      * pose proof (IH (String c2 (String c3 s3)) ltac:(simpl; lia)).
        simpl in *. lia.
      * destruct (is_space2 c1 c2).
        -- pose proof (IH (String c3 s3) ltac:(simpl; lia)). simpl in *. lia.
        -- destruct (is_space3 c1 c2 c3); [|simpl; lia].
           pose proof (IH s3 ltac:(lia)). simpl in *. lia.
Qed.

Lemma lstrip_lstrip (s : string) : lstrip (lstrip s) = lstrip s.
Proof.
  remember (String.length s) as n eqn:Hn.
  assert (Hle : (String.length s <= n)%nat) by lia. clear Hn.
  revert s Hle. induction n as [|n IH]; intros s Hle.
  - destruct s; [reflexivity|simpl in Hle; lia].
  - destruct s as [|c1 s1]; [reflexivity|].
    simpl in Hle. cbn [lstrip].
    destruct (is_space1 c1) eqn:E1; [apply IH; lia|].
    destruct s1 as [|c2 s2].
    { cbn [lstrip]. by rewrite E1. }
    destruct (is_space2 c1 c2) eqn:E2; [apply IH; simpl in Hle; lia|].
    destruct s2 as [|c3 s3].
    { cbn [lstrip]. by rewrite E1, E2. }
    destruct (is_space3 c1 c2 c3) eqn:E3; [apply IH; simpl in Hle; lia|].
    cbn [lstrip]. by rewrite E1, E2, E3.
Qed.

(** A prefix of a text without leading white space has none either. *)
Lemma lstrip_fixed_prefix (p q : string) :
  lstrip (String.append p q) = String.append p q -> lstrip p = p.
Proof.
  intros H.
  assert (Hlen : forall t : string,
             (String.length t < String.length (String.append p q))%nat ->
             lstrip t <> String.append p q).
  { intros t Ht Heq. pose proof (lstrip_length t) as Hl. rewrite Heq in Hl. lia. }
  destruct p as [|c1 [|c2 [|c3 p3]]]; [reflexivity| | |].
  - change (String.append (String c1 EmptyString) q) with (String c1 q) in *.
    cbn [lstrip] in *.
    destruct (is_space1 c1); [|reflexivity].
    exfalso. apply (Hlen q); [simpl; lia|exact H].
  - change (String.append (String c1 (String c2 EmptyString)) q)
      with (String c1 (String c2 q)) in *.
    cbn [lstrip] in *.
    destruct (is_space1 c1).
    { exfalso. apply (Hlen (String c2 q)); [simpl; lia|exact H]. }
    destruct (is_space2 c1 c2); [|reflexivity].
    exfalso. apply (Hlen q); [simpl; lia|exact H].
  - change (String.append (String c1 (String c2 (String c3 p3))) q)
      with (String c1 (String c2 (String c3 (String.append p3 q)))) in *.
    cbn [lstrip] in *.
    destruct (is_space1 c1).
    { exfalso. apply (Hlen (String c2 (String c3 (String.append p3 q))));
        [simpl; lia|exact H]. }
    destruct (is_space2 c1 c2).
    { exfalso. apply (Hlen (String c3 (String.append p3 q)));
        [simpl; lia|exact H]. }
    destruct (is_space3 c1 c2 c3); [|reflexivity].
    exfalso. apply (Hlen (String.append p3 q)); [simpl; lia|exact H].
Qed.

Lemma rstrip_rev_suffix (l : list ascii) : exists k, l = k ++ rstrip_rev l.
Proof.
  remember (length l) as n eqn:Hn.
  assert (Hle : (length l <= n)%nat) by lia. clear Hn.
  revert l Hle. induction n as [|n IH]; intros l Hle.
  - destruct l; [by exists []|simpl in Hle; lia].
  - destruct l as [|c1 l1]; [by exists []|].
    simpl in Hle. cbn [rstrip_rev].
    destruct (is_space1 c1).
    { destruct (IH l1 ltac:(lia)) as [k Hk]. exists (c1 :: k).
      simpl. by rewrite <- Hk. }
    destruct l1 as [|c2 l2]; [by exists []|].
    destruct (is_space2 c2 c1).
    { destruct (IH l2 ltac:(simpl in Hle; lia)) as [k Hk].
      exists (c1 :: c2 :: k). simpl. by rewrite <- Hk. }
    destruct l2 as [|c3 l3]; [by exists []|].
    destruct (is_space3 c3 c2 c1); [|by exists []].
    destruct (IH l3 ltac:(simpl in Hle; lia)) as [k Hk].
    exists (c1 :: c2 :: c3 :: k). simpl. by rewrite <- Hk.
Qed.

Lemma rstrip_rev_rstrip_rev (l : list ascii) :
  rstrip_rev (rstrip_rev l) = rstrip_rev l.
Proof.
  remember (length l) as n eqn:Hn.
  assert (Hle : (length l <= n)%nat) by lia. clear Hn.
  revert l Hle. induction n as [|n IH]; intros l Hle.
  - destruct l; [reflexivity|simpl in Hle; lia].
  - destruct l as [|c1 l1]; [reflexivity|].
    simpl in Hle. cbn [rstrip_rev].
    destruct (is_space1 c1) eqn:E1; [apply IH; lia|].
    destruct l1 as [|c2 l2].
    { cbn [rstrip_rev]. by rewrite E1. }
    destruct (is_space2 c2 c1) eqn:E2; [apply IH; simpl in Hle; lia|].
    destruct l2 as [|c3 l3].
    { cbn [rstrip_rev]. by rewrite E1, E2. }
    destruct (is_space3 c3 c2 c1) eqn:E3; [apply IH; simpl in Hle; lia|].
    cbn [rstrip_rev]. by rewrite E1, E2, E3.
Qed.

Lemma string_of_list_ascii_app (a b : list ascii) :
  string_of_list_ascii (a ++ b)
  = String.append (string_of_list_ascii a) (string_of_list_ascii b).
Proof. induction a as [|c a IH]; [reflexivity|]. simpl. by rewrite IH. Qed.

Lemma rstrip_prefix (s : string) : exists q, s = String.append (rstrip s) q.
Proof.
  unfold rstrip.
  destruct (rstrip_rev_suffix (rev (list_ascii_of_string s))) as [k Hk].
  exists (string_of_list_ascii (rev k)).
  rewrite <- string_of_list_ascii_app, <- rev_app_distr, <- Hk.
  by rewrite rev_involutive, string_of_list_ascii_of_string.
Qed.

Lemma rstrip_rstrip (s : string) : rstrip (rstrip s) = rstrip s.
Proof.
  unfold rstrip.
  by rewrite list_ascii_of_string_of_list_ascii, rev_involutive,
    rstrip_rev_rstrip_rev.
Qed.

(** Stripping twice is stripping once. *)
Lemma strip_strip (s : string) : strip (strip s) = strip s.
Proof.
  unfold strip.
  assert (H : lstrip (rstrip (lstrip s)) = rstrip (lstrip s)).
  { destruct (rstrip_prefix (lstrip s)) as [q Hq].
    apply (lstrip_fixed_prefix _ q). rewrite <- Hq. apply lstrip_lstrip. }
  rewrite H. apply rstrip_rstrip.
Qed.

(** On a forest built by the engine, with the selected row (if any) naming a
    node of the list, the add button has three outcomes and no other: a
    warning when the name field is blank, the error of the daily gate, or
    the success box with the new node appended under the selected row (as a
    root when no row is selected).  The errors "empty name" and "parent does
    not exist" never show, and the branch of [add_formula] that treats a
    parent id as absent is taken only when no row is selected. *)
Theorem add_formula_action_outcomes (today : date) (entry : string)
    (selected_item : option Z) (m : Manager Formula) :
  engine_built (_formulas m) ->
  (forall p, selected_item = Some p ->
             exists f, f ∈ _formulas m /\ Formula.id f = p) ->
  let r := add_formula_action today entry selected_item m in
  let new_id := new_id_of (_formulas m) in
  (strip entry = EmptyString -> r = ([ShowWarning MSG_ENTER_NAME], m))
  /\ (strip entry <> EmptyString -> last_addition_date m = Some today ->
      r = ([ShowError MSG_ALREADY_ADDED], m))
  /\ (strip entry <> EmptyString -> last_addition_date m <> Some today ->
      fst r = [ShowInfo (MSG_ADDED (strip entry))]
      /\ _formulas (snd r)
         = match selected_item with
           | Some p =>
               update_first p
                 (fun f => Formula.set_children
                             (Formula.children f ++ [new_id]) f)
                 (_formulas m)
           | None => _formulas m
           end
           ++ [Formula.mk new_id (strip entry) selected_item [] INACTIVE None]
      /\ last_addition_date (snd r) = Some today
      /\ engine_built (_formulas (snd r))).
Proof.
  intros Hb Hsel r new_id. subst r. unfold add_formula_action.
  split; [|split].
  - intros ->. by rewrite bool_decide_eq_true_2.
  - intros Hne Hdate. rewrite bool_decide_eq_false_2 by exact Hne.
    unfold add_formula. by rewrite bool_decide_eq_true_2.
  - intros Hne Hdate. rewrite bool_decide_eq_false_2 by exact Hne.
    assert (Hchk : truthy selected_item
                   && negb (existsb (fun f => bool_decide
                                        (Some (Formula.id f) = selected_item))
                              (_formulas m)) = false).
    { destruct selected_item as [p|]; [|reflexivity].
      destruct (Hsel p eq_refl) as (f & Hf & Hid).
      apply andb_false_iff. right. apply negb_false_iff, existsb_exists.
      exists f. split; [by apply list_elem_of_In|].
      apply bool_decide_eq_true_2. by rewrite Hid. }
    assert (Htruthy : forall p, selected_item = Some p -> truthy (Some p) = true).
    { intros p Hp. destruct (Hsel p Hp) as (f & Hf & Hid).
      destruct Hb as (_ & Hpos & _). pose proof (Hpos f Hf).
      simpl. apply negb_true_iff, bool_decide_eq_false_2. lia. }
    destruct (add_formula today (strip entry) selected_item m)
      as [[ok msg] m'] eqn:E.
    assert (Hok : ok = true).
    { unfold add_formula in E.
      rewrite bool_decide_eq_false_2 in E by exact Hdate.
      rewrite strip_strip, bool_decide_eq_false_2 in E by exact Hne.
      rewrite Hchk in E. by inversion E. }
    subst ok. cbn [fst snd].
    pose proof (add_formula_engine_built today (strip entry) selected_item m Hb)
      as Hb'. rewrite E in Hb'. cbn [snd] in Hb'.
    apply add_formula_success in E as (-> & _ & _ & _ & Hfs & Hd & _).
    rewrite strip_strip in *.
    split; [reflexivity|]. split; [|split; [exact Hd|exact Hb']].
    rewrite Hfs. destruct selected_item as [p|]; [|reflexivity].
    by rewrite (Htruthy p eq_refl).
Qed.

Lemma add_formula_action_outcomes_witness :
  let m := init 0 true in
  let r := add_formula_action 5 "  E " (Some 3) m in
  fst r = [ShowInfo (MSG_ADDED "E")]
  /\ get_formula_by_id (_formulas (snd r)) 3
     = Some (Formula.mk 3 "C定式" (Some 1) [5] INACTIVE None)
  /\ last (_formulas (snd r))
     = Some (Formula.mk 5 "E" (Some 3) [] INACTIVE None).
Proof.
  intros m r.
  assert (Hsel : forall p, Some 3 = Some p ->
                           exists f, f ∈ _formulas m /\ Formula.id f = p).
  { intros p [= <-]. exists (Formula.mk 3 "C定式" (Some 1) [] INACTIVE None).
    split; [|reflexivity].
    apply list_elem_of_lookup_2 with 2%nat. reflexivity. }
  destruct (add_formula_action_outcomes 5 "  E " (Some 3) m
              (default_formulas_engine_built 0) Hsel) as (_ & _ & Hadd).
  destruct (Hadd ltac:(discriminate) ltac:(discriminate))
    as (Hbox & Hfs & _ & _).
  split; [exact Hbox|]. subst r. rewrite Hfs. split; reflexivity.
Defined.

